(** * SyconApi: a shallow embedding of [sycon_api/sycon_api.py]

    The client class [SyconApi] is modelled function by function.  Python
    values keep their shape: [str] is [string], holding the UTF-8 bytes of
    the text (see Text below), [int] is [Z], [Optional[T]] is [option T],
    a [dict] with string keys is a [gmap string _], exceptions are the
    constructors of [exn].  The logger is left out: every use is guarded by
    [self._logger is not None] and only writes log records. *)

From Stdlib Require Import ZArith String Ascii List Bool Lia DecimalString.
From stdpp Require Import base option list gmap strings.

#[local] Set Warnings "-register-all,-clear-no-such-hyp".
#[local] Arguments String.append !s1 s2 : simpl nomatch.
Local Open Scope Z_scope.

(** ** Text

    A Python [str] is a sequence of Unicode code points.  It is held as the
    [string] of its UTF-8 bytes, what [s.encode("utf-8", "surrogatepass")]
    gives: an ASCII text is written as it is, and concatenation, equality,
    [in], [startswith] and [split] on texts are the same operations on
    their bytes.  Where the code looks at the characters themselves (the
    regular expression, a loop over a text) the bytes are read back as
    code points. *)

Definition byte (n : N) : string := String (ascii_of_N n) EmptyString.

(** [chr(c).encode("utf-8", "surrogatepass")] *)
Definition utf8_char (c : N) : string :=
  (if c <? 0x80 then byte c
   else if c <? 0x800 then
     byte (0xC0 + c / 0x40) +:+ byte (0x80 + c mod 0x40)
   else if c <? 0x10000 then
     byte (0xE0 + c / 0x1000) +:+ byte (0x80 + (c / 0x40) mod 0x40)
       +:+ byte (0x80 + c mod 0x40)
   else
     byte (0xF0 + c / 0x40000) +:+ byte (0x80 + (c / 0x1000) mod 0x40)
       +:+ byte (0x80 + (c / 0x40) mod 0x40) +:+ byte (0x80 + c mod 0x40))%N.

(** The text with the code points [t]. *)
Definition utf8 (t : list N) : string :=
  foldr (fun c s => utf8_char c +:+ s) EmptyString t.

(** The code points of a text, read off its bytes from left to right:
    [pending] bytes of the current character are still to come, [acc] holds
    the bits read of it, and [low] is the least code point its length may
    encode.  [None] when the bytes are not the encoding of a text. *)
Fixpoint code_points_from (pending : nat) (acc low : N) (s : string)
    : option (list N) :=
  match s with
  | EmptyString => match pending with O => Some [] | S _ => None end
  | String b s' =>
      let n := N_of_ascii b in
      match pending with
      | O =>
          (if n <? 0x80 then cons n <$> code_points_from 0 0 0 s'
           else if n <? 0xC0 then None
           else if n <? 0xE0 then code_points_from 1 (n - 0xC0) 0x80 s'
           else if n <? 0xF0 then code_points_from 2 (n - 0xE0) 0x800 s'
           else if n <? 0xF8 then code_points_from 3 (n - 0xF0) 0x10000 s'
           else None)%N
      | S p =>
          (if (0x80 <=? n) && (n <? 0xC0) then
             let acc := acc * 0x40 + (n - 0x80) in
             match p with
             | O =>
                 if (low <=? acc) && (acc <? 0x110000)
                 then cons acc <$> code_points_from 0 0 0 s'
                 else None
             | S _ => code_points_from p acc low s'
             end
           else None)%N
      end
  end.

Definition code_points (s : string) : option (list N) :=
  code_points_from 0 0 0 s.

(** The bytes of a text. *)
Fixpoint bytes (s : string) : list N :=
  match s with
  | String b s' => N_of_ascii b :: bytes s'
  | EmptyString => []
  end.

(** The decimal digits of Unicode (general category Nd), the characters
    [\d] matches in a [str] pattern compiled without [re.ASCII] and for
    which [str.isdecimal] holds: one run of code points for each script,
    from its digit zero to its digit nine (five such runs in a row for the
    mathematical digits).  The table is that of Unicode 14.0, the database
    of Python 3.11; later versions add runs for new scripts and take none
    away. *)
Definition decimal_digits : list (N * N) :=
  [ (0x0030, 0x0039); (0x0660, 0x0669); (0x06F0, 0x06F9); (0x07C0, 0x07C9);
    (0x0966, 0x096F); (0x09E6, 0x09EF); (0x0A66, 0x0A6F); (0x0AE6, 0x0AEF);
    (0x0B66, 0x0B6F); (0x0BE6, 0x0BEF); (0x0C66, 0x0C6F); (0x0CE6, 0x0CEF);
    (0x0D66, 0x0D6F); (0x0DE6, 0x0DEF); (0x0E50, 0x0E59); (0x0ED0, 0x0ED9);
    (0x0F20, 0x0F29); (0x1040, 0x1049); (0x1090, 0x1099); (0x17E0, 0x17E9);
    (0x1810, 0x1819); (0x1946, 0x194F); (0x19D0, 0x19D9); (0x1A80, 0x1A89);
    (0x1A90, 0x1A99); (0x1B50, 0x1B59); (0x1BB0, 0x1BB9); (0x1C40, 0x1C49);
    (0x1C50, 0x1C59); (0xA620, 0xA629); (0xA8D0, 0xA8D9); (0xA900, 0xA909);
    (0xA9D0, 0xA9D9); (0xA9F0, 0xA9F9); (0xAA50, 0xAA59); (0xABF0, 0xABF9);
    (0xFF10, 0xFF19); (0x104A0, 0x104A9); (0x10D30, 0x10D39);
    (0x11066, 0x1106F); (0x110F0, 0x110F9); (0x11136, 0x1113F);
    (0x111D0, 0x111D9); (0x112F0, 0x112F9); (0x11450, 0x11459);
    (0x114D0, 0x114D9); (0x11650, 0x11659); (0x116C0, 0x116C9);
    (0x11730, 0x11739); (0x118E0, 0x118E9); (0x11950, 0x11959);
    (0x11C50, 0x11C59); (0x11D50, 0x11D59); (0x11DA0, 0x11DA9);
    (0x16A60, 0x16A69); (0x16AC0, 0x16AC9); (0x16B50, 0x16B59);
    (0x1D7CE, 0x1D7FF); (0x1E140, 0x1E149); (0x1E2F0, 0x1E2F9);
    (0x1E950, 0x1E959); (0x1FBF0, 0x1FBF9) ]%N.

(** ** Exceptions *)

(** The text an exception is built with: a literal, or the f-string
    [f"... {rep.status_code} : {rep.text}"] kept as its two holes. *)
Inductive detail :=
| Text (msg : string)
| StatusText (code : Z) (body : string).

Inductive exn :=
| SyconApiInvalidParametersException (d : detail)
| SyconApiMissingParametersException (d : detail)
| SyconApiBadResponseException (d : detail)
| SyconApiServerErrorResponseException (d : detail)
| RetryError (last_attempt : exn)      (* tenacity.RetryError *)
| RequestException (reason : string)   (* raised by requests.get / requests.post *)
| TypeError
| AttributeError.

Inductive outcome (A : Type) :=
| Ok (a : A)
| Raise (e : exn).
Arguments Ok {A} a.
Arguments Raise {A} e.

(** ** Validator *)

Definition k_size_batch_limit : Z := 10000.

Inductive param :=
| PStr (s : string)
| PInt (z : Z).

Definition _raise_on_threshold_presence
    (head_limit tail_limit : option Z) : outcome unit :=
  match head_limit, tail_limit with
  | None, None =>
      Raise (SyconApiMissingParametersException
               (Text "Either headLimit or tailLimit field is required"))
  | Some _, Some _ =>
      Raise (SyconApiInvalidParametersException
               (Text "Either headLimit or tailLimit field is required, not both"))
  | _, _ => Ok tt
  end.

Definition _fill_get_data_args (args : gmap string param)
    (start_date end_date : string) (head_limit tail_limit : option Z)
    (external_sensor_id : option string) : gmap string param :=
  let args := <["start" := PStr start_date]> args in
  let args := <["end" := PStr end_date]> args in
  let args :=
    match head_limit with
    | Some h =>
        let h := if k_size_batch_limit <? h then k_size_batch_limit else h in
        <["headLimit" := PInt h]> args
    | None => args
    end in
  let args :=
    match tail_limit with
    | Some t =>
        let t := if k_size_batch_limit <? t then k_size_batch_limit else t in
        <["tailLimit" := PInt t]> args
    | None => args
    end in
  match external_sensor_id with
  | Some e => <["externalSensorId" := PStr e]> args
  | None => args
  end.

(** ** The instant pattern

    [re.compile(r"^\d{4}-\d{2}-\d{2}T\d{2}:\d{2}:\d{2}(?:\.\d+)?Z$")] as a
    syntax tree over the constructs the pattern uses, and a backtracking
    matcher in continuation-passing style over the code points of the
    text.  The continuation receives the position reached and the code
    points left. *)

Inductive atom :=
| Lit (c : ascii)   (* a literal character *)
| Digit.            (* \d *)

Inductive regex :=
| Bol                          (* ^ *)
| Eol                          (* $ *)
| One (a : atom)
| Rep (n : nat) (a : atom)     (* a{n} *)
| Plus (a : atom)              (* a+ *)
| Seq (r1 r2 : regex)
| Opt (r : regex).             (* (?:r)? *)

(** [\d] on one character of a [str]: any Unicode decimal digit. *)
Definition is_digit (c : N) : bool :=
  existsb (fun run => (fst run <=? c)%N && (c <=? snd run)%N) decimal_digits.

Definition atom_ok (a : atom) (c : N) : bool :=
  match a with
  | Lit c' => (c =? N_of_ascii c')%N
  | Digit => is_digit c
  end.

Fixpoint rep_match (a : atom) (n : nat) (pos : nat) (s : list N)
    (k : nat -> list N -> bool) : bool :=
  match n with
  | O => k pos s
  | S n' =>
      match s with
      | c :: s' => atom_ok a c && rep_match a n' (S pos) s' k
      | [] => false
      end
  end.

(** [a*], greedy: first try one more character, then the continuation. *)
Fixpoint star_match (a : atom) (pos : nat) (s : list N)
    (k : nat -> list N -> bool) : bool :=
  match s with
  | c :: s' => (atom_ok a c && star_match a (S pos) s' k) || k pos s
  | [] => k pos s
  end.

Definition newline : N := 10%N.

Fixpoint rmatch (r : regex) (pos : nat) (s : list N)
    (k : nat -> list N -> bool) : bool :=
  match r with
  | Bol => (pos =? 0)%nat && k pos s
  | Eol =>
      match s with
      | [] => k pos s
      | [c] => (c =? newline)%N && k pos s
      | _ => false
      end
  | One a => rep_match a 1 pos s k
  | Rep n a => rep_match a n pos s k
  | Plus a =>
      match s with
      | c :: s' => atom_ok a c && star_match a (S pos) s' k
      | [] => false
      end
  | Seq r1 r2 => rmatch r1 pos s (fun pos' s' => rmatch r2 pos' s' k)
  | Opt r' => rmatch r' pos s k || k pos s
  end.

(** [Pattern.fullmatch] on a text: the match runs over its code points and
    has to end where they end.  Bytes that are no text match nothing. *)
Definition fullmatch (r : regex) (s : string) : bool :=
  match code_points s with
  | Some t => rmatch r 0 t (fun _ rest => match rest with [] => true | _ => false end)
  | None => false
  end.

Definition seq_of (rs : list regex) (last : regex) : regex :=
  foldr Seq last rs.

Definition iso_instant_re : regex :=
  seq_of
    [ Bol;
      Rep 4 Digit; One (Lit "-"); Rep 2 Digit; One (Lit "-"); Rep 2 Digit;
      One (Lit "T");
      Rep 2 Digit; One (Lit ":"); Rep 2 Digit; One (Lit ":"); Rep 2 Digit;
      Opt (Seq (One (Lit ".")) (Plus Digit));
      One (Lit "Z") ]
    Eol.

Definition date_format_message : string :=
  "date is not well formatted, use ISO-8601 instant format: YYYY-MM-DDTHH:MM:SS[.MS]Z".

Definition _raise_on_date_ISO_8601_bad_format (date : string) : outcome unit :=
  if negb (fullmatch iso_instant_re date)
  then Raise (SyconApiInvalidParametersException (Text date_format_message))
  else Ok tt.


(** ** Python values

    What [response.json()] can return.  [PyNone] is both JSON [null] and the
    value of a function that falls off its end; a float is kept as the bit
    pattern of its double; the members of a [PyDict] have distinct keys. *)

Inductive value :=
| PyNone
| PyBool (b : bool)
| PyInt (z : Z)
| PyFloat (bits : Z)
| PyStr (s : string)
| PyList (items : list value)
| PyDict (members : list (string * value)).

Definition dict_get (key : string) (members : list (string * value)) : option value :=
  snd <$> List.find (fun kv => String.eqb (fst kv) key) members.

(** [needle in text] on two strings. *)
Fixpoint str_contains (needle text : string) : bool :=
  String.prefix needle text ||
  match text with
  | String _ text' => str_contains needle text'
  | EmptyString => false
  end.

(** The single characters of a text, as iterating over it yields them. *)
Definition str_chars (s : string) : list value :=
  match code_points s with
  | Some t => (fun c => PyStr (utf8_char c)) <$> t
  | None => []
  end.

(** [for x in v]: the items a loop over [v] visits. *)
Definition py_iter (v : value) : outcome (list value) :=
  match v with
  | PyList items => Ok items
  | PyDict members => Ok (List.map (fun kv => PyStr (fst kv)) members)
  | PyStr s => Ok (str_chars s)
  | _ => Raise TypeError
  end.

(** [key in v] for a string [key]. *)
Definition py_in (key : string) (v : value) : outcome bool :=
  match v with
  | PyDict members => Ok (bool_decide (is_Some (dict_get key members)))
  | PyStr s => Ok (str_contains key s)
  | PyList items =>
      Ok (existsb (fun x => match x with
                            | PyStr s => String.eqb s key
                            | _ => false
                            end) items)
  | _ => Raise TypeError
  end.

(** [v.get(key)]: only a dict has the method. *)
Definition py_get (key : string) (v : value) : outcome value :=
  match v with
  | PyDict members => Ok (default PyNone (dict_get key members))
  | _ => Raise AttributeError
  end.

(** ** Requests, responses and the remote service *)

Inductive http_method := GET | POST.

Record request := {
  req_method : http_method;
  req_url : string;
  req_headers : gmap string string;
  req_params : option (gmap string param);   (* params= of requests.get *)
  req_data : option value;                    (* the argument of dumps, for a POST *)
  req_timeout : Z
}.

(** What the client reads of a [requests.Response].  A header name stands
    for all its spellings (the library compares names without case);
    [json] is [None] when [response.json()] raises [ValueError]. *)
Record Response := {
  status_code : Z;
  headers : gmap string string;
  text : string;
  json : option value
}.

Inductive reply :=
| Reply (rep : Response)
| Failure (reason : string).      (* requests raised: time-out, connection error *)

(** One HTTP call on the wire, with the number tenacity gives the attempt. *)
Record attempt := {
  attempt_number : nat;
  attempt_request : request
}.

(** ** The client object and the state of the world *)

Inductive SyconApiDataFields :=
| ACCELERATION_X_MS2 | ACCELERATION_Y_MS2 | ACCELERATION_Z_MS2
| ACCELERATION_MAG_MAX_MS2 | ACCELERATION_MAG_MEAN_MS2
| ACCELERATION_MAG_VARIANCE_MS2 | AIR_QUALITY_INDEX | CO2_PPM
| HUMIDITY_PERCENT | PRESSURE_HPA | TEMPERATURE_CELSIUS
| VOLATILE_ORGANIC_COMPOUND_PPM | EXT_CURRENT_AMP
| EXT_ELECTRICAL_POWER_WATT | EXT_TEMPERATURE_CELSIUS | EXT_VOLTAGE_VOLT
| EXT_HUMIDITY_PERCENT.

Definition field_value (f : SyconApiDataFields) : string :=
  match f with
  | ACCELERATION_X_MS2 => "ACCELERATION_X_MS2"
  | ACCELERATION_Y_MS2 => "ACCELERATION_Y_MS2"
  | ACCELERATION_Z_MS2 => "ACCELERATION_Z_MS2"
  | ACCELERATION_MAG_MAX_MS2 => "ACCELERATION_MAG_MAX_MS2"
  | ACCELERATION_MAG_MEAN_MS2 => "ACCELERATION_MAG_MEAN_MS2"
  | ACCELERATION_MAG_VARIANCE_MS2 => "ACCELERATION_MAG_VARIANCE_MS2"
  | AIR_QUALITY_INDEX => "AIR_QUALITY_INDEX"
  | CO2_PPM => "CO2_PPM"
  | HUMIDITY_PERCENT => "HUMIDITY_PERCENT"
  | PRESSURE_HPA => "PRESSURE_HPA"
  | TEMPERATURE_CELSIUS => "TEMPERATURE_CELSIUS"
  | VOLATILE_ORGANIC_COMPOUND_PPM => "VOLATILE_ORGANIC_COMPOUND_PPM"
  | EXT_CURRENT_AMP => "EXT_CURRENT_AMP"
  | EXT_ELECTRICAL_POWER_WATT => "EXT_ELECTRICAL_POWER_WATT"
  | EXT_TEMPERATURE_CELSIUS => "EXT_TEMPERATURE_CELSIUS"
  | EXT_VOLTAGE_VOLT => "EXT_VOLTAGE_VOLT"
  | EXT_HUMIDITY_PERCENT => "EXT_HUMIDITY_PERCENT"
  end.

Module SyconApiV1Route.
Definition LOGIN : string := "/auth/login".
Definition RENEW : string := "/auth/renew".
Definition CHECK : string := "/auth/check".
Definition DEVICES : string := "/api/devices".
(** ["/api/devices/{deviceId}/{field}/data/raw".format(deviceId=.., field=..)] *)
Definition DATA (deviceId field : string) : string :=
  "/api/devices/" +:+ deviceId +:+ "/" +:+ field +:+ "/data/raw".
End SyconApiV1Route.

Record SyconApi := {
  obj_id : nat;                 (* the identity of the object *)
  _username : string;
  _password : string;
  _token : option string;
  _server : string
}.

(** [SyconApi(username, password)] *)
Definition __init__ (id : nat) (username password : string) : SyconApi :=
  {| obj_id := id; _username := username; _password := password;
     _token := None; _server := "https://cloud.sycon.io" |}.

(** The arguments the data methods share, after the device(s). *)
Record query := {
  field : SyconApiDataFields;
  start_date : string;
  end_date : string;
  head_limit : option Z;
  tail_limit : option Z;
  external_sensor_id : option string
}.

#[global] Instance SyconApiDataFields_eq_dec : EqDecision SyconApiDataFields.
Proof. solve_decision. Defined.
#[global] Instance query_eq_dec : EqDecision query.
Proof. solve_decision. Defined.

(** An [lru_cache] store: most recently used entry first. *)
Definition lru (K V : Type) : Type := list (K * V).

Record state := {
  self : SyconApi;
  cloud : nat -> request -> reply;   (* the answer to the n-th call on the wire *)
  sent : list attempt;               (* the calls made so far, oldest first *)
  device_cache : lru (nat * string * query) value;
  devices_cache : lru (nat * list string * query) (gmap string value);
  all_devices_cache : lru (nat * query) (gmap string value)
}.

Definition set_self (me : SyconApi) (st : state) : state :=
  {| self := me; cloud := cloud st; sent := sent st;
     device_cache := device_cache st; devices_cache := devices_cache st;
     all_devices_cache := all_devices_cache st |}.

Definition set_sent (l : list attempt) (st : state) : state :=
  {| self := self st; cloud := cloud st; sent := l;
     device_cache := device_cache st; devices_cache := devices_cache st;
     all_devices_cache := all_devices_cache st |}.

Definition set_device_cache (c : lru (nat * string * query) value) (st : state) : state :=
  {| self := self st; cloud := cloud st; sent := sent st;
     device_cache := c; devices_cache := devices_cache st;
     all_devices_cache := all_devices_cache st |}.

Definition set_devices_cache (c : lru (nat * list string * query) (gmap string value))
    (st : state) : state :=
  {| self := self st; cloud := cloud st; sent := sent st;
     device_cache := device_cache st; devices_cache := c;
     all_devices_cache := all_devices_cache st |}.

Definition set_all_devices_cache (c : lru (nat * query) (gmap string value))
    (st : state) : state :=
  {| self := self st; cloud := cloud st; sent := sent st;
     device_cache := device_cache st; devices_cache := devices_cache st;
     all_devices_cache := c |}.

Definition with_token (t : option string) (me : SyconApi) : SyconApi :=
  {| obj_id := obj_id me; _username := _username me; _password := _password me;
     _token := t; _server := _server me |}.

(** A client that has made no call yet, facing the service [srv]. *)
Definition fresh (me : SyconApi) (srv : nat -> request -> reply) : state :=
  {| self := me; cloud := srv; sent := [];
     device_cache := []; devices_cache := []; all_devices_cache := [] |}.

(** ** A state and exception monad for the methods *)

Definition M (A : Type) : Type := state -> outcome A * state.

Definition ret {A} (a : A) : M A := fun st => (Ok a, st).

Definition raise {A} (e : exn) : M A := fun st => (Raise e, st).

Definition bind {A B} (m : M A) (k : A -> M B) : M B :=
  fun st =>
    match m st with
    | (Ok a, st') => k a st'
    | (Raise e, st') => (Raise e, st')
    end.

Definition lift {A} (o : outcome A) : M A := fun st => (o, st).

Definition get_self : M SyconApi := fun st => (Ok (self st), st).

(** [self._token = t] *)
Definition assign_token (t : option string) : M unit :=
  fun st => (Ok tt, set_self (with_token t (self st)) st).

Declare Scope py_scope.
Delimit Scope py_scope with py.
Notation "x <- m ;; k" := (bind m (fun x => k))
  (at level 100, m at next level, right associativity) : py_scope.
Notation "m ;; k" := (bind m (fun _ => k))
  (at level 100, right associativity) : py_scope.
Local Open Scope py_scope.

(** ** Transport *)

(** [requests.get] and [requests.post]: the call goes on the wire, the
    service answers, or the library raises. *)
Definition on_the_wire (n : nat) (req : request) : M Response :=
  fun st =>
    let st' := set_sent (sent st ++ [{| attempt_number := n; attempt_request := req |}]) st in
    match cloud st (length (sent st)) req with
    | Reply rep => (Ok rep, st')
    | Failure reason => (Raise (RequestException reason), st')
    end.

Definition requests_get (n : nat) (url : string) (params : option (gmap string param))
    (hdrs : gmap string string) (timeout : Z) : M Response :=
  on_the_wire n {| req_method := GET; req_url := url; req_headers := hdrs;
                   req_params := params; req_data := None; req_timeout := timeout |}.

Definition requests_post (n : nat) (url : string) (hdrs : gmap string string)
    (data : option value) (timeout : Z) : M Response :=
  on_the_wire n {| req_method := POST; req_url := url; req_headers := hdrs;
                   req_params := None; req_data := data; req_timeout := timeout |}.

(** The undecorated [_get_request] ([_get_request.__wrapped__]); [n] is the
    attempt number, used only to record the call. *)
Definition _get_request_wrapped (n : nat) (hdrs : gmap string string) (url : string)
    (args : option (gmap string param)) : M Response :=
  rep <- requests_get n url args hdrs 30 ;;
  if (500 <=? status_code rep) && (status_code rep <? 600) then
    raise (SyconApiServerErrorResponseException (StatusText (status_code rep) (text rep)))
  else if (400 <=? status_code rep) && (status_code rep <? 500) then
    raise (SyconApiBadResponseException (StatusText (status_code rep) (text rep)))
  else ret rep.

Definition _post_request_wrapped (n : nat) (hdrs : gmap string string) (url : string)
    (data : option value) : M Response :=
  rep <- requests_post n url hdrs data 30 ;;
  if (500 <=? status_code rep) && (status_code rep <? 600) then
    raise (SyconApiServerErrorResponseException (StatusText (status_code rep) (text rep)))
  else if (400 <=? status_code rep) && (status_code rep <? 500) then
    raise (SyconApiBadResponseException (StatusText (status_code rep) (text rep)))
  else ret rep.

(** ** Retry policy

    The arguments of tenacity's [retry] that decide what the caller sees.
    The waits between attempts are real time and are not modelled. *)
Record Retrying := {
  stop_after_attempt : nat;
  retry_if_exception_type : exn -> bool;
  reraise : bool
}.

(** tenacity's loop.  An attempt that returns ends it.  An exception the
    predicate rejects is raised as it is.  Otherwise, when the stop
    condition holds ([left] counts the attempts still allowed), the loop
    raises the last exception itself under [reraise] and a [RetryError]
    holding it otherwise. *)
Fixpoint retry_loop {A} (r : Retrying) (fn : nat -> M A) (left attempt : nat) : M A :=
  fun st =>
    match fn attempt st with
    | (Ok a, st') => (Ok a, st')
    | (Raise e, st') =>
        if negb (retry_if_exception_type r e) then (Raise e, st')
        else
          match left with
          | O => (Raise (if reraise r then e else RetryError e), st')
          | S left' => retry_loop r fn left' (S attempt) st'
          end
    end.

Definition retry {A} (r : Retrying) (fn : nat -> M A) : M A :=
  retry_loop r fn (stop_after_attempt r - 1) 1.

Definition is_server_error (e : exn) : bool :=
  match e with
  | SyconApiServerErrorResponseException _ => true
  | _ => false
  end.

(** [@retry(stop=stop_after_attempt(3), wait=..., retry=retry_if_exception_type(
    SyconApiServerErrorResponseException))]; [reraise] is not passed and
    keeps tenacity's default. *)
Definition transport_retry : Retrying :=
  {| stop_after_attempt := 3;
     retry_if_exception_type := is_server_error;
     reraise := false |}.

Definition _get_request (hdrs : gmap string string) (url : string)
    (args : option (gmap string param)) : M Response :=
  retry transport_retry (fun n => _get_request_wrapped n hdrs url args).

Definition _post_request (hdrs : gmap string string) (url : string)
    (data : option value) : M Response :=
  retry transport_retry (fun n => _post_request_wrapped n hdrs url data).

(** ** Session manager *)

(** [f"{token}"] of an [Optional[str]] *)
Definition fstr (token : option string) : string := default "None" token.

Definition _format_header_token (token : option string) (hdrs : gmap string string)
    : gmap string string :=
  <["Authorization" := "Bearer " +:+ fstr token]> hdrs.

Definition _format_header_content_type_json (hdrs : gmap string string)
    : gmap string string :=
  <["Content-type" := "application/json"]> hdrs.

Definition authenticate : M unit :=
  me <- get_self ;;
  let url := _server me +:+ SyconApiV1Route.LOGIN in
  let body := PyDict [("username", PyStr (_username me));
                      ("password", PyStr (_password me))] in
  let hdrs := _format_header_content_type_json ∅ in
  response <- _post_request hdrs url (Some body) ;;
  if status_code response =? 200
  then assign_token (headers response !! "Authorization")
  else ret tt.

Definition renew_token : M unit :=
  me <- get_self ;;
  let url := _server me +:+ SyconApiV1Route.RENEW in
  let hdrs := _format_header_token (_token me) ∅ in
  response <- _get_request hdrs url None ;;
  if status_code response =? 200 then
    match headers response !! "Authorization" with
    | None =>
        raise (SyconApiBadResponseException
                 (Text "Authorization token not in received response"))
    | Some _ => assign_token (headers response !! "Authorization")
    end
  else ret tt.

Definition check_token : M bool :=
  me <- get_self ;;
  let url := _server me +:+ SyconApiV1Route.CHECK in
  let hdrs := _format_header_token (_token me) ∅ in
  response <- _get_request hdrs url None ;;
  ret (status_code response =? 200).

Definition _manage_token : M unit :=
  me <- get_self ;;
  match _token me with
  | Some _ =>
      valid <- check_token ;;
      if negb valid then renew_token else ret tt
  | None => authenticate
  end.

Definition get_devices_list : M value :=
  me <- get_self ;;
  let url := _server me +:+ SyconApiV1Route.DEVICES in
  _manage_token ;;
  me <- get_self ;;
  let hdrs := _format_header_token (_token me) ∅ in
  response <- _get_request hdrs url None ;;
  if status_code response =? 200 then
    match json response with
    | Some v => ret v
    | None =>
        raise (SyconApiBadResponseException
                 (Text ("Invalid response received from server for request " +:+ url)))
    end
  else ret PyNone.

(** ** Result cache: [functools.lru_cache(maxsize)] *)

Section LruCache.
Context {K V : Type} `{EqDecision K}.

Definition lru_find (key : K) (c : lru K V) : option V :=
  snd <$> List.find (fun kv => bool_decide (fst kv = key)) c.

(** A hit moves the entry to the front. *)
Definition lru_touch (key : K) (v : V) (c : lru K V) : lru K V :=
  (key, v) :: List.filter (fun kv => negb (bool_decide (fst kv = key))) c.

(** After a miss: nothing when the key got in meanwhile, otherwise the
    entry goes to the front, in place of the oldest one when the store is
    full. *)
Definition lru_store (maxsize : nat) (key : K) (v : V) (c : lru K V) : lru K V :=
  match lru_find key c with
  | Some _ => c
  | None =>
      if (maxsize <=? length c)%nat then (key, v) :: removelast c
      else (key, v) :: c
  end.

(** The wrapper.  An exception of the wrapped function passes through and
    nothing is stored. *)
Definition lru_cache (maxsize : nat) (get : state -> lru K V)
    (set : lru K V -> state -> state) (key : K) (user_function : M V) : M V :=
  fun st =>
    match lru_find key (get st) with
    | Some v => (Ok v, set (lru_touch key v (get st)) st)
    | None =>
        match user_function st with
        | (Ok v, st') => (Ok v, set (lru_store maxsize key v (get st')) st')
        | (Raise e, st') => (Raise e, st')
        end
    end.
End LruCache.

(** ** Query dispatcher *)

(** [body = response.json()], or [response.text] on [ValueError] *)
Definition body_of (response : Response) : value :=
  match json response with
  | Some v => v
  | None => PyStr (text response)
  end.

Definition validate_query (q : query) : M unit :=
  lift (_raise_on_threshold_presence (head_limit q) (tail_limit q)) ;;
  lift (_raise_on_date_ISO_8601_bad_format (start_date q)) ;;
  lift (_raise_on_date_ISO_8601_bad_format (end_date q)).

Definition query_args (q : query) : gmap string param :=
  _fill_get_data_args ∅ (start_date q) (end_date q) (head_limit q) (tail_limit q)
    (external_sensor_id q).

(** The undecorated method ([get_data_from_device.__wrapped__]). *)
Definition get_data_from_device_wrapped (device_id : string) (q : query) : M value :=
  validate_query q ;;
  let args := query_args q in
  _manage_token ;;
  me <- get_self ;;
  let hdrs := _format_header_token (_token me) ∅ in
  let url := _server me +:+ SyconApiV1Route.DATA device_id (field_value (field q)) in
  response <- _get_request hdrs url (Some args) ;;
  let body := body_of response in
  ret (match body with PyDict _ => body | _ => PyNone end).

Definition get_data_from_device (device_id : string) (q : query) : M value :=
  me <- get_self ;;
  lru_cache 10 device_cache set_device_cache (obj_id me, device_id, q)
    (get_data_from_device_wrapped device_id q).

(** The [for device_id in devices_id] loop; [data] is the dict being filled. *)
Fixpoint devices_loop (devices_id : list string) (q : query)
    (args : gmap string param) (data : gmap string value) : M (gmap string value) :=
  match devices_id with
  | [] => ret data
  | device_id :: rest =>
      me <- get_self ;;
      let hdrs := _format_header_token (_token me) ∅ in
      let url := _server me +:+ SyconApiV1Route.DATA device_id (field_value (field q)) in
      response <- _get_request hdrs url (Some args) ;;
      let body := body_of response in
      devices_loop rest q args (<[device_id := body]> data)
  end.

Definition get_data_from_devices_wrapped (devices_id : list string) (q : query)
    : M (gmap string value) :=
  validate_query q ;;
  let args := query_args q in
  _manage_token ;;
  devices_loop devices_id q args ∅.

Definition get_data_from_devices (devices_id : list string) (q : query)
    : M (gmap string value) :=
  me <- get_self ;;
  lru_cache 10 devices_cache set_devices_cache (obj_id me, devices_id, q)
    (get_data_from_devices_wrapped devices_id q).

Section Builtins.
(** [str(x)], which is also what [format] puts in a [{}] hole: a builtin
    of the language, taken as it is. *)
Variable py_str : value -> string.

(** The [for device in devices] loop. *)
Fixpoint all_devices_loop (devices : list value) (q : query)
    (args : gmap string param) (data : gmap string value) : M (gmap string value) :=
  match devices with
  | [] => ret data
  | device :: rest =>
      has_id <- lift (py_in "id" device) ;;
      if negb has_id then all_devices_loop rest q args data
      else
        device_id <- lift (py_get "id" device) ;;
        me <- get_self ;;
        let hdrs := _format_header_token (_token me) ∅ in
        let url := _server me +:+
                   SyconApiV1Route.DATA (py_str device_id) (field_value (field q)) in
        response <- _get_request hdrs url (Some args) ;;
        let body := body_of response in
        all_devices_loop rest q args (<[py_str device_id := body]> data)
  end.

(** What the method does before its loop: validation, token management
    and the device listing. *)
Definition list_for_all_devices (q : query) : M value :=
  validate_query q ;;
  _manage_token ;;
  get_devices_list.

Definition get_data_from_all_devices_wrapped (q : query) : M (gmap string value) :=
  devices <- list_for_all_devices q ;;
  let args := query_args q in
  items <- lift (py_iter devices) ;;
  all_devices_loop items q args ∅.

Definition get_data_from_all_devices (q : query) : M (gmap string value) :=
  me <- get_self ;;
  lru_cache 10 all_devices_cache set_all_devices_cache (obj_id me, q)
    (get_data_from_all_devices_wrapped q).
End Builtins.

(** ** The instant form, as the documentation words it

    [YYYY-MM-DDTHH:MM:SS[.fraction]Z]: digit groups of fixed length between
    the literal separators, an optional fraction made of a dot and at least
    one digit, and a final [Z].  The digits are those of ISO 8601, [0] to
    [9].  Stated on the text itself, without the matcher. *)

Definition iso_digit (c : ascii) : bool :=
  ((48 <=? nat_of_ascii c) && (nat_of_ascii c <=? 57))%nat.

Fixpoint all_iso_digits (w : string) : bool :=
  match w with
  | String c w' => iso_digit c && all_iso_digits w'
  | EmptyString => true
  end.

Definition digits (n : nat) (w : string) : Prop :=
  String.length w = n /\ all_iso_digits w = true.

Definition fraction_part (w : string) : Prop :=
  w = "" \/ exists f, w = "." +:+ f /\ f <> "" /\ all_iso_digits f = true.

Definition iso_instant_form (s : string) : Prop :=
  exists YYYY MM DD hh mm ss fraction,
    s = YYYY +:+ "-" +:+ MM +:+ "-" +:+ DD +:+ "T" +:+
        hh +:+ ":" +:+ mm +:+ ":" +:+ ss +:+ fraction +:+ "Z" /\
    digits 4 YYYY /\ digits 2 MM /\ digits 2 DD /\
    digits 2 hh /\ digits 2 mm /\ digits 2 ss /\
    fraction_part fraction.

(** A text of ASCII characters only. *)
Definition ascii_only (s : string) : Prop :=
  Forall (fun b => (b < 128)%N) (bytes s).

(** ** What the pattern accepts *)

Definition all_ok (a : atom) (w : list N) : bool := forallb (atom_ok a) w.

(** What a pattern consumes: [den r pos w rest] says that [r] can match the
    code points [w] starting at position [pos] when [rest] follows. *)
Fixpoint den (r : regex) (pos : nat) (w rest : list N) : Prop :=
  match r with
  | Bol => w = [] /\ pos = 0%nat
  | Eol => w = [] /\ (rest = [] \/ rest = [newline])
  | One a => length w = 1%nat /\ all_ok a w = true
  | Rep n a => length w = n /\ all_ok a w = true
  | Plus a => w <> [] /\ all_ok a w = true
  | Seq r1 r2 =>
      exists w1 w2, w = w1 ++ w2 /\
        den r1 pos w1 (w2 ++ rest) /\
        den r2 (pos + length w1)%nat w2 rest
  | Opt r' => w = [] \/ den r' pos w rest
  end.

(** The instant form with the digits the pattern takes: the same groups
    and separators, each digit any Unicode decimal digit. *)
Definition lit (c : ascii) : list N := [N_of_ascii c].

Definition decimals (n : nat) (w : list N) : Prop :=
  length w = n /\ forallb is_digit w = true.

Definition decimal_fraction (w : list N) : Prop :=
  w = [] \/ exists f, w = lit "." ++ f /\ f <> [] /\ forallb is_digit f = true.

Definition decimal_instant_form (t : list N) : Prop :=
  exists YYYY MM DD hh mm ss fraction,
    t = YYYY ++ lit "-" ++ MM ++ lit "-" ++ DD ++ lit "T" ++
        hh ++ lit ":" ++ mm ++ lit ":" ++ ss ++ fraction ++ lit "Z" /\
    decimals 4 YYYY /\ decimals 2 MM /\ decimals 2 DD /\
    decimals 2 hh /\ decimals 2 mm /\ decimals 2 ss /\
    decimal_fraction fraction.

(** A text whose code points have that form. *)
Definition accepted_instant (s : string) : Prop :=
  exists t, code_points s = Some t /\ decimal_instant_form t.

(** A text ending in a [+HH:MM] offset. *)
Definition with_offset (prefix : string) (h1 h2 m1 m2 : ascii) : string :=
  prefix +:+ String "+" (String h1 (String h2 (String ":" (String m1 (String m2 ""))))).

Fixpoint has_char (c : ascii) (w : string) : bool :=
  match w with
  | String c' w' => Ascii.eqb c' c || has_char c w'
  | EmptyString => false
  end.

(** ** Vocabulary for the statements *)

(** The request [_get_request] puts on the wire. *)
Definition get_request_of (hdrs : gmap string string) (url : string)
    (args : option (gmap string param)) : request :=
  {| req_method := GET; req_url := url; req_headers := hdrs;
     req_params := args; req_data := None; req_timeout := 30 |}.

(** [k] attempts of one request, numbered from 1. *)
Definition attempts_of (k : nat) (req : request) : list attempt :=
  List.map (fun i => {| attempt_number := i; attempt_request := req |}) (seq 1 k).

(** The state after the calls [l] went on the wire. *)
Definition logged (l : list attempt) (st : state) : state :=
  set_sent (sent st ++ l) st.

Definition server_error (rep : Response) : bool :=
  (500 <=? status_code rep) && (status_code rep <? 600).

Definition client_error (rep : Response) : bool :=
  (400 <=? status_code rep) && (status_code rep <? 500).

(** The requests a caller asked for: the first attempt of each. *)
Definition requested (l : list attempt) : list request :=
  attempt_request <$> List.filter (fun a => (attempt_number a =? 1)%nat) l.

(** The request [_post_request] puts on the wire. *)
Definition post_request_of (hdrs : gmap string string) (url : string)
    (data : option value) : request :=
  {| req_method := POST; req_url := url; req_headers := hdrs;
     req_params := None; req_data := data; req_timeout := 30 |}.

(** What one attempt makes of the answer it gets. *)
Definition settle (a : reply) : outcome Response :=
  match a with
  | Failure reason => Raise (RequestException reason)
  | Reply rep =>
      if server_error rep then
        Raise (SyconApiServerErrorResponseException
                 (StatusText (status_code rep) (text rep)))
      else if client_error rep then
        Raise (SyconApiBadResponseException
                 (StatusText (status_code rep) (text rep)))
      else Ok rep
  end.

(** The outcomes tenacity tries again. *)
Definition retried (o : outcome Response) : bool :=
  match o with
  | Raise e => is_server_error e
  | Ok _ => false
  end.

(** The decorated transport in closed form, by the answers to the (at most)
    three attempts that follow the calls already made. *)
Definition transport_closed (req : request) (st : state) : outcome Response * state :=
  let n := length (sent st) in
  let o1 := settle (cloud st n req) in
  let o2 := settle (cloud st (n + 1)%nat req) in
  let o3 := settle (cloud st (n + 2)%nat req) in
  if negb (retried o1) then (o1, logged (attempts_of 1 req) st)
  else if negb (retried o2) then (o2, logged (attempts_of 2 req) st)
  else (match o3 with
        | Raise e => if is_server_error e then Raise (RetryError e) else o3
        | Ok _ => o3
        end, logged (attempts_of 3 req) st).

(** The requests of the session manager and of the dispatcher, as the
    client [me] builds them. *)
Definition login_request (me : SyconApi) : request :=
  post_request_of (_format_header_content_type_json ∅)
    (_server me +:+ SyconApiV1Route.LOGIN)
    (Some (PyDict [("username", PyStr (_username me));
                   ("password", PyStr (_password me))])).

Definition renew_request (me : SyconApi) : request :=
  get_request_of (_format_header_token (_token me) ∅)
    (_server me +:+ SyconApiV1Route.RENEW) None.

Definition check_request (me : SyconApi) : request :=
  get_request_of (_format_header_token (_token me) ∅)
    (_server me +:+ SyconApiV1Route.CHECK) None.

Definition devices_request (me : SyconApi) : request :=
  get_request_of (_format_header_token (_token me) ∅)
    (_server me +:+ SyconApiV1Route.DEVICES) None.

Definition data_request (me : SyconApi) (device_id : string) (q : query) : request :=
  get_request_of (_format_header_token (_token me) ∅)
    (_server me +:+ SyconApiV1Route.DATA device_id (field_value (field q)))
    (Some (query_args q)).

(** The value of a header in every call of a list. *)
Definition header_of (name : string) (l : list attempt) : list (option string) :=
  (fun a => req_headers (attempt_request a) !! name) <$> l.

(** [st'] differs from [st] at most by the token and by further calls on
    the wire: what the session manager and the transport may do. *)
Record session_step (st st' : state) : Prop := {
  step_cloud : cloud st' = cloud st;
  step_device_cache : device_cache st' = device_cache st;
  step_devices_cache : devices_cache st' = devices_cache st;
  step_all_devices_cache : all_devices_cache st' = all_devices_cache st;
  step_obj_id : obj_id (self st') = obj_id (self st);
  step_username : _username (self st') = _username (self st);
  step_password : _password (self st') = _password (self st);
  step_server : _server (self st') = _server (self st);
  step_sent : exists l, sent st' = sent st ++ l
}.

Definition session_only {A} (m : M A) : Prop :=
  forall st, session_step st (snd (m st)).

(** The three checks of the data methods, in their order. *)
Definition check_query (q : query) : outcome unit :=
  match _raise_on_threshold_presence (head_limit q) (tail_limit q) with
  | Raise e => Raise e
  | Ok _ =>
      match _raise_on_date_ISO_8601_bad_format (start_date q) with
      | Raise e => Raise e
      | Ok _ => _raise_on_date_ISO_8601_bad_format (end_date q)
      end
  end.

(** [body if isinstance(body, Dict) else None] *)
Definition dict_or_none (body : value) : value :=
  match body with
  | PyDict _ => body
  | _ => PyNone
  end.

(** Every entry of a store has a key that satisfies [P]. *)
Definition keys_ok {K V} (P : K -> Prop) (c : lru K V) : Prop :=
  Forall (fun kv => P (fst kv)) c.

(** The stores only hold queries that passed validation. *)
Definition caches_valid (st : state) : Prop :=
  keys_ok (fun k => check_query (snd k) = Ok tt) (device_cache st) /\
  keys_ok (fun k => check_query (snd k) = Ok tt) (devices_cache st) /\
  keys_ok (fun k => check_query (snd k) = Ok tt) (all_devices_cache st).

(** Parameters the validator rejects, as the documentation lists them. *)
Definition invalid_parameters (q : query) : Prop :=
  (head_limit q = None /\ tail_limit q = None) \/
  (is_Some (head_limit q) /\ is_Some (tail_limit q)) \/
  ~ iso_instant_form (start_date q) \/
  ~ iso_instant_form (end_date q).

(** Parameters the validator refuses: the same list, with the instants
    taken as the pattern takes them. *)
Definition refused_parameters (q : query) : Prop :=
  (head_limit q = None /\ tail_limit q = None) \/
  (is_Some (head_limit q) /\ is_Some (tail_limit q)) \/
  ~ accepted_instant (start_date q) \/
  ~ accepted_instant (end_date q).

(** The limit a request carries under [name], and the limits the requests
    of a query are to carry: each limit that is set, capped to the batch
    ceiling, and nothing for a limit that is not set. *)
Definition limit_sent (name : string) (r : request) : option param :=
  req_params r ≫= fun args => args !! name.

Definition capped (limit : option Z) : option param :=
  (fun l => PInt (Z.min l 10000)) <$> limit.

Definition carries_limits (q : query) (r : request) : Prop :=
  limit_sent "headLimit" r = capped (head_limit q) /\
  limit_sent "tailLimit" r = capped (tail_limit q).

(** Every call the method puts on the wire with query parameters carries
    the limits of [q]. *)
Definition limits_on_the_wire (q : query) {A} (m : M A) : Prop :=
  forall st, exists l, sent (snd (m st)) = sent st ++ l /\
    Forall (fun a => is_Some (req_params (attempt_request a)) ->
                     carries_limits q (attempt_request a)) l.

Definition validation_failure (e : exn) : Prop :=
  (exists d, e = SyconApiMissingParametersException d) \/
  (exists d, e = SyconApiInvalidParametersException d).

(** Device records and the identifiers they hold. *)
Definition is_record (v : value) : Prop :=
  match v with
  | PyDict _ => True
  | _ => False
  end.

Definition record_id (v : value) : option value :=
  match v with
  | PyDict members => dict_get "id" members
  | _ => None
  end.

Definition present_ids (devices : list value) : list value :=
  omap record_id devices.

(** The service answers every call, and never with a 4xx or a 5xx. *)
Definition answers_without_error (st : state) : Prop :=
  forall n req, exists rep,
    cloud st n req = Reply rep /\ server_error rep = false /\ client_error rep = false.

(** Every call of [l] carries [Authorization: Bearer <t>]. *)
Definition carry (t : option string) (l : list attempt) : Prop :=
  Forall (fun a => req_headers (attempt_request a) !! "Authorization"
                   = Some ("Bearer " +:+ fstr t)) l.

(** ** Concrete services and clients *)

Definition plain (code : Z) (body : string) : Response :=
  {| status_code := code; headers := ∅; text := body; json := None |}.

Definition with_header (name v : string) (rep : Response) : Response :=
  {| status_code := status_code rep; headers := <[name := v]> (headers rep);
     text := text rep; json := json rep |}.

Definition with_json (v : value) (rep : Response) : Response :=
  {| status_code := status_code rep; headers := headers rep;
     text := text rep; json := Some v |}.

(** A service that gives the same answer to every call. *)
Definition always (rep : Response) : nat -> request -> reply :=
  fun _ _ => Reply rep.

Definition client_u : SyconApi := __init__ 1 "u" "p".

(** The service is down: every call gets a 503. *)
Definition down : state := fresh client_u (always (plain 503 "srv error")).

(** A client holding [oldtoken], and a service that rejects every call
    with a 401. *)
Definition rejected : state :=
  fresh (with_token (Some "oldtoken") client_u) (always (plain 401 "unauthorized")).

(** A client holding [oldtoken] logs in again, and the login is answered by
    a 200 that carries no [Authorization] header. *)
Definition login_without_header : state :=
  fresh (with_token (Some "oldtoken") client_u) (always (plain 200 "")).

(** A client holding [oldtoken], and a service that answers every call with
    a 200 carrying [Authorization: Bearer newtoken]. *)
Definition renewing : state :=
  fresh (with_token (Some "oldtoken") client_u)
    (always (with_header "Authorization" "Bearer newtoken" (plain 200 ""))).

(** A query as the tests issue it. *)
Definition q0 : query :=
  {| field := TEMPERATURE_CELSIUS;
     start_date := "2025-10-03T12:30:00.000Z";
     end_date := "2025-10-03T13:30:00.000Z";
     head_limit := Some 1; tail_limit := None; external_sensor_id := None |}.

(** A service that accepts the login and hands out the token [tok], finds
    every token valid, lists [devices], and gives [data_reply] to every
    other call, that is to every data request. *)
Definition service (devices : value) (data_reply : Response) : nat -> request -> reply :=
  fun _ req =>
    if String.eqb (req_url req) "https://cloud.sycon.io/auth/login" then
      Reply (with_header "Authorization" "tok" (plain 200 ""))
    else if String.eqb (req_url req) "https://cloud.sycon.io/auth/check" then
      Reply (plain 200 "")
    else if String.eqb (req_url req) "https://cloud.sycon.io/api/devices" then
      Reply (with_json devices (plain 200 ""))
    else Reply data_reply.

(** The device list of the tests: one record without [id], one with. *)
Definition two_records : list value :=
  [PyDict [("foo", PyStr "bar")]; PyDict [("id", PyStr "d1")]].

(** A new client facing a service whose data endpoint answers
    [{"k": "v"}]. *)
Definition healthy : state :=
  fresh client_u
    (service (PyList two_records) (with_json (PyDict [("k", PyStr "v")]) (plain 200 ""))).

(** A new client facing a service whose data endpoint answers 404. *)
Definition no_such_device : state :=
  fresh client_u (service (PyList two_records) (plain 404 "not found")).

(** A login answered with [Authorization: Bearer abc]. *)
Definition bearer_login : state :=
  fresh client_u (always (with_header "Authorization" "Bearer abc" (plain 200 ""))).

(** The calls of a trace that went to [url]. *)
Definition calls_to (url : string) (l : list attempt) : list attempt :=
  List.filter (fun a => String.eqb (req_url (attempt_request a)) url) l.

(** [str] on strings, integers, [None] and the booleans, to run the
    methods on device lists whose identifiers are of these kinds; the text
    of a float or of a container is not spelled out. *)
Definition str_scalar (v : value) : string :=
  match v with
  | PyStr s => s
  | PyInt z => NilZero.string_of_int (Z.to_int z)
  | PyNone => "None"
  | PyBool true => "True"
  | PyBool false => "False"
  | _ => ""
  end.

(** The states and queries of the runs below. *)
Definition data_url_d1 : string :=
  "https://cloud.sycon.io/api/devices/d1/TEMPERATURE_CELSIUS/data/raw".

Definition no_such_device_once : state :=
  snd (get_data_from_device "d1" q0 no_such_device).

Definition no_such_device_twice : state :=
  snd (get_data_from_device "d1" q0 no_such_device_once).

Definition healthy_once : state :=
  snd (get_data_from_device "d1" q0 healthy).

(** [q0] with a tail limit added to its head limit. *)
Definition q0_both_limits : query :=
  {| field := field q0; start_date := start_date q0; end_date := end_date q0;
     head_limit := head_limit q0; tail_limit := Some 1;
     external_sensor_id := external_sensor_id q0 |}.

(** [q0] without any limit and with a space in its start instant. *)
Definition q0_invalid : query :=
  {| field := field q0; start_date := "2025-10-03 12:30:00";
     end_date := end_date q0; head_limit := None; tail_limit := None;
     external_sensor_id := None |}.

(** The instant 2025-10-03T12:30:00Z written in Arabic-Indic digits
    (U+0660 to U+0669), and [q0] with it as start instant. *)
Definition arabic_indic_instant : string :=
  utf8 [ 0x662; 0x660; 0x662; 0x665; 0x2D; 0x661; 0x660; 0x2D; 0x660; 0x663;
         0x54; 0x661; 0x662; 0x3A; 0x663; 0x660; 0x3A; 0x660; 0x660; 0x5A ]%N.

Definition q0_arabic_indic : query :=
  {| field := field q0; start_date := arabic_indic_instant;
     end_date := end_date q0; head_limit := head_limit q0;
     tail_limit := tail_limit q0; external_sensor_id := external_sensor_id q0 |}.

(** [q0] with a head limit above the batch ceiling. *)
Definition q0_big_limit : query :=
  {| field := field q0; start_date := start_date q0; end_date := end_date q0;
     head_limit := Some 20000; tail_limit := None;
     external_sensor_id := external_sensor_id q0 |}.

(** The service of the multi-device test: the device [a] has the data
    [{"v": 1}], the answer for any other device is the text [raw-b]. *)
Definition service_ab : nat -> request -> reply :=
  fun _ req =>
    if String.eqb (req_url req) "https://cloud.sycon.io/auth/login" then
      Reply (with_header "Authorization" "tok" (plain 200 ""))
    else if String.eqb (req_url req) "https://cloud.sycon.io/auth/check" then
      Reply (plain 200 "")
    else if str_contains "/a/" (req_url req) then
      Reply (with_json (PyDict [("v", PyInt 1)]) (plain 200 ""))
    else Reply (plain 200 "raw-b").

Definition two_devices : state := fresh client_u service_ab.

Definition two_devices_once : state :=
  snd (get_data_from_devices ["a"; "b"] q0 two_devices).

(** ** Further vocabulary *)

(** The exceptions the transport lets out. *)
Definition transport_failure (e : exn) : Prop :=
  (exists d, e = SyconApiBadResponseException d) \/
  (exists d, e = RetryError (SyconApiServerErrorResponseException d)) \/
  (exists reason, e = RequestException reason).

(** A computation after which a client that held a token still holds one. *)
Definition keeps_token {A} (m : M A) : Prop :=
  forall st, is_Some (_token (self st)) -> is_Some (_token (self (snd (m st)))).

(** The same state, facing the service [srv]. *)
Definition with_cloud (srv : nat -> request -> reply) (st : state) : state :=
  {| self := self st; cloud := srv; sent := sent st;
     device_cache := device_cache st; devices_cache := devices_cache st;
     all_devices_cache := all_devices_cache st |}.

(** The values of the single-device store are dicts or [None]. *)
Definition device_values_shaped (st : state) : Prop :=
  Forall (fun kv => dict_or_none (snd kv) = snd kv) (device_cache st).

(** The URLs of the authenticated routes under the base URL [srv]. *)
Definition is_route (srv url : string) : Prop :=
  url = srv +:+ SyconApiV1Route.RENEW \/ url = srv +:+ SyconApiV1Route.CHECK \/
  url = srv +:+ SyconApiV1Route.DEVICES \/
  exists d f, url = srv +:+ SyconApiV1Route.DATA d (field_value f).

(** A call the client [me] may put on the wire: an attempt numbered 1 to 3
    with a time-out of 30, which is either the login (the POST that
    carries the user name and the password) or a GET without a body whose
    only header is [Authorization: Bearer ...] and whose URL is one of the
    authenticated routes of the client's server. *)
Definition wire_ok (me : SyconApi) (a : attempt) : Prop :=
  (1 <= attempt_number a <= 3)%nat /\
  req_timeout (attempt_request a) = 30 /\
  (attempt_request a = login_request me \/
   (req_method (attempt_request a) = GET /\
    req_data (attempt_request a) = None /\
    (exists t, req_headers (attempt_request a) = _format_header_token t ∅) /\
    is_route (_server me) (req_url (attempt_request a)))).

(** The calls [m] adds to the trace from [st] on all obey [wire_ok]. *)
Definition on_the_rules {A} (m : M A) (st : state) : Prop :=
  exists l, sent (snd (m st)) = sent st ++ l /\ Forall (wire_ok (self st)) l.

(** Two client records of one owner: same server, user name and password. *)
Definition same_owner (me0 me : SyconApi) : Prop :=
  _server me = _server me0 /\ _username me = _username me0 /\
  _password me = _password me0.

Definition ruled (me0 : SyconApi) {A} (m : M A) : Prop :=
  forall st, same_owner me0 (self st) ->
    exists l, sent (snd (m st)) = sent st ++ l /\ Forall (wire_ok me0) l.

(** No key occurs twice in a store. *)
Definition keys_distinct {K V} (c : lru K V) : Prop := NoDup (fst <$> c).

(** The three stores hold at most 10 entries each, with distinct keys. *)
Definition caches_wf (st : state) : Prop :=
  ((length (device_cache st) <= 10)%nat /\ keys_distinct (device_cache st)) /\
  ((length (devices_cache st) <= 10)%nat /\ keys_distinct (devices_cache st)) /\
  ((length (all_devices_cache st) <= 10)%nat /\ keys_distinct (all_devices_cache st)).

(** ** The quickstart script

    [examples/python/quickstart.py] reads the token of a login or renewal
    answer with
    [auth.split(" ", 1)[1] if auth.startswith("Bearer ") else auth]. *)

(** [s.split(" ", 1)[1]]: what follows the first space; [None] stands for
    the [IndexError] of a text without a space. *)
Fixpoint after_first_space (s : string) : option string :=
  match s with
  | EmptyString => None
  | String c s' => if Ascii.eqb c " " then Some s' else after_first_space s'
  end.

Definition jwt_of (auth : string) : option string :=
  if String.prefix "Bearer " auth then after_first_space auth else Some auth.

(** The header the script's calls send: [{"Authorization": f"Bearer {jwt}"}]. *)
Definition quickstart_authorization (jwt : string) : string := "Bearer " +:+ jwt.

(** ** Further services and clients *)

(** A client holding [oldtoken]; the token check is answered 204, every
    other call by a 200 carrying [Authorization: newtoken]. *)
Definition stale : state :=
  fresh (with_token (Some "oldtoken") client_u)
    (fun _ req =>
       if String.eqb (req_url req) "https://cloud.sycon.io/auth/check" then
         Reply (plain 204 "")
       else Reply (with_header "Authorization" "newtoken" (plain 200 ""))).

(** A client holding [tok] in front of the service of [healthy]. *)
Definition healthy_logged_in : state :=
  fresh (with_token (Some "tok") client_u)
    (service (PyList two_records) (with_json (PyDict [("k", PyStr "v")]) (plain 200 ""))).

(** The device listing comes wrapped in an object, [{"devices": []}]. *)
Definition listing_as_object : state :=
  fresh client_u (service (PyDict [("devices", PyList [])]) (plain 200 "")).

(** Every call is answered 204, without a body. *)
Definition no_content : state := fresh client_u (always (plain 204 "")).

(** The device listing is answered by a 200 whose body is no JSON. *)
Definition listing_not_json : state :=
  fresh (with_token (Some "tok") client_u) (always (plain 200 "<html>")).

Definition two_devices_logged_in : state := snd (_manage_token two_devices).

(** [q0] with another head limit, and the client of [healthy] after it
    asked for the device [d1] with each head limit of a list in turn. *)
Definition q_head (h : Z) : query :=
  {| field := field q0; start_date := start_date q0; end_date := end_date q0;
     head_limit := Some h; tail_limit := None;
     external_sensor_id := external_sensor_id q0 |}.

Definition healthy_after (hs : list Z) : state :=
  fold_left (fun st h => snd (get_data_from_device "d1" (q_head h) st)) hs healthy.

Definition healthy_full : state := healthy_after [1; 2; 3; 4; 5; 6; 7; 8; 9; 10].

(** * Properties *)

(** ** Texts *)

Lemma append_assoc (u v w : string) : (u +:+ v) +:+ w = u +:+ (v +:+ w).
Proof. induction u as [|c u IH]; simpl; [done|]. by rewrite IH. Qed.

Lemma append_length (u v : string) :
  String.length (u +:+ v) = (String.length u + String.length v)%nat.
Proof. induction u as [|c u IH]; simpl; [done|]. by rewrite IH. Qed.

Lemma append_nil_r (u : string) : u +:+ "" = u.
Proof. induction u as [|c u IH]; simpl; [done|]. by rewrite IH. Qed.

Lemma has_char_append (c : ascii) (u v : string) :
  has_char c (u +:+ v) = has_char c u || has_char c v.
Proof. induction u as [|c' u IH]; simpl; [done|]. by rewrite IH, orb_assoc. Qed.

Lemma bytes_append (u v : string) : bytes (u +:+ v) = bytes u ++ bytes v.
Proof. induction u as [|c u IH]; simpl; [done|]. by rewrite IH. Qed.

Lemma bytes_length (u : string) : length (bytes u) = String.length u.
Proof. induction u as [|c u IH]; simpl; [done|]. by rewrite IH. Qed.

(** An ASCII text is its own code points. *)
Lemma code_points_ascii (s : string) :
  ascii_only s -> code_points s = Some (bytes s).
Proof.
  unfold code_points, ascii_only. induction s as [|b s IH]; simpl; [done|].
  intros H. apply Forall_cons in H as [Hb Hs].
  apply N.ltb_lt in Hb. change 128%N with 0x80%N in Hb. rewrite Hb.
  by rewrite (IH Hs).
Qed.

(** A plus sign among the bytes of a text is one of its characters. *)
Lemma code_points_from_plus (s : string) :
  forall pending acc low t,
    code_points_from pending acc low s = Some t ->
    has_char "+" s = true -> N_of_ascii "+" ∈ t.
Proof.
  induction s as [|b s IH]; intros pending acc low t; simpl; [done|].
  destruct (Ascii.eqb_spec b "+") as [->|Hne]; simpl.
  - destruct pending as [|p]; simpl; [|done].
    destruct (code_points_from 0 0 0 s) as [t'|]; simpl; [|done].
    intros [= <-] _. apply list_elem_of_here.
  - intros Ht Hs.
    assert (forall p a l t', code_points_from p a l s = Some t' ->
                             N_of_ascii "+" ∈ t') as IH' by eauto.
    destruct pending as [|p].
    + repeat match type of Ht with
             | (if ?c then _ else _) = _ => destruct c
             end; try done; [|by eapply IH'..].
      destruct (code_points_from 0 0 0 s) as [t'|] eqn:E; simpl in Ht; [|done].
      injection Ht as <-. apply list_elem_of_further. by eapply IH'.
    + destruct (_ && _); [|done]. destruct p as [|p]; [|by eapply IH'].
      destruct (_ && _); [|done].
      destruct (code_points_from 0 0 0 s) as [t'|] eqn:E; simpl in Ht; [|done].
      injection Ht as <-. apply list_elem_of_further. by eapply IH'.
Qed.

(** ** The digit table *)

Lemma is_digit_ascii (c : N) :
  (c < 128)%N -> is_digit c = true <-> (48 <= c <= 57)%N.
Proof.
  intros Hc. unfold is_digit, decimal_digits. simpl. split.
  - intros H.
    repeat match type of H with
           | (_ || _) = true => apply orb_true_iff in H as [H|H]
           | (_ && _) = true => apply andb_true_iff in H as [H ?]
           end;
      repeat match goal with
             | H : (_ <=? _)%N = true |- _ => apply N.leb_le in H
             end; try lia; done.
  - intros [H1 H2]. apply N.leb_le in H1, H2. by rewrite H1, H2.
Qed.

Lemma is_digit_iso_digit (c : ascii) : is_digit (N_of_ascii c) = iso_digit c.
Proof.
  destruct (is_digit (N_of_ascii c)) eqn:E.
  - destruct c as [[] [] [] [] [] [] [] []]; vm_compute in E |- *; congruence.
  - destruct c as [[] [] [] [] [] [] [] []]; vm_compute in E |- *; congruence.
Qed.

(** ** The matcher against what a pattern denotes *)

Lemma rep_match_spec (a : atom) (n : nat) :
  forall pos s k,
    rep_match a n pos s k = true <->
    exists w rest, s = w ++ rest /\ length w = n /\
                   all_ok a w = true /\ k (pos + n)%nat rest = true.
Proof.
  unfold all_ok. induction n as [|n IH]; intros pos s k; simpl.
  - rewrite Nat.add_0_r. split.
    + intros Hk. by exists [], s.
    + intros (w & rest & -> & Hl & _ & Hk). by destruct w.
  - destruct s as [|c s].
    + split; [done|]. intros (w & rest & Heq & Hl & _). by destruct w.
    + rewrite andb_true_iff, IH. split.
      * intros (Hc & w & rest & -> & Hl & Hw & Hk).
        exists (c :: w), rest. simpl. rewrite Hc, Hw, Hl.
        by replace (pos + S n)%nat with (S pos + n)%nat by lia.
      * intros (w & rest & Heq & Hl & Hw & Hk).
        destruct w as [|c' w]; [done|]. simpl in *.
        injection Heq as -> ->. apply andb_true_iff in Hw as [Hc Hw].
        split; [done|]. exists w, rest.
        rewrite Nat.add_succ_r in Hk.
        split; [done|]. split; [lia|]. by split.
Qed.

Lemma star_match_spec (a : atom) :
  forall s pos k,
    star_match a pos s k = true <->
    exists w rest, s = w ++ rest /\ all_ok a w = true /\
                   k (pos + length w)%nat rest = true.
Proof.
  unfold all_ok. induction s as [|c s IH]; intros pos k; simpl.
  - split.
    + intros Hk. exists [], []. simpl. by rewrite Nat.add_0_r.
    + intros (w & rest & Heq & _ & Hk). destruct w; [|done].
      simpl in *. subst rest. by rewrite Nat.add_0_r in Hk.
  - rewrite orb_true_iff, andb_true_iff, IH. split.
    + intros [(Hc & w & rest & -> & Hw & Hk)|Hk].
      * exists (c :: w), rest. simpl. rewrite Hc, Hw.
        by replace (pos + S (length w))%nat
          with (S pos + length w)%nat by lia.
      * exists [], (c :: s). simpl. by rewrite Nat.add_0_r.
    + intros (w & rest & Heq & Hw & Hk). destruct w as [|c' w]; simpl in *.
      * right. subst rest. by rewrite Nat.add_0_r in Hk.
      * left. injection Heq as -> ->. apply andb_true_iff in Hw as [Hc Hw].
        split; [done|]. exists w, rest.
        by rewrite Nat.add_succ_r in Hk.
Qed.

Lemma rmatch_spec (r : regex) :
  forall pos s k,
    rmatch r pos s k = true <->
    exists w rest, s = w ++ rest /\ den r pos w rest /\
                   k (pos + length w)%nat rest = true.
Proof.
  induction r as [| |a|n a|a|r1 IH1 r2 IH2|r IH]; intros pos s k;
    [simpl|simpl| |simpl|simpl|simpl|simpl].
  - rewrite andb_true_iff, Nat.eqb_eq. split.
    + intros [-> Hk]. by exists [], s.
    + intros (w & rest & -> & [-> ->] & Hk). done.
  - split.
    + intros H. exists [], s. simpl. rewrite Nat.add_0_r.
      destruct s as [|c [|c' s]]; [auto| |done].
      apply andb_true_iff in H as [Hc Hk]. apply N.eqb_eq in Hc as ->. auto.
    + intros (w & rest & -> & [-> Hrest] & Hk). simpl in *.
      rewrite Nat.add_0_r in Hk. destruct Hrest as [->| ->]; [done|].
      by rewrite N.eqb_refl.
  - change (rmatch (One a) pos s k) with (rep_match a 1 pos s k).
    rewrite (rep_match_spec a 1). simpl. split.
    + intros (w & rest & -> & Hl & Hw & Hk). exists w, rest. by rewrite Hl.
    + intros (w & rest & -> & [Hl Hw] & Hk). exists w, rest. by rewrite <- Hl.
  - rewrite rep_match_spec. split.
    + intros (w & rest & -> & Hl & Hw & Hk). exists w, rest. by rewrite Hl.
    + intros (w & rest & -> & [Hl Hw] & Hk). exists w, rest. by rewrite <- Hl.
  - destruct s as [|c s].
    + split; [done|]. intros (w & rest & Heq & [Hne _] & _). by destruct w.
    + rewrite andb_true_iff, star_match_spec. unfold all_ok. split.
      * intros (Hc & w & rest & -> & Hw & Hk). exists (c :: w), rest.
        simpl. rewrite Hc, Hw.
        by replace (pos + S (length w))%nat
          with (S pos + length w)%nat by lia.
      * intros (w & rest & Heq & [Hne Hw] & Hk). destruct w as [|c' w]; [done|].
        simpl in *. injection Heq as -> ->. apply andb_true_iff in Hw as [Hc Hw].
        split; [done|]. exists w, rest.
        by rewrite Nat.add_succ_r in Hk.
  - rewrite IH1. split.
    + intros (w1 & rest1 & -> & Hd1 & Hk). apply IH2 in Hk as (w2 & rest & -> & Hd2 & Hk).
      exists (w1 ++ w2), rest. rewrite <- app_assoc, length_app, Nat.add_assoc.
      split; [done|]. split; [|done]. by exists w1, w2.
    + intros (w & rest & -> & (w1 & w2 & -> & Hd1 & Hd2) & Hk).
      exists w1, (w2 ++ rest). rewrite <- app_assoc. split; [done|]. split; [done|].
      apply IH2. exists w2, rest. by rewrite length_app, Nat.add_assoc in Hk.
  - rewrite orb_true_iff, IH. split.
    + intros [(w & rest & -> & Hd & Hk)|Hk].
      * exists w, rest. auto.
      * exists [], s. simpl. rewrite Nat.add_0_r. auto.
    + intros (w & rest & -> & [->|Hd] & Hk).
      * right. simpl in *. by rewrite Nat.add_0_r in Hk.
      * left. by exists w, rest.
Qed.

Lemma one_lit (c : ascii) (w : list N) :
  length w = 1%nat -> all_ok (Lit c) w = true -> w = lit c.
Proof.
  destruct w as [|c' [|c'' w]]; simpl; try done.
  intros _ H. apply andb_true_iff in H as [H _]. by apply N.eqb_eq in H as ->.
Qed.

Ltac take_apart :=
  repeat match goal with
         | H : exists _, _ |- _ => destruct H
         | H : _ /\ _ |- _ => destruct H
         end.

Ltac seq_with w1 :=
  exists w1; eexists; split; [reflexivity|]; split.

(** The pattern, matched to the end, takes exactly the instant form with
    Unicode decimal digits. *)
Lemma rmatch_iso_instant (t : list N) :
  rmatch iso_instant_re 0 t (fun _ rest => match rest with [] => true | _ => false end)
  = true <-> decimal_instant_form t.
Proof.
  rewrite rmatch_spec. split.
  - intros (w & rest & -> & Hd & Hk). destruct rest; [|done]. clear Hk.
    rewrite app_nil_r. unfold iso_instant_re, seq_of in Hd. simpl in Hd.
    take_apart. subst.
    repeat match goal with
           | H : length ?w = 1%nat, H' : all_ok (Lit ?c) ?w = true |- _ =>
               apply (one_lit c w H) in H'; subst w
           end.
    match goal with
    | H : _ \/ (exists _, _) |- _ => rename H into Hfrac
    end.
    match goal with
    | |- decimal_instant_form ([] ++ ?Y ++ lit "-" ++ ?Mo ++ lit "-" ++ ?D ++ lit "T" ++
                               ?h ++ lit ":" ++ ?m ++ lit ":" ++ ?sec ++ ?f ++
                               lit "Z" ++ []) =>
        exists Y, Mo, D, h, m, sec, f
    end.
    rewrite app_nil_r. repeat split; try done.
    destruct Hfrac as [->|Hfrac]; [by left|right].
    take_apart. subst.
    match goal with
    | H : length ?w = 1%nat, H' : all_ok (Lit ?c) ?w = true |- _ =>
        apply (one_lit c w H) in H'; subst w
    end.
    eexists. split; [reflexivity|]. by split.
  - intros (Y & Mo & D & h & m & sec & f & -> & HY & HMo & HD & Hh & Hm & Hsec & Hf).
    eexists; exists []; split; [by rewrite app_nil_r|]. split; [|done].
    unfold iso_instant_re, seq_of. simpl.
    seq_with (@nil N); [done|].
    seq_with Y; [done|]. seq_with (lit "-"); [done|].
    seq_with Mo; [done|]. seq_with (lit "-"); [done|].
    seq_with D; [done|]. seq_with (lit "T"); [done|].
    seq_with h; [done|]. seq_with (lit ":"); [done|].
    seq_with m; [done|]. seq_with (lit ":"); [done|].
    seq_with sec; [done|].
    seq_with f.
    { destruct Hf as [->|(f' & -> & Hne & Hd)]; [by left|right].
      exists (lit "."), f'. by repeat split. }
    exists (lit "Z"), []. by repeat split; auto.
Qed.

Lemma fullmatch_iso_instant (s : string) :
  fullmatch iso_instant_re s = true <-> accepted_instant s.
Proof.
  unfold fullmatch, accepted_instant. destruct (code_points s) as [t|].
  - rewrite rmatch_iso_instant. split; [by exists t|]. by intros (t' & [= <-] & H).
  - split; [done|]. by intros (t' & ? & _).
Qed.

Lemma validator_accepts (s : string) :
  _raise_on_date_ISO_8601_bad_format s = Ok tt <-> accepted_instant s.
Proof.
  rewrite <- fullmatch_iso_instant. unfold _raise_on_date_ISO_8601_bad_format.
  destruct (fullmatch iso_instant_re s); simpl; split; done.
Qed.

Lemma validator_refuses (s : string) :
  ~ accepted_instant s ->
  _raise_on_date_ISO_8601_bad_format s
  = Raise (SyconApiInvalidParametersException (Text date_format_message)).
Proof.
  rewrite <- fullmatch_iso_instant. unfold _raise_on_date_ISO_8601_bad_format.
  by destruct (fullmatch iso_instant_re s).
Qed.

(** ** The instant form of the documentation and what the pattern accepts *)

Lemma bytes_app_inv (s : string) (l1 l2 : list N) :
  bytes s = l1 ++ l2 -> exists s1 s2, s = s1 +:+ s2 /\ bytes s1 = l1 /\ bytes s2 = l2.
Proof.
  revert s. induction l1 as [|c l1 IH]; intros s H.
  - by exists "", s.
  - destruct s as [|b s]; [done|]. simpl in H. injection H as Hb H.
    destruct (IH s H) as (s1 & s2 & -> & H1 & H2).
    exists (String b s1), s2. simpl. by rewrite Hb, H1.
Qed.

Lemma bytes_lit (c : ascii) (w : string) : bytes w = lit c -> w = String c "".
Proof.
  destruct w as [|b [|b' w]]; simpl; try done. intros [= H].
  by rewrite <- (ascii_N_embedding b), H, ascii_N_embedding.
Qed.

Lemma bytes_nil (w : string) : bytes w = [] -> w = "".
Proof. by destruct w. Qed.

(** On bytes the decimal digits are the ten ISO digits. *)
Lemma decimal_bytes (w : string) : forallb is_digit (bytes w) = all_iso_digits w.
Proof. induction w as [|c w IH]; simpl; [done|]. by rewrite is_digit_iso_digit, IH. Qed.

Lemma decimals_bytes (n : nat) (w : string) : decimals n (bytes w) <-> digits n w.
Proof. unfold decimals, digits. by rewrite bytes_length, decimal_bytes. Qed.

Lemma decimal_fraction_bytes (w : string) :
  decimal_fraction (bytes w) <-> fraction_part w.
Proof.
  unfold decimal_fraction, fraction_part. split.
  - intros [H|(f & H & Hne & Hd)]; [left; by apply bytes_nil|right].
    apply bytes_app_inv in H as (s1 & s2 & -> & H1 & <-).
    apply bytes_lit in H1 as ->. exists s2. split; [done|].
    rewrite decimal_bytes in Hd. split; [|done]. by intros ->.
  - intros [->|(f & -> & Hne & Hd)]; [by left|right].
    exists (bytes f). rewrite decimal_bytes. split; [done|]. split; [|done].
    intros H. by apply bytes_nil in H.
Qed.

Lemma decimal_instant_form_bytes (s : string) :
  decimal_instant_form (bytes s) <-> iso_instant_form s.
Proof.
  split.
  - intros (Y & Mo & D & h & m & sec & f & Heq & HY & HMo & HD & Hh & Hm & Hsec & Hf).
    repeat match goal with
           | H : bytes _ = _ ++ _ |- _ =>
               apply bytes_app_inv in H as (? & ? & -> & ? & ?)
           end.
    subst.
    repeat match goal with
           | H : bytes ?w = lit ?c |- _ => apply bytes_lit in H; subst w
           end.
    apply decimals_bytes in HY, HMo, HD, Hh, Hm, Hsec.
    apply decimal_fraction_bytes in Hf.
    by eexists _, _, _, _, _, _, _.
  - intros (Y & Mo & D & h & m & sec & f & -> & HY & HMo & HD & Hh & Hm & Hsec & Hf).
    exists (bytes Y), (bytes Mo), (bytes D), (bytes h), (bytes m), (bytes sec), (bytes f).
    rewrite !bytes_append, !decimals_bytes, decimal_fraction_bytes. done.
Qed.

Lemma ascii_only_append (u v : string) :
  ascii_only (u +:+ v) <-> ascii_only u /\ ascii_only v.
Proof. unfold ascii_only. by rewrite bytes_append, Forall_app. Qed.

Lemma iso_digits_ascii (w : string) : all_iso_digits w = true -> ascii_only w.
Proof.
  unfold ascii_only. induction w as [|c w IH]; simpl; [constructor|].
  intros H. apply andb_true_iff in H as [Hc Hw]. constructor; [|by apply IH].
  unfold iso_digit in Hc. apply andb_true_iff in Hc as [_ Hc].
  apply Nat.leb_le in Hc. rewrite <- (N2Nat.id (N_of_ascii c)).
  change (N.to_nat (N_of_ascii c)) with (nat_of_ascii c). lia.
Qed.

Lemma iso_instant_form_ascii (s : string) : iso_instant_form s -> ascii_only s.
Proof.
  intros (Y & Mo & D & h & m & sec & f & -> & [_ HY] & [_ HMo] & [_ HD] &
          [_ Hh] & [_ Hm] & [_ Hsec] & Hf).
  assert (ascii_only f) as Hf'.
  { destruct Hf as [->|(f' & -> & _ & Hd)]; [constructor|].
    apply ascii_only_append. split; [by repeat constructor|by apply iso_digits_ascii]. }
  repeat (apply ascii_only_append; split);
    try (by apply iso_digits_ascii); try done; by repeat constructor.
Qed.

(** The texts of the documented form are the accepted texts that are
    ASCII. *)
Lemma iso_instant_form_accepted (s : string) :
  iso_instant_form s <-> accepted_instant s /\ ascii_only s.
Proof.
  split.
  - intros H. pose proof (iso_instant_form_ascii s H) as Ha. split; [|done].
    exists (bytes s). split; [by apply code_points_ascii|].
    by apply decimal_instant_form_bytes.
  - intros [(t & Ht & Hf) Ha]. rewrite (code_points_ascii s Ha) in Ht.
    injection Ht as <-. by apply decimal_instant_form_bytes.
Qed.

(** No accepted text holds a plus sign. *)
Lemma decimals_no_plus (w : list N) :
  forallb is_digit w = true -> N_of_ascii "+" ∉ w.
Proof.
  induction w as [|c w IH]; [by intros _ H%elem_of_nil|].
  intros H. apply andb_true_iff in H as [Hc Hw]. intros Hin.
  apply elem_of_cons in Hin as [Heq|Hin]; [|by apply IH].
  rewrite <- Heq in Hc. vm_compute in Hc. done.
Qed.

Lemma decimal_instant_form_no_plus (t : list N) :
  decimal_instant_form t -> N_of_ascii "+" ∉ t.
Proof.
  intros (Y & Mo & D & h & m & sec & f & -> & [_ HY] & [_ HMo] & [_ HD] &
          [_ Hh] & [_ Hm] & [_ Hsec] & Hf).
  assert (N_of_ascii "+" ∉ f) as Hf'.
  { destruct Hf as [->|(f' & -> & _ & Hd)]; [by intros H%elem_of_nil|].
    intros [H|H]%elem_of_app; [|by apply (decimals_no_plus f')].
    apply list_elem_of_singleton in H. vm_compute in H. done. }
  intros H. repeat (apply elem_of_app in H as [H|H]);
    try match goal with
        | Hd : forallb is_digit ?w = true, H : _ ∈ ?w |- _ =>
            exact (decimals_no_plus w Hd H)
        end;
    try done;
    apply list_elem_of_singleton in H; vm_compute in H; done.
Qed.

Lemma offset_refused (s : string) (h1 h2 m1 m2 : ascii) :
  ~ accepted_instant (with_offset s h1 h2 m1 m2).
Proof.
  intros (t & Ht & Hf). apply (decimal_instant_form_no_plus t Hf).
  apply (code_points_from_plus _ _ _ _ _ Ht).
  unfold with_offset. rewrite has_char_append. simpl. by rewrite orb_true_r.
Qed.

Ltac byte_tests :=
  repeat match goal with
         | |- context [(?a <? ?b)%N] =>
             let H := fresh in destruct (N.ltb_spec a b) as [H|H]; try (exfalso; lia)
         | |- context [(?a <=? ?b)%N] =>
             let H := fresh in destruct (N.leb_spec a b) as [H|H]; try (exfalso; lia)
         end.

Lemma code_points_utf8_char (c : N) (s : string) :
  (c < 0x110000)%N -> code_points (utf8_char c +:+ s) = cons c <$> code_points s.
Proof.
  intros Hc. unfold code_points, utf8_char, byte.
  pose proof (N.div_mod' c 0x40) as E1. pose proof (N.mod_lt c 0x40 ltac:(done)) as B1.
  pose proof (N.div_mod' (c / 0x40) 0x40) as E2.
  pose proof (N.mod_lt (c / 0x40) 0x40 ltac:(done)) as B2.
  pose proof (N.div_mod' (c / 0x1000) 0x40) as E3.
  pose proof (N.mod_lt (c / 0x1000) 0x40 ltac:(done)) as B3.
  assert (c / 0x1000 = c / 0x40 / 0x40)%N as D2 by (by rewrite N.Div0.div_div).
  assert (c / 0x40000 = c / 0x1000 / 0x40)%N as D3 by (by rewrite N.Div0.div_div).
  set (q1 := (c / 0x40)%N) in *. set (r1 := (c mod 0x40)%N) in *.
  set (q2 := (c / 0x1000)%N) in *. set (r2 := (q1 mod 0x40)%N) in *.
  set (q3 := (c / 0x40000)%N) in *. set (r3 := (q2 mod 0x40)%N) in *.
  destruct (N.ltb_spec c 0x80) as [H1|H1].
  { simpl. rewrite N_ascii_embedding by lia.
    destruct (N.ltb_spec c 0x80); [done|lia]. }
  destruct (N.ltb_spec c 0x800) as [H2|H2].
  { simpl. rewrite !N_ascii_embedding by lia. byte_tests. simpl.
    f_equal. f_equal. lia. }
  destruct (N.ltb_spec c 0x10000) as [H3|H3].
  { simpl. rewrite !N_ascii_embedding by lia. byte_tests. simpl.
    f_equal. f_equal. lia. }
  simpl. rewrite !N_ascii_embedding by lia. byte_tests. simpl.
  f_equal. f_equal. lia.
Qed.

Lemma code_points_utf8 (t : list N) :
  Forall (fun c => (c < 0x110000)%N) t -> code_points (utf8 t) = Some t.
Proof.
  induction 1 as [|c t Hc _ IH]; [done|].
  simpl. by rewrite code_points_utf8_char, IH.
Qed.

Lemma arabic_indic_instant_not_iso : ~ iso_instant_form arabic_indic_instant.
Proof.
  intros H. apply iso_instant_form_ascii in H. unfold ascii_only in H.
  apply Forall_cons in H as [H _]. vm_compute in H. done.
Qed.

(** C7. Instant validation accepts a text exactly when its code points
    have the form YYYY-MM-DDTHH:MM:SS, an optional fraction and a final
    Z, where a digit is any Unicode decimal digit ([\d] of a [str]
    pattern); it raises InvalidParameters otherwise. So every text of the
    documented ISO form is accepted, and among ASCII texts nothing else:
    the two documented instants pass, the form with a space and every
    text ending in a +HH:MM offset fail. But the instant written in
    Arabic-Indic digits is accepted, and it is not of the ISO form. *)
Theorem instant_validation_exact (s : string) (t : list N) :
  (_raise_on_date_ISO_8601_bad_format s = Ok tt <-> accepted_instant s) /\
  (Forall (fun c => (c < 0x110000)%N) t ->
   (_raise_on_date_ISO_8601_bad_format (utf8 t) = Ok tt <-> decimal_instant_form t)) /\
  (_raise_on_date_ISO_8601_bad_format s = Ok tt \/
   _raise_on_date_ISO_8601_bad_format s
     = Raise (SyconApiInvalidParametersException (Text date_format_message))) /\
  (iso_instant_form s <->
   _raise_on_date_ISO_8601_bad_format s = Ok tt /\ ascii_only s) /\
  _raise_on_date_ISO_8601_bad_format "2025-10-03T12:30:00.000Z" = Ok tt /\
  _raise_on_date_ISO_8601_bad_format "2025-10-03T12:30:00Z" = Ok tt /\
  _raise_on_date_ISO_8601_bad_format "2025-10-03 12:30:00"
    = Raise (SyconApiInvalidParametersException (Text date_format_message)) /\
  (forall h1 h2 m1 m2,
     _raise_on_date_ISO_8601_bad_format (with_offset s h1 h2 m1 m2)
     = Raise (SyconApiInvalidParametersException (Text date_format_message))) /\
  _raise_on_date_ISO_8601_bad_format arabic_indic_instant = Ok tt /\
  ~ iso_instant_form arabic_indic_instant.
Proof.
  split; [apply validator_accepts|]. split.
  { intros Ht. rewrite validator_accepts. unfold accepted_instant.
    rewrite (code_points_utf8 t Ht). split; [by intros (t' & [= <-] & H)|by exists t]. }
  split.
  { unfold _raise_on_date_ISO_8601_bad_format.
    destruct (fullmatch iso_instant_re s); simpl; auto. }
  split; [by rewrite validator_accepts; apply iso_instant_form_accepted|].
  do 3 (split; [vm_compute; reflexivity|]).
  split; [intros h1 h2 m1 m2; apply validator_refuses, offset_refused|].
  split; [vm_compute; reflexivity|apply arabic_indic_instant_not_iso].
Qed.

(** ** Transport and retry policy *)

Lemma logged_logged (l1 l2 : list attempt) (st : state) :
  logged l2 (logged l1 st) = logged (l1 ++ l2) st.
Proof. unfold logged, set_sent. simpl. by rewrite app_assoc. Qed.

Lemma sent_logged (l : list attempt) (st : state) : sent (logged l st) = sent st ++ l.
Proof. done. Qed.

Lemma cloud_logged (l : list attempt) (st : state) : cloud (logged l st) = cloud st.
Proof. done. Qed.

Lemma self_logged (l : list attempt) (st : state) : self (logged l st) = self st.
Proof. done. Qed.

(** One attempt of the undecorated functions, by the answer it gets. *)
Lemma _get_request_wrapped_eq (n : nat) hdrs url args (st : state) :
  _get_request_wrapped n hdrs url args st =
  (settle (cloud st (length (sent st)) (get_request_of hdrs url args)),
   logged [{| attempt_number := n;
              attempt_request := get_request_of hdrs url args |}] st).
Proof.
  unfold _get_request_wrapped, bind, requests_get, on_the_wire, get_request_of,
    settle, server_error, client_error, raise, ret, logged.
  destruct (cloud st _ _) as [rep|reason]; [|done].
  destruct (_ && _); [done|]. by destruct (_ && _).
Qed.

Lemma _post_request_wrapped_eq (n : nat) hdrs url data (st : state) :
  _post_request_wrapped n hdrs url data st =
  (settle (cloud st (length (sent st)) (post_request_of hdrs url data)),
   logged [{| attempt_number := n;
              attempt_request := post_request_of hdrs url data |}] st).
Proof.
  unfold _post_request_wrapped, bind, requests_post, on_the_wire, post_request_of,
    settle, server_error, client_error, raise, ret, logged.
  destruct (cloud st _ _) as [rep|reason]; [|done].
  destruct (_ && _); [done|]. by destruct (_ && _).
Qed.

Section RetryClosed.
Variables (fn : nat -> M Response) (req : request).
Hypothesis fn_eq : forall n st,
  fn n st = (settle (cloud st (length (sent st)) req),
             logged [{| attempt_number := n; attempt_request := req |}] st).

Lemma retry_transport_closed (st : state) :
  retry transport_retry fn st = transport_closed req st.
Proof.
  unfold retry, transport_retry, transport_closed. simpl.
  rewrite fn_eq. destruct (settle (cloud st _ req)) as [r1|e1] eqn:E1; simpl; [done|].
  destruct (is_server_error e1); simpl; [|done].
  rewrite fn_eq, cloud_logged, sent_logged, length_app. simpl.
  destruct (settle (cloud st (_ + 1)%nat req)) as [r2|e2] eqn:E2; simpl;
    [by rewrite logged_logged|].
  destruct (is_server_error e2); simpl; [|by rewrite logged_logged].
  rewrite fn_eq, cloud_logged, !sent_logged, !length_app. simpl.
  replace (length (sent st) + 1 + 1)%nat with (length (sent st) + 2)%nat by lia.
  rewrite !logged_logged. simpl.
  destruct (settle (cloud st (_ + 2)%nat req)) as [r3|e3] eqn:E3; simpl; [done|].
  by destruct (is_server_error e3).
Qed.
End RetryClosed.

Lemma _get_request_closed hdrs url args (st : state) :
  _get_request hdrs url args st = transport_closed (get_request_of hdrs url args) st.
Proof.
  unfold _get_request. apply retry_transport_closed. intros. apply _get_request_wrapped_eq.
Qed.

Lemma _post_request_closed hdrs url data (st : state) :
  _post_request hdrs url data st = transport_closed (post_request_of hdrs url data) st.
Proof.
  unfold _post_request. apply retry_transport_closed. intros.
  apply _post_request_wrapped_eq.
Qed.

Lemma server_client_exclusive (rep : Response) :
  server_error rep = true -> client_error rep = false.
Proof.
  unfold server_error, client_error. intros H. apply andb_true_iff in H as [H _].
  apply andb_false_iff. right. lia.
Qed.

Lemma settle_server_error (rep : Response) :
  server_error rep = true ->
  settle (Reply rep) = Raise (SyconApiServerErrorResponseException
                                (StatusText (status_code rep) (text rep))).
Proof. intros H. simpl. by rewrite H. Qed.

Lemma settle_client_error (rep : Response) :
  client_error rep = true ->
  settle (Reply rep) = Raise (SyconApiBadResponseException
                                (StatusText (status_code rep) (text rep))).
Proof.
  intros H. simpl. rewrite H.
  destruct (server_error rep) eqn:S; [|done].
  apply server_client_exclusive in S. congruence.
Qed.

Lemma settle_fine (rep : Response) :
  server_error rep = false -> client_error rep = false -> settle (Reply rep) = Ok rep.
Proof. intros H1 H2. simpl. by rewrite H1, H2. Qed.

(** An outcome that is not tried again is the outcome of the first attempt. *)
Lemma transport_closed_first (req : request) (st : state) :
  retried (settle (cloud st (length (sent st)) req)) = false ->
  transport_closed req st =
  (settle (cloud st (length (sent st)) req), logged (attempts_of 1 req) st).
Proof. intros H. unfold transport_closed. by rewrite H. Qed.

Lemma transport_closed_bounded (req : request) (st : state) :
  exists k, (1 <= k <= 3)%nat /\
    snd (transport_closed req st) = logged (attempts_of k req) st.
Proof.
  unfold transport_closed.
  destruct (negb _); [exists 1%nat; split; [lia|done]|].
  destruct (negb _); [exists 2%nat; split; [lia|done]|].
  exists 3%nat; split; [lia|done].
Qed.

Lemma transport_closed_no_server_error (req : request) (st : state) (d : detail) :
  fst (transport_closed req st) <> Raise (SyconApiServerErrorResponseException d).
Proof.
  unfold transport_closed.
  destruct (settle (cloud st _ req)) as [r1|e1]; simpl; [done|].
  destruct (is_server_error e1) eqn:S1; simpl; [|by destruct e1].
  destruct (settle (cloud st (_ + 1)%nat req)) as [r2|e2]; simpl; [done|].
  destruct (is_server_error e2) eqn:S2; simpl; [|by destruct e2].
  destruct (settle (cloud st (_ + 2)%nat req)) as [r3|e3]; simpl; [done|].
  destruct (is_server_error e3) eqn:S3; simpl; [done|by destruct e3].
Qed.

(** The policy, on the closed form. *)
Lemma transport_closed_policy (req : request) (st : state) :
  let n := length (sent st) in
  (forall r1 r2 r3,
     cloud st n req = Reply r1 -> server_error r1 = true ->
     cloud st (n + 1)%nat req = Reply r2 -> server_error r2 = true ->
     cloud st (n + 2)%nat req = Reply r3 -> server_error r3 = true ->
     transport_closed req st =
     (Raise (RetryError (SyconApiServerErrorResponseException
                           (StatusText (status_code r3) (text r3)))),
      logged (attempts_of 3 req) st)) /\
  (forall r1 r2,
     cloud st n req = Reply r1 -> server_error r1 = true ->
     cloud st (n + 1)%nat req = Reply r2 ->
     server_error r2 = false -> client_error r2 = false ->
     transport_closed req st = (Ok r2, logged (attempts_of 2 req) st)) /\
  (forall r1,
     cloud st n req = Reply r1 -> client_error r1 = true ->
     transport_closed req st =
     (Raise (SyconApiBadResponseException (StatusText (status_code r1) (text r1))),
      logged (attempts_of 1 req) st)) /\
  (forall reason,
     cloud st n req = Failure reason ->
     transport_closed req st =
     (Raise (RequestException reason), logged (attempts_of 1 req) st)) /\
  (forall r1,
     cloud st n req = Reply r1 -> server_error r1 = false -> client_error r1 = false ->
     transport_closed req st = (Ok r1, logged (attempts_of 1 req) st)) /\
  (exists k, (1 <= k <= 3)%nat /\
     snd (transport_closed req st) = logged (attempts_of k req) st) /\
  (forall d,
     fst (transport_closed req st) <> Raise (SyconApiServerErrorResponseException d)).
Proof.
  intros n. repeat split.
  - intros r1 r2 r3 E1 S1 E2 S2 E3 S3. unfold transport_closed. fold n.
    rewrite E1, E2, E3, !settle_server_error by done. done.
  - intros r1 r2 E1 S1 E2 S2 C2. unfold transport_closed. fold n.
    rewrite E1, E2, settle_server_error, settle_fine by done. done.
  - intros r1 E1 C1. rewrite transport_closed_first; fold n; rewrite E1;
      by rewrite settle_client_error.
  - intros reason E1. rewrite transport_closed_first; fold n; by rewrite E1.
  - intros r1 E1 S1 C1. rewrite transport_closed_first; fold n; rewrite E1;
      by rewrite settle_fine.
  - apply transport_closed_bounded.
  - intros d. apply transport_closed_no_server_error.
Qed.

(** C2, as the code has it. For the two decorated transport functions: a
    5xx answer is tried again, three attempts at most; when all three get
    a 5xx the caller receives tenacity's RetryError holding the last
    ServerError, never the ServerError itself. A 4xx answer raises
    BadResponse, and a failure of the HTTP library raises as it is, after
    exactly one attempt; an answer without error status is returned by the
    attempt that gets it. *)
Theorem retry_policy (call : M Response) (req : request) (st : state) :
  (exists hdrs url args,
     call = _get_request hdrs url args /\ req = get_request_of hdrs url args) \/
  (exists hdrs url data,
     call = _post_request hdrs url data /\ req = post_request_of hdrs url data) ->
  let n := length (sent st) in
  (forall r1 r2 r3,
     cloud st n req = Reply r1 -> server_error r1 = true ->
     cloud st (n + 1)%nat req = Reply r2 -> server_error r2 = true ->
     cloud st (n + 2)%nat req = Reply r3 -> server_error r3 = true ->
     call st =
     (Raise (RetryError (SyconApiServerErrorResponseException
                           (StatusText (status_code r3) (text r3)))),
      logged (attempts_of 3 req) st)) /\
  (forall r1 r2,
     cloud st n req = Reply r1 -> server_error r1 = true ->
     cloud st (n + 1)%nat req = Reply r2 ->
     server_error r2 = false -> client_error r2 = false ->
     call st = (Ok r2, logged (attempts_of 2 req) st)) /\
  (forall r1,
     cloud st n req = Reply r1 -> client_error r1 = true ->
     call st =
     (Raise (SyconApiBadResponseException (StatusText (status_code r1) (text r1))),
      logged (attempts_of 1 req) st)) /\
  (forall reason,
     cloud st n req = Failure reason ->
     call st = (Raise (RequestException reason), logged (attempts_of 1 req) st)) /\
  (forall r1,
     cloud st n req = Reply r1 -> server_error r1 = false -> client_error r1 = false ->
     call st = (Ok r1, logged (attempts_of 1 req) st)) /\
  (exists k, (1 <= k <= 3)%nat /\
     snd (call st) = logged (attempts_of k req) st) /\
  (forall d, fst (call st) <> Raise (SyconApiServerErrorResponseException d)).
Proof.
  intros [(hdrs & url & args & -> & ->)|(hdrs & url & data & -> & ->)].
  - rewrite _get_request_closed. apply transport_closed_policy.
  - rewrite _post_request_closed. apply transport_closed_policy.
Qed.

(** ** Session manager *)

Lemma check_token_eq (st : state) :
  check_token st =
  match transport_closed (check_request (self st)) st with
  | (Ok rep, st') => (Ok (status_code rep =? 200), st')
  | (Raise e, st') => (Raise e, st')
  end.
Proof.
  unfold check_token, bind, get_self, ret. rewrite _get_request_closed.
  fold (check_request (self st)). by destruct (transport_closed _ st) as [[rep|e] st'].
Qed.

Lemma renew_token_eq (st : state) :
  renew_token st =
  match transport_closed (renew_request (self st)) st with
  | (Ok rep, st') =>
      if status_code rep =? 200 then
        match headers rep !! "Authorization" with
        | None => (Raise (SyconApiBadResponseException
                            (Text "Authorization token not in received response")), st')
        | Some v => (Ok tt, set_self (with_token (Some v) (self st')) st')
        end
      else (Ok tt, st')
  | (Raise e, st') => (Raise e, st')
  end.
Proof.
  unfold renew_token, bind, get_self, ret. rewrite _get_request_closed.
  fold (renew_request (self st)).
  destruct (transport_closed _ st) as [[rep|e] st']; [|done].
  destruct (status_code rep =? 200); [|done].
  unfold raise, assign_token. by destruct (headers rep !! "Authorization") eqn:E.
Qed.

Lemma authenticate_eq (st : state) :
  authenticate st =
  match transport_closed (login_request (self st)) st with
  | (Ok rep, st') =>
      if status_code rep =? 200
      then (Ok tt, set_self (with_token (headers rep !! "Authorization") (self st')) st')
      else (Ok tt, st')
  | (Raise e, st') => (Raise e, st')
  end.
Proof.
  unfold authenticate, bind, get_self, ret. rewrite _post_request_closed.
  fold (login_request (self st)).
  destruct (transport_closed _ st) as [[rep|e] st']; [|done].
  by destruct (status_code rep =? 200).
Qed.

(** C1, on the code. A client holding a token asks the check endpoint and
    gets a 401: [check_token] does not return False, the BadResponse of the
    transport reaches the caller after the one attempt. The same happens
    for every token, client and 401 answer. *)
Theorem check_token_raises_on_401
    (me : SyconApi) (t body : string) (h : gmap string string) (j : option value) :
  check_token rejected =
    (Raise (SyconApiBadResponseException (StatusText 401 "unauthorized")),
     logged (attempts_of 1 (check_request (self rejected))) rejected) /\
  check_token
    (fresh (with_token (Some t) me)
       (always {| status_code := 401; headers := h; text := body; json := j |})) =
    (Raise (SyconApiBadResponseException (StatusText 401 body)),
     logged (attempts_of 1 (check_request (with_token (Some t) me)))
       (fresh (with_token (Some t) me)
          (always {| status_code := 401; headers := h; text := body; json := j |}))).
Proof.
  split; rewrite check_token_eq; by rewrite transport_closed_first.
Qed.

(** C3, on the code. The login is answered by a 200 without an
    Authorization header: [authenticate] returns normally and assigns the
    absent value to the token, in place of the token the client held; the
    next authenticated request is then built with [Bearer None]. *)
Theorem authenticate_stores_absent_token
    (me : SyconApi) (body : string) (j : option value) :
  authenticate login_without_header =
    (Ok tt, set_self (with_token None client_u)
              (logged (attempts_of 1 (login_request client_u)) login_without_header)) /\
  _token (self login_without_header) = Some "oldtoken" /\
  authenticate
    (fresh me (always {| status_code := 200; headers := ∅; text := body; json := j |})) =
    (Ok tt,
     set_self (with_token None me)
       (logged (attempts_of 1 (login_request me))
          (fresh me (always {| status_code := 200; headers := ∅;
                               text := body; json := j |})))) /\
  req_headers (check_request (with_token None me)) !! "Authorization"
    = Some "Bearer None".
Proof.
  split; [|split; [done|split]]; [| |done];
    rewrite authenticate_eq; by rewrite transport_closed_first.
Qed.

(** ** What the methods leave alone *)

Lemma session_step_refl (st : state) : session_step st st.
Proof. split; try done. exists []. by rewrite app_nil_r. Qed.

Lemma session_step_trans (st1 st2 st3 : state) :
  session_step st1 st2 -> session_step st2 st3 -> session_step st1 st3.
Proof.
  intros [] []. split; try congruence.
  destruct step_sent0 as [l1 H1], step_sent1 as [l2 H2].
  exists (l1 ++ l2). by rewrite H2, H1, app_assoc.
Qed.

Lemma session_step_logged (l : list attempt) (st : state) : session_step st (logged l st).
Proof. split; try done. by exists l. Qed.

Lemma session_step_token (t : option string) (st : state) :
  session_step st (set_self (with_token t (self st)) st).
Proof. split; try done. exists []. simpl. by rewrite app_nil_r. Qed.

Create HintDb session.

Lemma session_only_ret {A} (a : A) : session_only (ret a).
Proof. intros st. apply session_step_refl. Qed.

Lemma session_only_raise {A} (e : exn) : session_only (@raise A e).
Proof. intros st. apply session_step_refl. Qed.

Lemma session_only_lift {A} (o : outcome A) : session_only (lift o).
Proof. intros st. apply session_step_refl. Qed.

Lemma session_only_get_self : session_only get_self.
Proof. intros st. apply session_step_refl. Qed.

Lemma session_only_assign_token (t : option string) : session_only (assign_token t).
Proof. intros st. apply session_step_token. Qed.

Lemma session_only_bind {A B} (m : M A) (k : A -> M B) :
  session_only m -> (forall a, session_only (k a)) -> session_only (bind m k).
Proof.
  intros Hm Hk st. unfold bind. specialize (Hm st).
  destruct (m st) as [[a|e] st1]; simpl in *; [|done].
  eapply session_step_trans; [done|apply Hk].
Qed.

Lemma session_only_transport_closed (req : request) :
  session_only (transport_closed req).
Proof.
  intros st. destruct (transport_closed_bounded req st) as (k & _ & ->).
  apply session_step_logged.
Qed.

Lemma session_only__get_request hdrs url args : session_only (_get_request hdrs url args).
Proof. intros st. rewrite _get_request_closed. apply session_only_transport_closed. Qed.

Lemma session_only__post_request hdrs url data : session_only (_post_request hdrs url data).
Proof. intros st. rewrite _post_request_closed. apply session_only_transport_closed. Qed.

#[local] Hint Resolve session_only_ret session_only_raise session_only_lift
  session_only_get_self session_only_assign_token session_only__get_request
  session_only__post_request : session.

Ltac session_steps :=
  repeat first
    [ apply session_only_bind; [|intros ?]
    | match goal with
      | |- session_only (if ?b then _ else _) => destruct b
      | |- session_only (match ?o with Some _ => _ | None => _ end) => destruct o
      end
    | solve [eauto with session] ].

Lemma session_only_authenticate : session_only authenticate.
Proof. unfold authenticate. session_steps. Qed.

Lemma session_only_renew_token : session_only renew_token.
Proof. unfold renew_token. session_steps. Qed.

Lemma session_only_check_token : session_only check_token.
Proof. unfold check_token. session_steps. Qed.

#[local] Hint Resolve session_only_authenticate session_only_renew_token
  session_only_check_token : session.

Lemma session_only__manage_token : session_only _manage_token.
Proof. unfold _manage_token. session_steps. Qed.

#[local] Hint Resolve session_only__manage_token : session.

Lemma session_only_get_devices_list : session_only get_devices_list.
Proof. unfold get_devices_list. session_steps. Qed.

Lemma session_only_validate_query (q : query) : session_only (validate_query q).
Proof. unfold validate_query. session_steps. Qed.

#[local] Hint Resolve session_only_get_devices_list session_only_validate_query : session.

Lemma session_only_get_data_from_device_wrapped (d : string) (q : query) :
  session_only (get_data_from_device_wrapped d q).
Proof. unfold get_data_from_device_wrapped. session_steps. Qed.

Lemma session_only_devices_loop (ds : list string) (q : query) args :
  forall data, session_only (devices_loop ds q args data).
Proof.
  induction ds as [|d ds IH]; intros data; simpl; [eauto with session|].
  session_steps; try apply IH.
Qed.

Lemma session_only_get_data_from_devices_wrapped (ds : list string) (q : query) :
  session_only (get_data_from_devices_wrapped ds q).
Proof.
  unfold get_data_from_devices_wrapped. session_steps; try apply session_only_devices_loop.
Qed.

Lemma session_only_all_devices_loop py_str (devices : list value) (q : query) args :
  forall data, session_only (all_devices_loop py_str devices q args data).
Proof.
  induction devices as [|v devices IH]; intros data; simpl; [eauto with session|].
  session_steps; try apply IH.
Qed.

Lemma session_only_get_data_from_all_devices_wrapped py_str (q : query) :
  session_only (get_data_from_all_devices_wrapped py_str q).
Proof.
  unfold get_data_from_all_devices_wrapped, list_for_all_devices. session_steps;
    try apply session_only_all_devices_loop.
Qed.

(** ** The methods in terms of the transport *)

Lemma validate_query_eq (q : query) (st : state) :
  validate_query q st = (check_query q, st).
Proof.
  unfold validate_query, check_query, bind, lift.
  destruct (_raise_on_threshold_presence _ _) as [[]|e]; [|done].
  destruct (_raise_on_date_ISO_8601_bad_format (start_date q)) as [[]|e]; [|done].
  done.
Qed.

Lemma get_devices_list_eq (st : state) :
  get_devices_list st =
  match _manage_token st with
  | (Ok _, st1) =>
      match transport_closed (devices_request (self st1)) st1 with
      | (Ok rep, st2) =>
          if status_code rep =? 200 then
            match json rep with
            | Some v => (Ok v, st2)
            | None =>
                (Raise (SyconApiBadResponseException
                          (Text ("Invalid response received from server for request "
                                 +:+ _server (self st) +:+ SyconApiV1Route.DEVICES))), st2)
            end
          else (Ok PyNone, st2)
      | (Raise e, st2) => (Raise e, st2)
      end
  | (Raise e, st1) => (Raise e, st1)
  end.
Proof.
  unfold get_devices_list, bind, get_self, ret, raise.
  pose proof (session_only__manage_token st) as Hs.
  destruct (_manage_token st) as [[[]|e] st1]; [|done]. simpl in Hs.
  rewrite _get_request_closed. unfold devices_request. rewrite (step_server _ _ Hs).
  destruct (transport_closed _ st1) as [[rep|e] st2]; [|done].
  destruct (status_code rep =? 200); [|done]. by destruct (json rep).
Qed.

Lemma get_data_from_device_wrapped_eq (d : string) (q : query) (st : state) :
  get_data_from_device_wrapped d q st =
  match check_query q with
  | Raise e => (Raise e, st)
  | Ok _ =>
      match _manage_token st with
      | (Ok _, st1) =>
          match transport_closed (data_request (self st1) d q) st1 with
          | (Ok rep, st2) => (Ok (dict_or_none (body_of rep)), st2)
          | (Raise e, st2) => (Raise e, st2)
          end
      | (Raise e, st1) => (Raise e, st1)
      end
  end.
Proof.
  unfold get_data_from_device_wrapped, bind. rewrite validate_query_eq.
  destruct (check_query q) as [[]|e]; [|done].
  destruct (_manage_token st) as [[[]|e] st1]; [|done].
  unfold get_self, ret. rewrite _get_request_closed. fold (data_request (self st1) d q).
  by destruct (transport_closed _ st1) as [[rep|e] st2].
Qed.

Lemma sent_transport_closed (req : request) (st : state) :
  exists k, (1 <= k <= 3)%nat /\
    sent (snd (transport_closed req st)) = sent st ++ attempts_of k req.
Proof.
  destruct (transport_closed_bounded req st) as (k & Hk & ->). by exists k.
Qed.

Lemma self_transport_closed (req : request) (st : state) :
  self (snd (transport_closed req st)) = self st.
Proof. by destruct (transport_closed_bounded req st) as (k & _ & ->). Qed.

Lemma check_token_sent (st : state) :
  exists k, (1 <= k <= 3)%nat /\
    sent (snd (check_token st)) = sent st ++ attempts_of k (check_request (self st)).
Proof.
  rewrite check_token_eq.
  destruct (sent_transport_closed (check_request (self st)) st) as (k & Hk & H).
  exists k. split; [done|]. by destruct (transport_closed _ st) as [[rep|e] st'].
Qed.

Lemma renew_token_sent (st : state) :
  exists k, (1 <= k <= 3)%nat /\
    sent (snd (renew_token st)) = sent st ++ attempts_of k (renew_request (self st)).
Proof.
  rewrite renew_token_eq.
  destruct (sent_transport_closed (renew_request (self st)) st) as (k & Hk & H).
  exists k. split; [done|]. destruct (transport_closed _ st) as [[rep|e] st']; [|done].
  destruct (status_code rep =? 200); [|done]. by destruct (headers rep !! "Authorization").
Qed.

Lemma get_devices_list_sent (st st1 : state) :
  _manage_token st = (Ok tt, st1) ->
  exists k, (1 <= k <= 3)%nat /\
    sent (snd (get_devices_list st)) = sent st1 ++ attempts_of k (devices_request (self st1)).
Proof.
  intros Hm. rewrite get_devices_list_eq, Hm.
  destruct (sent_transport_closed (devices_request (self st1)) st1) as (k & Hk & H).
  exists k. split; [done|]. destruct (transport_closed _ st1) as [[rep|e] st']; [|done].
  destruct (status_code rep =? 200); [|done]. by destruct (json rep).
Qed.

Lemma get_data_from_device_wrapped_sent (d : string) (q : query) (st st1 : state) :
  check_query q = Ok tt -> _manage_token st = (Ok tt, st1) ->
  exists k, (1 <= k <= 3)%nat /\
    sent (snd (get_data_from_device_wrapped d q st))
    = sent st1 ++ attempts_of k (data_request (self st1) d q).
Proof.
  intros Hq Hm. rewrite get_data_from_device_wrapped_eq, Hq, Hm.
  destruct (sent_transport_closed (data_request (self st1) d q) st1) as (k & Hk & H).
  exists k. split; [done|]. by destruct (transport_closed _ st1) as [[rep|e] st'].
Qed.

(** C4, as the code has it. With a current token t, [renew_token] sends a
    GET to the renew endpoint whose only header is
    [Authorization: Bearer t]; there is no [Renew] header. On a 200 answer
    the token becomes the value of the answer's Authorization header, and
    the call raises BadResponse when the answer has none. *)
Theorem renew_token_contract (st : state) (t : string) :
  _token (self st) = Some t ->
  let req := renew_request (self st) in
  req_method req = GET /\
  req_url req = _server (self st) +:+ "/auth/renew" /\
  req_headers req = {[ "Authorization" := "Bearer " +:+ t ]} /\
  req_headers req !! "Renew" = None /\
  (exists k, (1 <= k <= 3)%nat /\
     sent (snd (renew_token st)) = sent st ++ attempts_of k req) /\
  (forall rep st',
     _get_request (req_headers req) (req_url req) (req_params req) st = (Ok rep, st') ->
     status_code rep = 200 ->
     match headers rep !! "Authorization" with
     | Some v => renew_token st = (Ok tt, set_self (with_token (Some v) (self st)) st')
     | None =>
         renew_token st =
         (Raise (SyconApiBadResponseException
                   (Text "Authorization token not in received response")), st')
     end).
Proof.
  intros Ht req.
  assert (req_headers req = {[ "Authorization" := "Bearer " +:+ t ]}) as Hh.
  { unfold req, renew_request, _format_header_token. simpl. rewrite Ht. simpl.
    by rewrite insert_empty. }
  split; [done|]. split; [done|]. split; [done|].
  split; [by rewrite Hh|]. split; [apply renew_token_sent|].
  intros rep st' Hr H200. rewrite _get_request_closed in Hr.
  rewrite renew_token_eq.
  change (get_request_of (req_headers req) (req_url req) (req_params req)) with req in Hr.
  fold req. rewrite Hr, H200. simpl.
  pose proof (self_transport_closed req st) as Hs. rewrite Hr in Hs. simpl in Hs.
  destruct (headers rep !! "Authorization"); [|done]. by rewrite Hs.
Qed.

(** ** Result cache *)

Section LruFacts.
Context {K V : Type} `{EqDecision K}.
Implicit Types (c : lru K V) (key : K) (v : V).

Lemma lru_find_cons key key' v c :
  lru_find key ((key', v) :: c) =
  if bool_decide (key' = key) then Some v else lru_find key c.
Proof. unfold lru_find. simpl. by destruct (bool_decide (key' = key)). Qed.

Lemma lru_find_front key v c : lru_find key ((key, v) :: c) = Some v.
Proof. rewrite lru_find_cons. by rewrite bool_decide_eq_true_2. Qed.

Lemma lru_find_None key c :
  lru_find key c = None <-> Forall (fun kv => fst kv <> key) c.
Proof.
  induction c as [|[k v] c IH]; [by split|].
  rewrite lru_find_cons, Forall_cons. simpl.
  destruct (bool_decide_reflect (k = key)) as [->|Hne].
  - split; [done|]. by intros [? _].
  - rewrite IH. tauto.
Qed.

Lemma filter_other_id key c :
  lru_find key c = None ->
  List.filter (fun kv => negb (bool_decide (fst kv = key))) c = c.
Proof.
  rewrite lru_find_None. induction 1 as [|[k v] c Hk _ IH]; [done|]. simpl in *.
  rewrite bool_decide_eq_false_2 by done. simpl. by rewrite IH.
Qed.

Lemma filter_other_None key c :
  lru_find key (List.filter (fun kv => negb (bool_decide (fst kv = key))) c) = None.
Proof.
  apply lru_find_None, Forall_forall. intros kv Hin.
  apply list_elem_of_In, filter_In in Hin as [_ Hin].
  apply negb_true_iff, bool_decide_eq_false in Hin. done.
Qed.

Lemma lru_find_filter_other key key' c :
  key' <> key ->
  lru_find key' (List.filter (fun kv => negb (bool_decide (fst kv = key))) c)
  = lru_find key' c.
Proof.
  intros Hne. induction c as [|[k v] c IH]; [done|]. simpl.
  destruct (bool_decide_reflect (k = key)) as [->|Hk]; simpl.
  - rewrite IH, lru_find_cons. by rewrite bool_decide_eq_false_2.
  - by rewrite !lru_find_cons, IH.
Qed.

Lemma lru_touch_touch key v c :
  lru_touch key v (lru_touch key v c) = lru_touch key v c.
Proof.
  unfold lru_touch. simpl. rewrite bool_decide_eq_true_2 by done. simpl.
  by rewrite filter_other_id by apply filter_other_None.
Qed.

Lemma lru_touch_front key v c :
  lru_find key c = None -> lru_touch key v ((key, v) :: c) = (key, v) :: c.
Proof.
  intros Hc. unfold lru_touch. simpl. rewrite bool_decide_eq_true_2 by done. simpl.
  by rewrite filter_other_id.
Qed.

Lemma Forall_removelast {A} (P : A -> Prop) (l : list A) :
  Forall P l -> Forall P (removelast l).
Proof.
  induction l as [|x [|y l] IH]; simpl; [done|done|].
  intros Hl. apply Forall_cons in Hl as [Hx Hl]. apply Forall_cons. split; [done|].
  by apply IH.
Qed.

Lemma lru_find_removelast key c :
  lru_find key c = None -> lru_find key (removelast c) = None.
Proof. rewrite !lru_find_None. apply Forall_removelast. Qed.

(** After a miss the new entry is in front of entries with other keys. *)
Lemma lru_store_miss maxsize key v c :
  lru_find key c = None ->
  exists c', lru_store maxsize key v c = (key, v) :: c' /\ lru_find key c' = None /\
             (forall key', lru_find key' c = None -> lru_find key' c' = None).
Proof.
  intros Hc. unfold lru_store. rewrite Hc.
  destruct (maxsize <=? length c)%nat.
  - exists (removelast c). split; [done|]. split; [by apply lru_find_removelast|].
    intros key'. apply lru_find_removelast.
  - by exists c.
Qed.

Lemma length_removelast c : length (removelast c) = pred (length c).
Proof. induction c as [|x [|y c] IH]; simpl in *; [done|done|]. by rewrite IH. Qed.

Lemma lru_store_length key v c :
  (length c <= 10)%nat -> (length (lru_store 10 key v c) <= 10)%nat.
Proof.
  intros Hc. unfold lru_store. destruct (lru_find key c); [done|].
  destruct (Nat.leb_spec 10 (length c)); simpl; [|lia].
  rewrite length_removelast. lia.
Qed.

Lemma lru_touch_length key v c :
  lru_find key c = Some v -> (length (lru_touch key v c) <= length c)%nat.
Proof.
  unfold lru_touch. simpl. induction c as [|[k w] c IH]; [done|].
  rewrite lru_find_cons. simpl. destruct (bool_decide_reflect (k = key)) as [->|Hk]; simpl.
  - intros _. pose proof (filter_length_le
      (fun kv : K * V => negb (bool_decide (fst kv = key))) c). lia.
  - intros Hf. apply IH in Hf. lia.
Qed.

Lemma lru_find_Some_in key v c : lru_find key c = Some v -> (key, v) ∈ c.
Proof.
  induction c as [|[k w] c IH]; [done|]. rewrite lru_find_cons.
  destruct (bool_decide_reflect (k = key)) as [->|Hk].
  - intros [= ->]. left.
  - intros Hf. right. by apply IH.
Qed.

Lemma keys_ok_touch (P : K -> Prop) key v c :
  lru_find key c = Some v -> keys_ok P c -> keys_ok P (lru_touch key v c).
Proof.
  intros Hf Hc. unfold keys_ok, lru_touch in *. rewrite Forall_forall in Hc.
  apply Forall_cons. split.
  - apply (Hc (key, v)). by apply lru_find_Some_in.
  - apply Forall_forall. intros kv Hin. apply Hc.
    apply list_elem_of_In, filter_In in Hin as [Hin _]. by apply list_elem_of_In.
Qed.

Lemma keys_ok_removelast (P : K -> Prop) c : keys_ok P c -> keys_ok P (removelast c).
Proof. apply Forall_removelast. Qed.

Lemma keys_ok_store (P : K -> Prop) maxsize key v c :
  P key -> keys_ok P c -> keys_ok P (lru_store maxsize key v c).
Proof.
  intros Hk Hc. unfold lru_store. destruct (lru_find key c); [done|].
  destruct (maxsize <=? length c)%nat; apply Forall_cons; split; try done.
  by apply keys_ok_removelast.
Qed.

(** The wrapper, for a store that the wrapped function leaves alone. *)
Variables (get : state -> lru K V) (set : lru K V -> state -> state).
Hypothesis get_set : forall c st, get (set c st) = c.
Hypothesis set_set : forall c c' st, set c (set c' st) = set c st.
Variable user_function : M V.
Hypothesis user_function_get : forall st, get (snd (user_function st)) = get st.

(** A call that returned, made again in the state it left, returns the
    same value and leaves that state as it is. *)
Lemma lru_cache_repeat maxsize key v (st st1 : state) :
  lru_cache maxsize get set key user_function st = (Ok v, st1) ->
  lru_cache maxsize get set key user_function st1 = (Ok v, st1).
Proof.
  unfold lru_cache. destruct (lru_find key (get st)) as [v0|] eqn:Hf.
  - intros [= -> <-]. rewrite get_set.
    unfold lru_touch at 1. rewrite lru_find_front.
    by rewrite lru_touch_touch, set_set.
  - pose proof (user_function_get st) as Hg.
    destruct (user_function st) as [[v'|e] st'] eqn:Hb; [|done]. simpl in Hg.
    intros [= -> <-]. rewrite get_set.
    rewrite <- Hg in Hf.
    destruct (lru_store_miss maxsize key v (get st') Hf) as (c' & -> & Hc' & _).
    rewrite lru_find_front. by rewrite lru_touch_front, set_set.
Qed.

(** A raising call stores nothing. *)
Lemma lru_cache_raise maxsize key e (st st1 : state) :
  lru_cache maxsize get set key user_function st = (Raise e, st1) ->
  lru_find key (get st) = None /\ user_function st = (Raise e, st1) /\
  get st1 = get st.
Proof.
  unfold lru_cache. destruct (lru_find key (get st)); [done|].
  pose proof (user_function_get st) as Hg.
  destruct (user_function st) as [[v'|e'] st']; [done|]. by intros [= -> ->].
Qed.

(** On a miss the wrapped function runs, in the state of the call. *)
Lemma lru_cache_miss maxsize key (st : state) :
  lru_find key (get st) = None ->
  lru_cache maxsize get set key user_function st =
  match user_function st with
  | (Ok v, st') => (Ok v, set (lru_store maxsize key v (get st')) st')
  | (Raise e, st') => (Raise e, st')
  end.
Proof. intros Hf. unfold lru_cache. by rewrite Hf. Qed.

Lemma lru_cache_other maxsize key key' (st : state) :
  key' <> key -> lru_find key' (get st) = None ->
  lru_find key' (get (snd (lru_cache maxsize get set key user_function st))) = None.
Proof.
  intros Hne Hf'. unfold lru_cache.
  destruct (lru_find key (get st)) as [v0|] eqn:Hf; simpl.
  - rewrite get_set. unfold lru_touch. rewrite lru_find_cons.
    rewrite bool_decide_eq_false_2 by done. by rewrite lru_find_filter_other.
  - pose proof (user_function_get st) as Hg.
    destruct (user_function st) as [[v'|e] st']; simpl in *; [|by rewrite Hg].
    rewrite get_set. rewrite <- Hg in Hf, Hf'.
    destruct (lru_store_miss maxsize key v' (get st') Hf) as (c' & -> & _ & Hc').
    rewrite lru_find_cons. rewrite bool_decide_eq_false_2 by done. by apply Hc'.
Qed.

Lemma lru_cache_length key (st : state) :
  (length (get st) <= 10)%nat ->
  (length (get (snd (lru_cache 10 get set key user_function st))) <= 10)%nat.
Proof.
  intros Hl. unfold lru_cache. destruct (lru_find key (get st)) as [v0|] eqn:Hf; simpl.
  - rewrite get_set. apply lru_touch_length in Hf. lia.
  - pose proof (user_function_get st) as Hg.
    destruct (user_function st) as [[v'|e] st']; simpl in *; [|by rewrite Hg].
    rewrite get_set. apply lru_store_length. by rewrite Hg.
Qed.

Lemma lru_cache_keys_ok (P : K -> Prop) maxsize key (st : state) :
  (forall v st', user_function st = (Ok v, st') -> P key) ->
  keys_ok P (get st) ->
  keys_ok P (get (snd (lru_cache maxsize get set key user_function st))).
Proof.
  intros HP Hc. unfold lru_cache. destruct (lru_find key (get st)) as [v0|] eqn:Hf; simpl.
  - rewrite get_set. by apply keys_ok_touch.
  - pose proof (user_function_get st) as Hg.
    destruct (user_function st) as [[v'|e] st'] eqn:Hb; simpl in *; [|by rewrite Hg].
    rewrite get_set. apply keys_ok_store; [by eapply HP|]. by rewrite Hg.
Qed.
End LruFacts.

(** ** Single-device queries through the cache *)

Lemma get_data_from_device_unfold (d : string) (q : query) (st : state) :
  get_data_from_device d q st =
  lru_cache 10 device_cache set_device_cache (obj_id (self st), d, q)
    (get_data_from_device_wrapped d q) st.
Proof. done. Qed.

Lemma device_cache_wrapped (d : string) (q : query) (st : state) :
  device_cache (snd (get_data_from_device_wrapped d q st)) = device_cache st.
Proof. apply (step_device_cache _ _ (session_only_get_data_from_device_wrapped d q st)). Qed.

Lemma obj_id_get_data_from_device (d : string) (q : query) (st : state) :
  obj_id (self (snd (get_data_from_device d q st))) = obj_id (self st).
Proof.
  rewrite get_data_from_device_unfold. unfold lru_cache.
  destruct (lru_find _ _); [done|].
  pose proof (session_only_get_data_from_device_wrapped d q st) as Hs.
  destruct (get_data_from_device_wrapped d q st) as [[v|e] st']; simpl in *;
    apply (step_obj_id _ _ Hs).
Qed.

Lemma requested_attempts_of (k : nat) (req : request) :
  (1 <= k)%nat -> requested (attempts_of k req) = [req].
Proof.
  intros Hk. destruct k as [|k]; [lia|]. unfold requested, attempts_of. simpl.
  f_equal.
  assert (forall m, (2 <= m)%nat ->
    List.filter (fun a => (attempt_number a =? 1)%nat)
      (List.map (fun i => {| attempt_number := i; attempt_request := req |}) (seq m k))
    = []) as H.
  { clear. induction k as [|k IH]; intros m Hm; simpl; [done|].
    destruct (Nat.eqb_spec m 1); [lia|]. apply IH. lia. }
  by rewrite H by lia.
Qed.

(** C5, as the code has it. A single-device call that returned is
    answered from the cache when it is made again: same value, no call on
    the wire, no state change. A call that raised has stored nothing, so
    making it again runs the method again. A call that misses the cache,
    passes validation and gets through token management asks for exactly
    one data request (at most three attempts of it). The entry of one
    query does not serve another device or query, and the store never
    grows beyond 10 entries. *)
Theorem single_device_query_cache (d : string) (q : query) (st : state) :
  (forall v st1,
     get_data_from_device d q st = (Ok v, st1) ->
     get_data_from_device d q st1 = (Ok v, st1)) /\
  (forall e st1,
     get_data_from_device d q st = (Raise e, st1) ->
     get_data_from_device_wrapped d q st = (Raise e, st1) /\
     lru_find (obj_id (self st1), d, q) (device_cache st1) = None) /\
  (forall st_m,
     lru_find (obj_id (self st), d, q) (device_cache st) = None ->
     validate_query q st = (Ok tt, st) ->
     _manage_token st = (Ok tt, st_m) ->
     exists k, (1 <= k <= 3)%nat /\
       sent (snd (get_data_from_device d q st))
       = sent st_m ++ attempts_of k (data_request (self st_m) d q) /\
       requested (attempts_of k (data_request (self st_m) d q))
       = [data_request (self st_m) d q]) /\
  (forall d' q',
     (d', q') <> (d, q) ->
     lru_find (obj_id (self st), d', q') (device_cache st) = None ->
     lru_find (obj_id (self st), d', q')
       (device_cache (snd (get_data_from_device d q st))) = None) /\
  ((length (device_cache st) <= 10)%nat ->
   (length (device_cache (snd (get_data_from_device d q st))) <= 10)%nat).
Proof.
  split; [|split; [|split; [|split]]].
  - intros v st1 H1.
    pose proof (obj_id_get_data_from_device d q st) as Hid. rewrite H1 in Hid. simpl in Hid.
    rewrite get_data_from_device_unfold in *. rewrite Hid.
    eapply lru_cache_repeat; try done. apply device_cache_wrapped.
  - intros e st1 H1.
    pose proof (obj_id_get_data_from_device d q st) as Hid. rewrite H1 in Hid. simpl in Hid.
    rewrite get_data_from_device_unfold in H1.
    apply lru_cache_raise in H1 as (Hf & Hw & Hc); [|apply device_cache_wrapped].
    split; [done|]. by rewrite Hid, Hc.
  - intros st_m Hf Hq Hm. rewrite validate_query_eq in Hq. injection Hq as Hq.
    destruct (get_data_from_device_wrapped_sent d q st st_m Hq Hm) as (k & Hk & Hs).
    exists k. split; [done|]. split; [|apply requested_attempts_of; lia].
    rewrite get_data_from_device_unfold, lru_cache_miss by done.
    by destruct (get_data_from_device_wrapped d q st) as [[v|e] st'].
  - intros d' q' Hne Hf. rewrite get_data_from_device_unfold.
    apply lru_cache_other; try done; [apply device_cache_wrapped|congruence].
  - intros Hl. rewrite get_data_from_device_unfold.
    apply lru_cache_length; try done. apply device_cache_wrapped.
Qed.

(** ** Validation comes first *)

Lemma refused_parameters_rejected (q : query) :
  refused_parameters q -> exists e, check_query q = Raise e /\ validation_failure e.
Proof.
  unfold check_query, validation_failure.
  intros [[Hh Ht]|[[[h Hh] [t Ht]]|[Hs|He]]].
  - rewrite Hh, Ht. simpl. eauto.
  - rewrite Hh, Ht. simpl. eauto.
  - destruct (_raise_on_threshold_presence _ _) as [[]|e] eqn:E.
    + rewrite (validator_refuses _ Hs). eauto.
    + exists e. split; [done|].
      unfold _raise_on_threshold_presence in E.
      destruct (head_limit q), (tail_limit q); simplify_eq; eauto.
  - destruct (_raise_on_threshold_presence _ _) as [[]|e] eqn:E.
    + destruct (_raise_on_date_ISO_8601_bad_format (start_date q)) as [[]|e] eqn:E'.
      * rewrite (validator_refuses _ He). eauto.
      * exists e. split; [done|]. unfold _raise_on_date_ISO_8601_bad_format in E'.
        destruct (negb _); simplify_eq; eauto.
    + exists e. split; [done|].
      unfold _raise_on_threshold_presence in E.
      destruct (head_limit q), (tail_limit q); simplify_eq; eauto.
Qed.

(** What the validator refuses is invalid as the documentation has it;
    on ASCII instants the two are the same. *)
Lemma refused_parameters_invalid (q : query) :
  refused_parameters q -> invalid_parameters q.
Proof.
  intros [H|[H|[H|H]]]; [by left|by right; left| |].
  - right; right; left. intros Hi. by apply H, iso_instant_form_accepted.
  - right; right; right. intros Hi. by apply H, iso_instant_form_accepted.
Qed.

Lemma invalid_parameters_refused (q : query) :
  invalid_parameters q -> ascii_only (start_date q) -> ascii_only (end_date q) ->
  refused_parameters q.
Proof.
  intros [H|[H|[H|H]]] Hs He; [by left|by right; left| |].
  - right; right; left. intros Ha. by apply H, iso_instant_form_accepted.
  - right; right; right. intros Ha. by apply H, iso_instant_form_accepted.
Qed.

Lemma keys_ok_not_found {K V} `{EqDecision K} (P : K -> Prop) (key : K) (c : lru K V) :
  keys_ok P c -> ~ P key -> lru_find key c = None.
Proof.
  intros Hc Hn. apply lru_find_None. eapply Forall_impl; [apply Hc|].
  intros kv HP Heq. simpl in HP. by rewrite Heq in HP.
Qed.

Lemma get_data_from_devices_wrapped_invalid (ds : list string) (q : query) (e : exn)
    (st : state) :
  check_query q = Raise e -> get_data_from_devices_wrapped ds q st = (Raise e, st).
Proof.
  intros Hq. unfold get_data_from_devices_wrapped, bind. by rewrite validate_query_eq, Hq.
Qed.

Lemma get_data_from_all_devices_wrapped_invalid py_str (q : query) (e : exn) (st : state) :
  check_query q = Raise e -> get_data_from_all_devices_wrapped py_str q st = (Raise e, st).
Proof.
  intros Hq. unfold get_data_from_all_devices_wrapped, list_for_all_devices, bind.
  by rewrite validate_query_eq, Hq.
Qed.

Lemma refused_parameters_fail_fast
    (py_str : value -> string) (st : state) (d : string) (ds : list string) (q : query) :
  caches_valid st ->
  refused_parameters q ->
  exists e, validation_failure e /\ validate_query q st = (Raise e, st) /\
    get_data_from_device d q st = (Raise e, st) /\
    get_data_from_devices ds q st = (Raise e, st) /\
    get_data_from_all_devices py_str q st = (Raise e, st).
Proof.
  intros (Hc1 & Hc2 & Hc3) Hq.
  destruct (refused_parameters_rejected q Hq) as (e & He & Hv).
  exists e. split; [done|]. split; [by rewrite validate_query_eq, He|].
  assert (check_query q <> Ok tt) as Hn by (by rewrite He).
  split; [|split].
  - rewrite get_data_from_device_unfold. unfold lru_cache.
    rewrite (keys_ok_not_found _ _ _ Hc1) by done.
    by rewrite get_data_from_device_wrapped_eq, He.
  - unfold get_data_from_devices, bind, get_self, lru_cache.
    rewrite (keys_ok_not_found _ _ _ Hc2) by done.
    by rewrite (get_data_from_devices_wrapped_invalid _ _ e).
  - unfold get_data_from_all_devices, bind, get_self, lru_cache.
    rewrite (keys_ok_not_found _ _ _ Hc3) by done.
    by rewrite (get_data_from_all_devices_wrapped_invalid _ _ e).
Qed.

(** C8. A data query whose parameters the validator refuses (both limits
    absent, both present, or a start or end instant the pattern does not
    take) raises the validation failure and leaves the whole state as it
    was: nothing went on the wire, token management did not run, the
    token is the same. This holds for the three data methods, in every
    state whose stores hold validated queries only, and so for every
    invalid query whose instants are ASCII. What the validator refuses is
    always invalid. But a start instant written in Arabic-Indic digits is
    invalid and is not refused: the call logs in and sends the data
    request. *)
Theorem invalid_parameters_fail_fast
    (py_str : value -> string) (st : state) (d : string) (ds : list string) (q : query) :
  (caches_valid st ->
   refused_parameters q ->
   exists e, validation_failure e /\ validate_query q st = (Raise e, st) /\
     get_data_from_device d q st = (Raise e, st) /\
     get_data_from_devices ds q st = (Raise e, st) /\
     get_data_from_all_devices py_str q st = (Raise e, st)) /\
  (invalid_parameters q -> ascii_only (start_date q) -> ascii_only (end_date q) ->
   refused_parameters q) /\
  (refused_parameters q -> invalid_parameters q) /\
  invalid_parameters q0_arabic_indic /\
  validate_query q0_arabic_indic healthy = (Ok tt, healthy) /\
  fst (get_data_from_device "d1" q0_arabic_indic healthy)
  = Ok (PyDict [("k", PyStr "v")]) /\
  requested (sent (snd (get_data_from_device "d1" q0_arabic_indic healthy)))
  = [login_request client_u;
     data_request (with_token (Some "tok") client_u) "d1" q0_arabic_indic].
Proof.
  split; [apply refused_parameters_fail_fast|].
  split; [apply invalid_parameters_refused|].
  split; [apply refused_parameters_invalid|].
  split.
  { right; right; left. apply arabic_indic_instant_not_iso. }
  repeat split; vm_compute; reflexivity.
Qed.

(** The stores hold validated queries only: true of a new client, and kept
    by every method. *)
Lemma caches_valid_fresh (me : SyconApi) (srv : nat -> request -> reply) :
  caches_valid (fresh me srv).
Proof. repeat split; apply Forall_nil_2. Qed.

Lemma caches_valid_session_step (st st' : state) :
  session_step st st' -> caches_valid st -> caches_valid st'.
Proof. intros [] (H1 & H2 & H3). unfold caches_valid. by rewrite step_device_cache0,
  step_devices_cache0, step_all_devices_cache0. Qed.

Lemma caches_valid_get_data_from_device (d : string) (q : query) (st : state) :
  caches_valid st -> caches_valid (snd (get_data_from_device d q st)).
Proof.
  intros (H1 & H2 & H3). split.
  - rewrite get_data_from_device_unfold.
    apply (lru_cache_keys_ok device_cache set_device_cache); try done.
    + apply device_cache_wrapped.
    + intros v st'. rewrite get_data_from_device_wrapped_eq. simpl.
      by destruct (check_query q) as [[]|].
  - rewrite get_data_from_device_unfold. unfold lru_cache.
    destruct (lru_find _ _); [done|].
    pose proof (session_only_get_data_from_device_wrapped d q st) as Hs.
    destruct (get_data_from_device_wrapped d q st) as [[v|e] st']; simpl in *;
      by rewrite (step_devices_cache _ _ Hs), (step_all_devices_cache _ _ Hs).
Qed.

Lemma caches_valid_get_data_from_devices (ds : list string) (q : query) (st : state) :
  caches_valid st -> caches_valid (snd (get_data_from_devices ds q st)).
Proof.
  intros (H1 & H2 & H3).
  pose proof (session_only_get_data_from_devices_wrapped ds q st) as Hs.
  assert (forall v st', get_data_from_devices_wrapped ds q st = (Ok v, st') ->
                        check_query q = Ok tt) as Hok.
  { intros v st'. destruct (check_query q) as [[]|e] eqn:E; [done|].
    by rewrite (get_data_from_devices_wrapped_invalid _ _ e). }
  unfold get_data_from_devices, bind, get_self. repeat split.
  - unfold lru_cache. destruct (lru_find _ _); [done|].
    destruct (get_data_from_devices_wrapped ds q st) as [[v|e] st']; simpl in *;
      by rewrite (step_device_cache _ _ Hs).
  - apply (lru_cache_keys_ok devices_cache set_devices_cache); try done.
    intros st0. apply (step_devices_cache _ _
      (session_only_get_data_from_devices_wrapped ds q st0)).
  - unfold lru_cache. destruct (lru_find _ _); [done|].
    destruct (get_data_from_devices_wrapped ds q st) as [[v|e] st']; simpl in *;
      by rewrite (step_all_devices_cache _ _ Hs).
Qed.

Lemma caches_valid_get_data_from_all_devices py_str (q : query) (st : state) :
  caches_valid st -> caches_valid (snd (get_data_from_all_devices py_str q st)).
Proof.
  intros (H1 & H2 & H3).
  pose proof (session_only_get_data_from_all_devices_wrapped py_str q st) as Hs.
  assert (forall v st', get_data_from_all_devices_wrapped py_str q st = (Ok v, st') ->
                        check_query q = Ok tt) as Hok.
  { intros v st'. destruct (check_query q) as [[]|e] eqn:E; [done|].
    by rewrite (get_data_from_all_devices_wrapped_invalid _ _ e). }
  unfold get_data_from_all_devices, bind, get_self. repeat split.
  - unfold lru_cache. destruct (lru_find _ _); [done|].
    destruct (get_data_from_all_devices_wrapped py_str q st) as [[v|e] st']; simpl in *;
      by rewrite (step_device_cache _ _ Hs).
  - unfold lru_cache. destruct (lru_find _ _); [done|].
    destruct (get_data_from_all_devices_wrapped py_str q st) as [[v|e] st']; simpl in *;
      by rewrite (step_devices_cache _ _ Hs).
  - apply (lru_cache_keys_ok all_devices_cache set_all_devices_cache); try done.
    intros st0. apply (step_all_devices_cache _ _
      (session_only_get_data_from_all_devices_wrapped py_str q st0)).
Qed.

(** ** The loops over devices *)

Lemma requested_app (l1 l2 : list attempt) :
  requested (l1 ++ l2) = requested l1 ++ requested l2.
Proof. unfold requested. by rewrite List.filter_app, fmap_app. Qed.

Lemma transport_closed_Ok (req : request) (st : state) (rep : Response) (st' : state) :
  transport_closed req st = (Ok rep, st') ->
  exists k, (1 <= k <= 3)%nat /\ st' = logged (attempts_of k req) st.
Proof.
  intros H. destruct (transport_closed_bounded req st) as (k & Hk & Hs).
  rewrite H in Hs. by exists k.
Qed.

Section AllDevices.
Variable py_str : value -> string.

Lemma all_devices_loop_Ok (q : query) (args : gmap string param) (devices : list value) :
  Forall is_record devices ->
  forall data st data' st',
    all_devices_loop py_str devices q args data st = (Ok data', st') ->
    dom data' = dom data ∪ list_to_set (py_str <$> present_ids devices) /\
    self st' = self st /\
    exists l, sent st' = sent st ++ l /\
      requested l =
      (fun id => get_request_of (_format_header_token (_token (self st)) ∅)
                   (_server (self st) +:+
                    SyconApiV1Route.DATA (py_str id) (field_value (field q)))
                   (Some args)) <$> present_ids devices.
Proof.
  induction 1 as [|device devices Hrec _ IH]; intros data st data' st'.
  - simpl. unfold ret. intros [= <- <-]. split; [set_solver|]. split; [done|].
    exists []. by rewrite app_nil_r.
  - destruct device as [| | | | | |members]; try done.
    simpl. unfold bind at 1, lift at 1. unfold present_ids. simpl.
    destruct (dict_get "id" members) as [id|] eqn:Hid; simpl.
    + unfold bind, lift, get_self. rewrite _get_request_closed.
      destruct (transport_closed _ st) as [[rep|e] st1] eqn:Ht; [|done].
      apply transport_closed_Ok in Ht as (k & Hk & ->).
      intros Hl. apply IH in Hl as (Hdom & Hself & l & Hsent & Hreq).
      split; [rewrite Hdom, dom_insert_L; set_solver|]. split; [done|].
      exists (attempts_of k (get_request_of (_format_header_token (_token (self st)) ∅)
                   (_server (self st) +:+
                    SyconApiV1Route.DATA (py_str id) (field_value (field q)))
                   (Some args)) ++ l).
      split; [by rewrite Hsent, sent_logged, app_assoc|].
      rewrite requested_app, requested_attempts_of by lia. simpl. f_equal. apply Hreq.
    + apply IH.
Qed.

Lemma get_data_from_all_devices_wrapped_Ok (q : query) (st st1 st2 : state)
    (recs : list value) (data : gmap string value) :
  list_for_all_devices q st = (Ok (PyList recs), st1) ->
  Forall is_record recs ->
  get_data_from_all_devices_wrapped py_str q st = (Ok data, st2) ->
  dom data = list_to_set (py_str <$> present_ids recs) /\
  exists l, sent st2 = sent st1 ++ l /\
    requested l = (fun id => data_request (self st1) (py_str id) q) <$> present_ids recs.
Proof.
  intros Hpre Hrecs. unfold get_data_from_all_devices_wrapped, bind at 1.
  rewrite Hpre. unfold bind at 1, lift at 1. simpl. intros Hl.
  apply all_devices_loop_Ok in Hl as (Hdom & _ & l & Hsent & Hreq); [|done].
  split; [rewrite Hdom; set_solver|]. by exists l.
Qed.

Lemma transport_closed_healthy (req : request) (st : state) :
answers_without_error st ->
exists rep, transport_closed req st = (Ok rep, logged (attempts_of 1 req) st).
Proof.
intros Hs. destruct (Hs (length (sent st)) req) as (rep & Hrep & H5 & H4).
exists rep. rewrite transport_closed_first; rewrite Hrep, settle_fine; done.
Qed.

Lemma all_devices_loop_returns (q : query) (args : gmap string param)
  (devices : list value) :
Forall is_record devices ->
forall data st, answers_without_error st ->
  exists data' st', all_devices_loop py_str devices q args data st = (Ok data', st').
Proof.
induction 1 as [|device devices Hrec _ IH]; intros data st Hs; [by eexists _, _|].
destruct device as [| | | | | |members]; try done.
simpl. unfold bind at 1, lift at 1. simpl.
destruct (dict_get "id" members) as [id|]; simpl; [|by apply IH].
unfold bind, lift, get_self. rewrite _get_request_closed.
destruct (transport_closed_healthy
            (get_request_of (_format_header_token (_token (self st)) ∅)
               (_server (self st) +:+
                SyconApiV1Route.DATA (py_str id) (field_value (field q)))
               (Some args)) st Hs) as (rep & ->).
by apply IH.
Qed.

(** C9. When the list-devices call returns a list of device records,
  a call of [get_data_from_all_devices] that runs the method and
  returns has asked for exactly one data request per record holding an
  [id], in the order of the list and none for the other records, and
  the mapping it returns has as keys exactly the [str] of those
  identifiers. The call does return when the service answers every
  call without an error status. *)
Theorem all_devices_one_request_per_id (q : query) (st st1 : state)
  (recs : list value) :
lru_find (obj_id (self st), q) (all_devices_cache st) = None ->
list_for_all_devices q st = (Ok (PyList recs), st1) ->
Forall is_record recs ->
(forall data st2,
   get_data_from_all_devices py_str q st = (Ok data, st2) ->
   dom data = list_to_set (py_str <$> present_ids recs) /\
   exists l, sent st2 = sent st1 ++ l /\
     requested l
     = (fun id => data_request (self st1) (py_str id) q) <$> present_ids recs) /\
(answers_without_error st ->
 exists data st2, get_data_from_all_devices py_str q st = (Ok data, st2)).
Proof.
intros Hmiss Hpre Hrecs.
unfold get_data_from_all_devices, bind, get_self, lru_cache. rewrite Hmiss. split.
- intros data st2.
  destruct (get_data_from_all_devices_wrapped py_str q st) as [[data0|e] st0] eqn:Hw;
    [|done].
  intros [= <- <-].
  by apply (get_data_from_all_devices_wrapped_Ok q st st1 st0 recs data0).
- intros Hs. unfold get_data_from_all_devices_wrapped, bind at 1. rewrite Hpre.
  unfold bind at 1, lift at 1. simpl.
  assert (answers_without_error st1) as Hs1.
  { pose proof (session_only_bind _ _ (session_only_validate_query q)
      (fun _ => session_only_bind _ _ session_only__manage_token
         (fun _ => session_only_get_devices_list)) st) as Hstep.
    fold (list_for_all_devices q) in Hstep. rewrite Hpre in Hstep. simpl in Hstep.
    intros n req. rewrite (step_cloud _ _ Hstep). apply Hs. }
  destruct (all_devices_loop_returns q (query_args q) recs Hrecs ∅ st1 Hs1)
    as (data & st2 & ->).
  by eexists _, _.
Qed.
End AllDevices.

(** ** The token on the wire *)

Lemma carry_attempts_of (t : option string) (k : nat) (req : request) :
  req_headers req = _format_header_token t ∅ -> carry t (attempts_of k req).
Proof.
  intros Hh. unfold carry, attempts_of. apply Forall_forall. intros a Hin.
  apply list_elem_of_In, in_map_iff in Hin as (i & <- & _). simpl.
  rewrite Hh. unfold _format_header_token. by rewrite lookup_insert_eq.
Qed.

Lemma carry_app (t : option string) (l1 l2 : list attempt) :
  carry t l1 -> carry t l2 -> carry t (l1 ++ l2).
Proof. unfold carry. intros. by apply Forall_app. Qed.

Lemma transport_closed_carry (t : option string) (url : string)
    (args : option (gmap string param)) (st : state) :
  exists l,
    snd (transport_closed (get_request_of (_format_header_token t ∅) url args) st)
    = logged l st /\ carry t l.
Proof.
  destruct (transport_closed_bounded
              (get_request_of (_format_header_token t ∅) url args) st) as (k & _ & ->).
  eexists. split; [done|]. by apply carry_attempts_of.
Qed.

Lemma devices_loop_carry (q : query) (args : gmap string param) (ds : list string) :
  forall data st,
    exists l, sent (snd (devices_loop ds q args data st)) = sent st ++ l /\
              carry (_token (self st)) l.
Proof.
  induction ds as [|d ds IH]; intros data st; simpl.
  - exists []. split; [by rewrite app_nil_r|apply Forall_nil_2].
  - unfold bind, get_self. rewrite _get_request_closed.
    destruct (transport_closed_carry (_token (self st))
                (_server (self st) +:+ SyconApiV1Route.DATA d (field_value (field q)))
                (Some args) st) as (l1 & Hs & Hc).
    destruct (transport_closed _ st) as [[rep|e] st1]; simpl in Hs; subst st1.
    + destruct (IH (<[d := body_of rep]> data) (logged l1 st)) as (l2 & Hs2 & Hc2).
      exists (l1 ++ l2). split; [by rewrite Hs2, sent_logged, app_assoc|].
      by apply carry_app.
    + by exists l1.
Qed.

Lemma all_devices_loop_carry py_str (q : query) (args : gmap string param)
    (devices : list value) :
  forall data st,
    exists l, sent (snd (all_devices_loop py_str devices q args data st)) = sent st ++ l /\
              carry (_token (self st)) l.
Proof.
  induction devices as [|device devices IH]; intros data st; simpl.
  - exists []. split; [by rewrite app_nil_r|apply Forall_nil_2].
  - unfold bind at 1, lift at 1.
    destruct (py_in "id" device) as [[|]|e]; simpl;
      [|apply IH|exists []; split; [by rewrite app_nil_r|apply Forall_nil_2]].
    unfold bind at 1, lift at 1.
    destruct (py_get "id" device) as [id|e]; simpl;
      [|exists []; split; [by rewrite app_nil_r|apply Forall_nil_2]].
    unfold bind, get_self. rewrite _get_request_closed.
    destruct (transport_closed_carry (_token (self st))
                (_server (self st) +:+
                 SyconApiV1Route.DATA (py_str id) (field_value (field q)))
                (Some args) st) as (l1 & Hs & Hc).
    destruct (transport_closed _ st) as [[rep|e] st1]; simpl in Hs; subst st1.
    + destruct (IH (<[py_str id := body_of rep]> data) (logged l1 st)) as (l2 & Hs2 & Hc2).
      exists (l1 ++ l2). split; [by rewrite Hs2, sent_logged, app_assoc|].
      by apply carry_app.
    + by exists l1.
Qed.

(** C10. [authenticate] and [renew_token] assign the value of the
    Authorization header of a 200 answer to the token as it is, and every
    authenticated request (token check, renewal, device list, data
    requests of the three methods) carries [Authorization: Bearer] followed
    by the stored token; with a stored token that begins with [Bearer ]
    the header therefore begins with [Bearer Bearer ]. *)
Theorem token_verbatim_then_bearer_prefixed
    (py_str : value -> string) (st : state) (d : string) (ds : list string)
    (devices : list value) (q : query) (args : gmap string param)
    (data : gmap string value) :
  (forall rep st',
     _post_request (req_headers (login_request (self st)))
       (req_url (login_request (self st))) (req_data (login_request (self st))) st
     = (Ok rep, st') ->
     status_code rep = 200 ->
     authenticate st
     = (Ok tt, set_self (with_token (headers rep !! "Authorization") (self st)) st')) /\
  (forall rep st' v,
     _get_request (req_headers (renew_request (self st)))
       (req_url (renew_request (self st))) (req_params (renew_request (self st))) st
     = (Ok rep, st') ->
     status_code rep = 200 ->
     headers rep !! "Authorization" = Some v ->
     renew_token st = (Ok tt, set_self (with_token (Some v) (self st)) st')) /\
  (exists l, sent (snd (check_token st)) = sent st ++ l /\ carry (_token (self st)) l) /\
  (exists l, sent (snd (renew_token st)) = sent st ++ l /\ carry (_token (self st)) l) /\
  (forall st1, _manage_token st = (Ok tt, st1) ->
     exists l, sent (snd (get_devices_list st)) = sent st1 ++ l /\
               carry (_token (self st1)) l) /\
  (forall st1, validate_query q st = (Ok tt, st) -> _manage_token st = (Ok tt, st1) ->
     exists l, sent (snd (get_data_from_device_wrapped d q st)) = sent st1 ++ l /\
               carry (_token (self st1)) l) /\
  (exists l, sent (snd (devices_loop ds q args data st)) = sent st ++ l /\
             carry (_token (self st)) l) /\
  (exists l, sent (snd (all_devices_loop py_str devices q args data st)) = sent st ++ l /\
             carry (_token (self st)) l) /\
  (forall x l, carry (Some ("Bearer " +:+ x)) l ->
     Forall (fun a => req_headers (attempt_request a) !! "Authorization"
                      = Some ("Bearer Bearer " +:+ x)) l).
Proof.
  split; [|split].
  - intros rep st' Hr H200. rewrite _post_request_closed in Hr.
    change (post_request_of _ _ _) with (login_request (self st)) in Hr.
    pose proof (self_transport_closed (login_request (self st)) st) as Hs.
    rewrite authenticate_eq, Hr, H200. rewrite Hr in Hs. simpl in *. by rewrite Hs.
  - intros rep st' v Hr H200 Hv. rewrite _get_request_closed in Hr.
    change (get_request_of _ _ _) with (renew_request (self st)) in Hr.
    pose proof (self_transport_closed (renew_request (self st)) st) as Hs.
    rewrite renew_token_eq, Hr, H200, Hv. rewrite Hr in Hs. simpl in *. by rewrite Hs.
  - repeat split.
    + destruct (check_token_sent st) as (k & _ & Hs). eexists. split; [apply Hs|].
      by apply carry_attempts_of.
    + destruct (renew_token_sent st) as (k & _ & Hs). eexists. split; [apply Hs|].
      by apply carry_attempts_of.
    + intros st1 Hm. destruct (get_devices_list_sent st st1 Hm) as (k & _ & Hs).
      eexists. split; [apply Hs|]. by apply carry_attempts_of.
    + intros st1 Hq Hm. rewrite validate_query_eq in Hq. injection Hq as Hq.
      destruct (get_data_from_device_wrapped_sent d q st st1 Hq Hm) as (k & _ & Hs).
      eexists. split; [apply Hs|]. by apply carry_attempts_of.
    + apply devices_loop_carry.
    + apply all_devices_loop_carry.
    + intros x l Hc. apply Hc.
Qed.

(** * The statements on concrete runs *)

(** C2, the claim as worded fails: with a service that answers 503 to
    every call, the caller of [_get_request] receives a RetryError after
    the three attempts, not the ServerError. *)
Lemma exhausted_retries_raise_RetryError :
  fst (_get_request ∅ "http://x" (Some ∅) down)
  = Raise (RetryError (SyconApiServerErrorResponseException
                         (StatusText 503 "srv error"))) /\
  fst (_get_request ∅ "http://x" (Some ∅) down)
  <> Raise (SyconApiServerErrorResponseException (StatusText 503 "srv error")) /\
  length (sent (snd (_get_request ∅ "http://x" (Some ∅) down))) = 3%nat.
Proof. vm_compute. split; [reflexivity|]. split; [discriminate|reflexivity]. Qed.

Lemma retry_policy_witness :
  _get_request ∅ "http://x" (Some ∅) down
  = (Raise (RetryError (SyconApiServerErrorResponseException
                          (StatusText 503 "srv error"))),
     logged (attempts_of 3 (get_request_of ∅ "http://x" (Some ∅))) down) /\
  _get_request ∅ "http://x" (Some ∅) rejected
  = (Raise (SyconApiBadResponseException (StatusText 401 "unauthorized")),
     logged (attempts_of 1 (get_request_of ∅ "http://x" (Some ∅))) rejected).
Proof.
  split.
  - apply (proj1 (retry_policy (_get_request ∅ "http://x" (Some ∅))
                    (get_request_of ∅ "http://x" (Some ∅)) down
                    (or_introl (ex_intro _ ∅ (ex_intro _ "http://x"
                       (ex_intro _ (Some ∅) (conj eq_refl eq_refl))))))
             (plain 503 "srv error") (plain 503 "srv error") (plain 503 "srv error"));
      reflexivity.
  - apply (proj1 (proj2 (proj2
             (retry_policy (_get_request ∅ "http://x" (Some ∅))
                (get_request_of ∅ "http://x" (Some ∅)) rejected
                (or_introl (ex_intro _ ∅ (ex_intro _ "http://x"
                   (ex_intro _ (Some ∅) (conj eq_refl eq_refl))))))))
             (plain 401 "unauthorized")); reflexivity.
Defined.

(** C4, the claim as worded fails: the request [renew_token] sends has
    no [Renew] header; the token travels as [Authorization: Bearer]. *)
Lemma renew_token_sends_no_Renew_header :
  header_of "Renew" (sent (snd (renew_token renewing))) = [None] /\
  header_of "Renew" (sent (snd (renew_token renewing))) <> [Some "oldtoken"] /\
  header_of "Authorization" (sent (snd (renew_token renewing)))
  = [Some "Bearer oldtoken"].
Proof. vm_compute. split; [reflexivity|]. split; [discriminate|reflexivity]. Qed.

Lemma renew_token_contract_witness :
  _token (self renewing) = Some "oldtoken" /\
  req_headers (renew_request (self renewing)) !! "Renew" = None /\
  renew_token renewing
  = (Ok tt, set_self (with_token (Some "Bearer newtoken") (self renewing))
              (logged (attempts_of 1 (renew_request (self renewing))) renewing)).
Proof.
  split; [reflexivity|].
  destruct (renew_token_contract renewing "oldtoken" eq_refl) as (_ & _ & _ & Hr & _ & H).
  split; [exact Hr|].
  apply (H (with_header "Authorization" "Bearer newtoken" (plain 200 ""))
           (logged (attempts_of 1 (renew_request (self renewing))) renewing));
    reflexivity.
Defined.

(** C5, the claim as worded fails, twice. With a data endpoint that
    answers 404 the same single-device query made twice raises twice and
    puts two data requests on the wire: nothing was cached. And after a
    query that returned, the query with one parameter changed (a tail
    limit added to the head limit) raises InvalidParameters and puts
    nothing on the wire. *)
Lemma repeated_or_changed_query_calls :
  (fst (get_data_from_device "d1" q0 no_such_device)
   = Raise (SyconApiBadResponseException (StatusText 404 "not found")) /\
   fst (get_data_from_device "d1" q0 no_such_device_once)
   = Raise (SyconApiBadResponseException (StatusText 404 "not found")) /\
   length (calls_to data_url_d1 (sent no_such_device_twice)) = 2%nat) /\
  (fst (get_data_from_device "d1" q0 healthy) = Ok (PyDict [("k", PyStr "v")]) /\
   fst (get_data_from_device "d1" q0_both_limits healthy_once)
   = Raise (SyconApiInvalidParametersException
              (Text "Either headLimit or tailLimit field is required, not both")) /\
   sent (snd (get_data_from_device "d1" q0_both_limits healthy_once))
   = sent healthy_once).
Proof. vm_compute. repeat split. Qed.

Lemma single_device_query_cache_witness :
  get_data_from_device "d1" q0 healthy_once
  = (Ok (PyDict [("k", PyStr "v")]), healthy_once) /\
  length (calls_to data_url_d1 (sent healthy_once)) = 1%nat.
Proof.
  split; [|reflexivity].
  apply (proj1 (single_device_query_cache "d1" q0 healthy)). vm_compute. reflexivity.
Defined.

Lemma invalid_parameters_fail_fast_witness :
  exists e, validation_failure e /\
    validate_query q0_invalid healthy = (Raise e, healthy) /\
    get_data_from_device "d1" q0_invalid healthy = (Raise e, healthy) /\
    get_data_from_devices ["a"; "b"] q0_invalid healthy = (Raise e, healthy) /\
    get_data_from_all_devices str_scalar q0_invalid healthy = (Raise e, healthy).
Proof.
  apply (proj1 (invalid_parameters_fail_fast str_scalar healthy "d1" ["a"; "b"]
                  q0_invalid)).
  - repeat split; constructor.
  - left. split; reflexivity.
Defined.

Lemma all_devices_one_request_per_id_witness :
  dom (<["d1" := PyDict [("k", PyStr "v")]]> (∅ : gmap string value))
  = list_to_set (str_scalar <$> present_ids two_records) /\
  exists l,
    sent (snd (get_data_from_all_devices str_scalar q0 healthy))
    = sent (snd (list_for_all_devices q0 healthy)) ++ l /\
    requested l
    = (fun id => data_request (self (snd (list_for_all_devices q0 healthy)))
                   (str_scalar id) q0) <$> present_ids two_records.
Proof.
  apply (proj1 (all_devices_one_request_per_id str_scalar q0 healthy
                  (snd (list_for_all_devices q0 healthy)) two_records
                  eq_refl
                  ltac:(vm_compute; reflexivity)
                  ltac:(repeat constructor))).
  vm_compute. reflexivity.
Defined.

Lemma token_verbatim_then_bearer_prefixed_witness :
  authenticate bearer_login
  = (Ok tt, set_self (with_token (Some "Bearer abc") client_u)
              (logged (attempts_of 1 (login_request client_u)) bearer_login)) /\
  Forall (fun a => req_headers (attempt_request a) !! "Authorization"
                   = Some ("Bearer Bearer " +:+ "abc"))
    (attempts_of 1 (check_request (with_token (Some "Bearer abc") client_u))).
Proof.
  pose proof (token_verbatim_then_bearer_prefixed str_scalar bearer_login "d1" [] [] q0 ∅ ∅)
    as (Ha & _ & _ & _ & _ & _ & _ & _ & Hd).
  split.
  - apply (Ha (with_header "Authorization" "Bearer abc" (plain 200 ""))
              (logged (attempts_of 1 (login_request client_u)) bearer_login));
      reflexivity.
  - apply Hd. repeat constructor.
Defined.

(** ** The unit tests of the repository, on the model *)

Example test_format_header_helpers :
  _format_header_token (Some "abc") ∅ !! "Authorization" = Some "Bearer abc" /\
  _format_header_content_type_json ∅ !! "Content-type" = Some "application/json".
Proof. split; reflexivity. Qed.

Example test_raise_on_threshold_presence_errors :
  _raise_on_threshold_presence None None
  = Raise (SyconApiMissingParametersException
             (Text "Either headLimit or tailLimit field is required")) /\
  _raise_on_threshold_presence (Some 1) (Some 2)
  = Raise (SyconApiInvalidParametersException
             (Text "Either headLimit or tailLimit field is required, not both")) /\
  _raise_on_threshold_presence (Some 1) None = Ok tt /\
  _raise_on_threshold_presence None (Some 2) = Ok tt.
Proof. repeat split. Qed.

Example test_fill_get_data_args_caps_and_external :
  _fill_get_data_args ∅ "s" "e" (Some (k_size_batch_limit + 100)) None None
  = {[ "start" := PStr "s"; "end" := PStr "e"; "headLimit" := PInt 10000 ]} /\
  _fill_get_data_args ∅ "s" "e" None (Some (k_size_batch_limit + 1)) None !! "tailLimit"
  = Some (PInt 10000) /\
  _fill_get_data_args ∅ "s" "e" (Some 1) None (Some "ext123") !! "externalSensorId"
  = Some (PStr "ext123").
Proof. vm_compute. repeat split. Qed.

Example test__get_request_raises :
  fst (_get_request_wrapped 1 ∅ "http://x" (Some ∅) down)
  = Raise (SyconApiServerErrorResponseException (StatusText 503 "srv error")) /\
  fst (_get_request_wrapped 1 ∅ "http://x" (Some ∅) no_such_device)
  = Raise (SyconApiBadResponseException (StatusText 404 "not found")).
Proof. split; reflexivity. Qed.

Example test_renew_token_and_check_token :
  fst (renew_token (fresh (with_token (Some "oldtoken") client_u) (always (plain 200 ""))))
  = Raise (SyconApiBadResponseException
             (Text "Authorization token not in received response")) /\
  _token (self (snd (renew_token
                       (fresh (with_token (Some "oldtoken") client_u)
                          (always (with_header "Authorization" "newtoken"
                                     (plain 200 "")))))))
  = Some "newtoken" /\
  fst (check_token (fresh (with_token (Some "oldtoken") client_u) (always (plain 200 ""))))
  = Ok true.
Proof. vm_compute. repeat split. Qed.

Example test_get_data_from_devices_collects_each_body :
  fst (get_data_from_devices ["a"; "b"] q0 two_devices)
  = Ok {[ "a" := PyDict [("v", PyInt 1)]; "b" := PyStr "raw-b" ]} /\
  length (requested (sent two_devices_once)) = 3%nat /\
  snd (get_data_from_devices ["a"; "b"] q0 two_devices_once) = two_devices_once.
Proof. vm_compute. repeat split. Qed.

Example test_get_data_from_all_devices_skips_missing_id :
  fst (get_data_from_all_devices str_scalar q0 healthy)
  = Ok {[ "d1" := PyDict [("k", PyStr "v")] ]}.
Proof. vm_compute. reflexivity. Qed.

(** * Further properties of the methods *)

(** ** Session manager *)

Lemma _manage_token_eq (st : state) :
  _manage_token st =
  match _token (self st) with
  | Some _ =>
      match check_token st with
      | (Ok valid, st1) => if negb valid then renew_token st1 else (Ok tt, st1)
      | (Raise e, st1) => (Raise e, st1)
      end
  | None => authenticate st
  end.
Proof.
  unfold _manage_token, bind, get_self. destruct (_token (self st)); [|done].
  by destruct (check_token st) as [[[]|e] st1].
Qed.

Lemma status_200_no_error (rep : Response) :
  status_code rep = 200 -> server_error rep = false /\ client_error rep = false.
Proof. unfold server_error, client_error. by intros ->. Qed.

(** The answer a transport call returns, and where it came in the trace. *)
Lemma transport_closed_Ok_reply (req : request) (st : state) (rep : Response)
    (st' : state) :
  transport_closed req st = (Ok rep, st') ->
  exists k, (1 <= k <= 3)%nat /\ st' = logged (attempts_of k req) st /\
    cloud st (length (sent st) + (k - 1))%nat req = Reply rep /\
    server_error rep = false /\ client_error rep = false.
Proof.
  assert (forall a, settle a = Ok rep ->
            a = Reply rep /\ server_error rep = false /\ client_error rep = false) as Hs.
  { intros [r|m]; simpl; [|done].
    destruct (server_error r) eqn:S; [done|]. destruct (client_error r) eqn:C; [done|].
    by intros [= <-]. }
  unfold transport_closed.
  destruct (negb (retried (settle (cloud st (length (sent st)) req)))).
  { intros [= H <-]. apply Hs in H as (H & ? & ?). exists 1%nat.
    rewrite Nat.add_0_r. repeat split; (lia || done). }
  destruct (negb (retried (settle (cloud st (length (sent st) + 1)%nat req)))).
  { intros [= H <-]. apply Hs in H as (H & ? & ?). exists 2%nat.
    repeat split; (lia || done). }
  destruct (settle (cloud st (length (sent st) + 2)%nat req)) as [r3|e3] eqn:E3.
  - intros [= <- <-]. apply Hs in E3 as (H & ? & ?). exists 3%nat.
    repeat split; (lia || done).
  - by destruct (is_server_error e3).
Qed.

(** X1. A client that holds a token: [_manage_token] keeps the token
    and sends nothing but the check when the check is answered 200; it
    goes on to [renew_token] only when the check is answered with another
    status that is no error; a check answered 4xx raises BadResponse after
    the one check request, and whenever [check_token] raises,
    [_manage_token] raises the same exception in the same state, so no
    renewal is sent for a rejected token. *)
Theorem manage_token_renews_only_after_unrejected_check (st : state) (t : string) :
  _token (self st) = Some t ->
  (forall rep,
     cloud st (length (sent st)) (check_request (self st)) = Reply rep ->
     status_code rep = 200 ->
     _manage_token st = (Ok tt, logged (attempts_of 1 (check_request (self st))) st)) /\
  (forall rep,
     cloud st (length (sent st)) (check_request (self st)) = Reply rep ->
     server_error rep = false -> client_error rep = false ->
     status_code rep <> 200 ->
     _manage_token st
     = renew_token (logged (attempts_of 1 (check_request (self st))) st)) /\
  (forall rep,
     cloud st (length (sent st)) (check_request (self st)) = Reply rep ->
     client_error rep = true ->
     _manage_token st
     = (Raise (SyconApiBadResponseException (StatusText (status_code rep) (text rep))),
        logged (attempts_of 1 (check_request (self st))) st)) /\
  (forall e st', check_token st = (Raise e, st') -> _manage_token st = (Raise e, st')).
Proof.
  intros Ht. rewrite _manage_token_eq, Ht. repeat split.
  - intros rep Hrep H200. destruct (status_200_no_error rep H200) as [H5 H4].
    rewrite check_token_eq, transport_closed_first; rewrite Hrep, settle_fine by done;
      [|done]. by rewrite H200.
  - intros rep Hrep H5 H4 Hn.
    rewrite check_token_eq, transport_closed_first; rewrite Hrep, settle_fine by done;
      [|done]. by destruct (Z.eqb_spec (status_code rep) 200).
  - intros rep Hrep H4.
    rewrite check_token_eq, transport_closed_first;
      rewrite Hrep, settle_client_error by done; done.
  - intros e st' ->. done.
Qed.

(** X2. What [check_token] returns is the comparison with 200 of an
    answer that is no error: the answer to the last of its one to three
    attempts, with a status outside 400..599. So False stands for a status
    such as 204 or 302, never for a 4xx or a 5xx, and the token is the
    same after the call. *)
Theorem check_token_reads_an_unrefused_answer (st st' : state) (b : bool) :
  check_token st = (Ok b, st') ->
  exists rep k, (1 <= k <= 3)%nat /\
    st' = logged (attempts_of k (check_request (self st))) st /\
    cloud st (length (sent st) + (k - 1))%nat (check_request (self st)) = Reply rep /\
    ~ (400 <= status_code rep < 600) /\
    b = (status_code rep =? 200) /\
    _token (self st') = _token (self st).
Proof.
  rewrite check_token_eq.
  destruct (transport_closed (check_request (self st)) st) as [[rep|e] st1] eqn:Ht;
    [|done].
  intros [= <- <-].
  apply transport_closed_Ok_reply in Ht as (k & Hk & -> & Hrep & H5 & H4).
  exists rep, k. split; [done|]. split; [done|]. split; [done|].
  split; [|done].
  unfold server_error, client_error in *.
  destruct (Z.leb_spec 400 (status_code rep)), (Z.ltb_spec (status_code rep) 500),
    (Z.leb_spec 500 (status_code rep)), (Z.ltb_spec (status_code rep) 600);
    simpl in *; try done; lia.
Qed.

Lemma transport_closed_Raise (req : request) (st : state) (e : exn) (st' : state) :
  transport_closed req st = (Raise e, st') ->
  transport_failure e /\ exists k, (1 <= k <= 3)%nat /\ st' = logged (attempts_of k req) st.
Proof.
  intros H. split.
  - assert (forall a e0, settle a = Raise e0 -> is_server_error e0 = false ->
                         transport_failure e0) as Hs.
    { intros [r|m] e0; simpl.
      - destruct (server_error r); [by intros [= <-]|].
        destruct (client_error r); [|done]. intros [= <-] _. left. eauto.
      - intros [= <-] _. right. right. eauto. }
    assert (forall a e0, settle a = Raise e0 -> is_server_error e0 = true ->
                         exists d, e0 = SyconApiServerErrorResponseException d) as Hr.
    { intros a e0 _. destruct e0; try done. eauto. }
    unfold transport_closed in H.
    destruct (settle (cloud st (length (sent st)) req)) as [r1|e1] eqn:E1; simpl in H;
      [done|].
    destruct (is_server_error e1) eqn:S1; simpl in H;
      [|injection H as <- _; by eapply Hs].
    destruct (settle (cloud st (length (sent st) + 1)%nat req)) as [r2|e2] eqn:E2;
      simpl in H; [done|].
    destruct (is_server_error e2) eqn:S2; simpl in H;
      [|injection H as <- _; by eapply Hs].
    destruct (settle (cloud st (length (sent st) + 2)%nat req)) as [r3|e3] eqn:E3;
      [done|].
    destruct (is_server_error e3) eqn:S3; injection H as <- _; [|by eapply Hs].
    destruct (Hr _ _ E3 S3) as [d ->]. right. left. eauto.
  - destruct (transport_closed_bounded req st) as (k & Hk & Hs). rewrite H in Hs.
    by exists k.
Qed.

Lemma no_error_status (rep : Response) :
  server_error rep = false -> client_error rep = false ->
  ~ (400 <= status_code rep < 600).
Proof.
  intros H5 H4. unfold server_error, client_error in *.
  destruct (Z.leb_spec 400 (status_code rep)), (Z.ltb_spec (status_code rep) 500),
    (Z.leb_spec 500 (status_code rep)), (Z.ltb_spec (status_code rep) 600);
    simpl in *; try done; lia.
Qed.

Lemma authenticate_raises (st st' : state) (e : exn) :
  authenticate st = (Raise e, st') ->
  transport_failure e /\ exists l, st' = logged l st.
Proof.
  rewrite authenticate_eq.
  destruct (transport_closed (login_request (self st)) st) as [[rep|e0] s1] eqn:Ht.
  - by destruct (status_code rep =? 200).
  - intros [= -> ->]. apply transport_closed_Raise in Ht as (? & k & _ & ->). eauto.
Qed.

Lemma renew_token_raises (st st' : state) (e : exn) :
  renew_token st = (Raise e, st') ->
  transport_failure e /\ exists l, st' = logged l st.
Proof.
  rewrite renew_token_eq.
  destruct (transport_closed (renew_request (self st)) st) as [[rep|e0] s1] eqn:Ht.
  - destruct (status_code rep =? 200); [|done].
    destruct (headers rep !! "Authorization"); [done|]. intros [= <- <-].
    apply transport_closed_Ok in Ht as (k & _ & ->). split; [left|]; eauto.
  - intros [= -> ->]. apply transport_closed_Raise in Ht as (? & k & _ & ->). eauto.
Qed.

Lemma check_token_raises (st st' : state) (e : exn) :
  check_token st = (Raise e, st') ->
  transport_failure e /\ exists l, st' = logged l st.
Proof.
  rewrite check_token_eq.
  destruct (transport_closed (check_request (self st)) st) as [[rep|e0] s1] eqn:Ht;
    [done|].
  intros [= -> ->]. apply transport_closed_Raise in Ht as (? & k & _ & ->). eauto.
Qed.

Lemma _manage_token_raises (st st' : state) (e : exn) :
  _manage_token st = (Raise e, st') ->
  transport_failure e /\ exists l, st' = logged l st.
Proof.
  intros H. rewrite _manage_token_eq in H.
  destruct (_token (self st)); [|by apply authenticate_raises].
  destruct (check_token st) as [[valid|e0] s1] eqn:Hck.
  - rewrite check_token_eq in Hck.
    destruct (transport_closed (check_request (self st)) st) as [[rep|e1] s2] eqn:Ht;
      [|done].
    injection Hck as <- <-. apply transport_closed_Ok in Ht as (k & _ & ->).
    destruct (negb _); [|done].
    apply renew_token_raises in H as (? & l & ->). split; [done|].
    rewrite logged_logged. eauto.
  - injection H as <- <-. by apply check_token_raises.
Qed.

(** X3. A call of the session manager that raises ([authenticate],
    [renew_token], [check_token], [_manage_token]) has only put calls on
    the wire: the token and the rest of the state are as before. What it
    raises is a BadResponse, tenacity's RetryError holding a ServerError,
    or an exception of the HTTP library. *)
Theorem failed_session_call_keeps_token (st st' : state) (e : exn) :
  authenticate st = (Raise e, st') \/ renew_token st = (Raise e, st') \/
  check_token st = (Raise e, st') \/ _manage_token st = (Raise e, st') ->
  transport_failure e /\ exists l, st' = logged l st.
Proof.
  intros [H|[H|[H|H]]].
  - by apply authenticate_raises.
  - by apply renew_token_raises.
  - by apply check_token_raises.
  - by apply _manage_token_raises.
Qed.

Lemma set_self_same (st : state) :
  set_self (with_token (_token (self st)) (self st)) st = st.
Proof. destruct st as [[] ? ? ? ? ?]. done. Qed.

(** X4. A call of [authenticate] or [renew_token] that returns has read
    an answer that is no error. Only a 200 touches the token: it becomes
    the Authorization header of the answer (for [renew_token] the header
    is then present); with any other status, 204 say, the call returns
    just the same and the token is the one held before. *)
Theorem token_changes_only_on_200 (st st' : state) :
  (authenticate st = (Ok tt, st') ->
   exists rep k, (1 <= k <= 3)%nat /\
     cloud st (length (sent st) + (k - 1))%nat (login_request (self st)) = Reply rep /\
     ~ (400 <= status_code rep < 600) /\
     st' = set_self
             (with_token (if status_code rep =? 200
                          then headers rep !! "Authorization"
                          else _token (self st)) (self st))
             (logged (attempts_of k (login_request (self st))) st)) /\
  (renew_token st = (Ok tt, st') ->
   exists rep k, (1 <= k <= 3)%nat /\
     cloud st (length (sent st) + (k - 1))%nat (renew_request (self st)) = Reply rep /\
     ~ (400 <= status_code rep < 600) /\
     (status_code rep = 200 -> is_Some (headers rep !! "Authorization")) /\
     st' = set_self
             (with_token (if status_code rep =? 200
                          then headers rep !! "Authorization"
                          else _token (self st)) (self st))
             (logged (attempts_of k (renew_request (self st))) st)).
Proof.
  assert (forall rep, server_error rep = false -> client_error rep = false ->
                      ~ (400 <= status_code rep < 600)) as Hne.
  { intros rep H5 H4. unfold server_error, client_error in *.
    destruct (Z.leb_spec 400 (status_code rep)), (Z.ltb_spec (status_code rep) 500),
      (Z.leb_spec 500 (status_code rep)), (Z.ltb_spec (status_code rep) 600);
      simpl in *; try done; lia. }
  split.
  - rewrite authenticate_eq.
    destruct (transport_closed (login_request (self st)) st) as [[rep|e] st1] eqn:Ht;
      [|done].
    apply transport_closed_Ok_reply in Ht as (k & Hk & -> & Hrep & H5 & H4).
    intros H. exists rep, k. split; [done|]. split; [done|]. split; [by apply Hne|].
    destruct (status_code rep =? 200); injection H as <-; [done|].
    by rewrite <- (self_logged (attempts_of k (login_request (self st))) st), set_self_same.
  - rewrite renew_token_eq.
    destruct (transport_closed (renew_request (self st)) st) as [[rep|e] st1] eqn:Ht;
      [|done].
    apply transport_closed_Ok_reply in Ht as (k & Hk & -> & Hrep & H5 & H4).
    intros H. exists rep, k. split; [done|]. split; [done|]. split; [by apply Hne|].
    destruct (Z.eqb_spec (status_code rep) 200) as [H200|Hn].
    + destruct (headers rep !! "Authorization") as [v|] eqn:Hv; [|done].
      injection H as <-. split; [eauto|done].
    + injection H as <-. split; [done|].
      by rewrite <- (self_logged (attempts_of k (renew_request (self st))) st),
        set_self_same.
Qed.

(** Clients that hold a token keep holding one. *)
Lemma keeps_token_bind {A B} (m : M A) (k : A -> M B) :
  keeps_token m -> (forall a, keeps_token (k a)) -> keeps_token (bind m k).
Proof.
  intros Hm Hk st Hst. unfold bind. specialize (Hm st Hst).
  destruct (m st) as [[a|e] st1]; simpl in *; [|done]. by apply Hk.
Qed.

Lemma keeps_token_self {A} (m : M A) :
  (forall st, self (snd (m st)) = self st) -> keeps_token m.
Proof. intros H st Hst. by rewrite H. Qed.

Lemma keeps_token__get_request hdrs url args : keeps_token (_get_request hdrs url args).
Proof.
  apply keeps_token_self. intros st. rewrite _get_request_closed.
  apply self_transport_closed.
Qed.

Lemma keeps_token_check_token : keeps_token check_token.
Proof.
  unfold check_token. apply keeps_token_bind; [by apply keeps_token_self|intros me].
  apply keeps_token_bind; [apply keeps_token__get_request|intros rep].
  by apply keeps_token_self.
Qed.

Lemma keeps_token_renew_token : keeps_token renew_token.
Proof.
  unfold renew_token. apply keeps_token_bind; [by apply keeps_token_self|intros me].
  apply keeps_token_bind; [apply keeps_token__get_request|intros rep].
  destruct (status_code rep =? 200); [|by apply keeps_token_self].
  destruct (headers rep !! "Authorization") eqn:E; [|by apply keeps_token_self].
  intros st _. simpl. eauto.
Qed.

Lemma keeps_token__manage_token : keeps_token _manage_token.
Proof.
  intros st Hst. rewrite _manage_token_eq. destruct Hst as [t Ht]. rewrite Ht.
  pose proof (keeps_token_check_token st (ex_intro _ t Ht)) as Hc.
  destruct (check_token st) as [[valid|e] st1]; simpl in *; [|done].
  destruct (negb valid); [|done]. by apply keeps_token_renew_token.
Qed.

Lemma keeps_token_get_devices_list : keeps_token get_devices_list.
Proof.
  unfold get_devices_list. apply keeps_token_bind; [by apply keeps_token_self|intros me].
  apply keeps_token_bind; [apply keeps_token__manage_token|intros _].
  apply keeps_token_bind; [by apply keeps_token_self|intros me'].
  apply keeps_token_bind; [apply keeps_token__get_request|intros rep].
  destruct (status_code rep =? 200); [|by apply keeps_token_self].
  destruct (json rep); by apply keeps_token_self.
Qed.

Lemma keeps_token_validate_query (q : query) : keeps_token (validate_query q).
Proof. apply keeps_token_self. intros st. by rewrite validate_query_eq. Qed.

Lemma keeps_token_devices_loop (q : query) args (ds : list string) :
  forall data, keeps_token (devices_loop ds q args data).
Proof.
  induction ds as [|d ds IH]; intros data; simpl; [by apply keeps_token_self|].
  apply keeps_token_bind; [by apply keeps_token_self|intros me].
  apply keeps_token_bind; [apply keeps_token__get_request|intros rep]. apply IH.
Qed.

Lemma keeps_token_all_devices_loop py_str (q : query) args (devices : list value) :
  forall data, keeps_token (all_devices_loop py_str devices q args data).
Proof.
  induction devices as [|v devices IH]; intros data; simpl; [by apply keeps_token_self|].
  apply keeps_token_bind; [by apply keeps_token_self|intros has_id].
  destruct (negb has_id); [apply IH|].
  apply keeps_token_bind; [by apply keeps_token_self|intros id].
  apply keeps_token_bind; [by apply keeps_token_self|intros me].
  apply keeps_token_bind; [apply keeps_token__get_request|intros rep]. apply IH.
Qed.

Lemma keeps_token_lru_cache {K V} `{EqDecision K} (get : state -> lru K V)
    (set : lru K V -> state -> state) (key : state -> K) (body : M V) :
  (forall c st, self (set c st) = self st) ->
  keeps_token body ->
  keeps_token (fun st => lru_cache 10 get set (key st) body st).
Proof.
  intros Hset Hb st Hst. unfold lru_cache. destruct (lru_find _ _); simpl.
  - by rewrite Hset.
  - specialize (Hb st Hst). destruct (body st) as [[v|e] st1]; simpl in *; [|done].
    by rewrite Hset.
Qed.

(** X5. A client that holds a token still holds one after [check_token],
    [renew_token], [_manage_token], [get_devices_list] and each of the
    three data methods, whatever the service answers: of all the methods
    only [authenticate] can take the token away. *)
Theorem held_token_is_kept
    (py_str : value -> string) (d : string) (ds : list string) (q : query) (st : state) :
  is_Some (_token (self st)) ->
  is_Some (_token (self (snd (check_token st)))) /\
  is_Some (_token (self (snd (renew_token st)))) /\
  is_Some (_token (self (snd (_manage_token st)))) /\
  is_Some (_token (self (snd (get_devices_list st)))) /\
  is_Some (_token (self (snd (get_data_from_device d q st)))) /\
  is_Some (_token (self (snd (get_data_from_devices ds q st)))) /\
  is_Some (_token (self (snd (get_data_from_all_devices py_str q st)))).
Proof.
  intros Hst.
  split; [by apply keeps_token_check_token|].
  split; [by apply keeps_token_renew_token|].
  split; [by apply keeps_token__manage_token|].
  split; [by apply keeps_token_get_devices_list|].
  split; [|split].
  - apply (keeps_token_lru_cache device_cache set_device_cache
             (fun st => (obj_id (self st), d, q))); [done| |done].
    unfold get_data_from_device_wrapped.
    apply keeps_token_bind; [apply keeps_token_validate_query|intros _].
    apply keeps_token_bind; [apply keeps_token__manage_token|intros _].
    apply keeps_token_bind; [by apply keeps_token_self|intros me].
    apply keeps_token_bind; [apply keeps_token__get_request|intros rep].
    by apply keeps_token_self.
  - apply (keeps_token_lru_cache devices_cache set_devices_cache
             (fun st => (obj_id (self st), ds, q))); [done| |done].
    unfold get_data_from_devices_wrapped.
    apply keeps_token_bind; [apply keeps_token_validate_query|intros _].
    apply keeps_token_bind; [apply keeps_token__manage_token|intros _].
    apply keeps_token_devices_loop.
  - apply (keeps_token_lru_cache all_devices_cache set_all_devices_cache
             (fun st => (obj_id (self st), q))); [done| |done].
    unfold get_data_from_all_devices_wrapped, list_for_all_devices.
    apply keeps_token_bind; [|intros devices].
    { apply keeps_token_bind; [apply keeps_token_validate_query|intros _].
      apply keeps_token_bind; [apply keeps_token__manage_token|intros _].
      apply keeps_token_get_devices_list. }
    apply keeps_token_bind; [by apply keeps_token_self|intros items].
    apply keeps_token_all_devices_loop.
Qed.

(** ** Device listing and the multi-device method *)

(** X6. What [get_devices_list] can give. When it returns, token
    management succeeded and the service answered the listing request,
    within three attempts, with a status outside 400..599: the value is
    the parsed body of a 200, and None for any other status, without an
    exception. When it raises, the exception is a BadResponse, tenacity's
    RetryError holding a ServerError, or an exception of the HTTP
    library; a 200 whose body is no JSON is a BadResponse that carries
    the URL. *)
Theorem get_devices_list_outcomes (st st' : state) :
  (forall v,
     get_devices_list st = (Ok v, st') ->
     exists st1 rep k, _manage_token st = (Ok tt, st1) /\ (1 <= k <= 3)%nat /\
       cloud st (length (sent st1) + (k - 1))%nat (devices_request (self st1))
       = Reply rep /\
       ~ (400 <= status_code rep < 600) /\
       st' = logged (attempts_of k (devices_request (self st1))) st1 /\
       ((status_code rep = 200 /\ json rep = Some v) \/
        (status_code rep <> 200 /\ v = PyNone))) /\
  (forall e, get_devices_list st = (Raise e, st') -> transport_failure e) /\
  (forall st1 rep,
     _manage_token st = (Ok tt, st1) ->
     _get_request (req_headers (devices_request (self st1)))
       (req_url (devices_request (self st1))) None st1 = (Ok rep, st') ->
     status_code rep = 200 -> json rep = None ->
     get_devices_list st =
     (Raise (SyconApiBadResponseException
               (Text ("Invalid response received from server for request "
                      +:+ _server (self st) +:+ "/api/devices"))), st')).
Proof.
  split; [|split].
  - intros v. rewrite get_devices_list_eq.
    destruct (_manage_token st) as [[[]|e] st1] eqn:Hm; [|done].
    pose proof (session_only__manage_token st) as Hstep. rewrite Hm in Hstep.
    simpl in Hstep.
    destruct (transport_closed (devices_request (self st1)) st1) as [[rep|e] st2] eqn:Ht;
      [|done].
    apply transport_closed_Ok_reply in Ht as (k & Hk & -> & Hrep & H5 & H4).
    rewrite (step_cloud _ _ Hstep) in Hrep.
    intros H. exists st1, rep, k. split; [done|]. split; [done|]. split; [done|].
    split; [by apply no_error_status|].
    destruct (Z.eqb_spec (status_code rep) 200) as [H200|H200].
    + destruct (json rep) as [v'|]; [|done]. injection H as <- <-. split; [done|].
      by left.
    + injection H as <- <-. split; [done|]. by right.
  - intros e. rewrite get_devices_list_eq.
    destruct (_manage_token st) as [[[]|e0] st1] eqn:Hm.
    + destruct (transport_closed (devices_request (self st1)) st1) as [[rep|e1] st2] eqn:Ht.
      * destruct (status_code rep =? 200); [|done]. destruct (json rep); [done|].
        intros [= <- _]. left. eauto.
      * intros [= <- _]. by apply transport_closed_Raise in Ht as [? _].
    + intros [= <- <-].
      by apply _manage_token_raises in Hm as [? _].
  - intros st1 rep Hm Hr H200 Hj. rewrite _get_request_closed in Hr.
    change (get_request_of _ _ _) with (devices_request (self st1)) in Hr.
    rewrite get_devices_list_eq, Hm, Hr, H200, Hj. done.
Qed.

Lemma devices_loop_Ok (q : query) (args : gmap string param) (ds : list string) :
  forall data st data' st',
    devices_loop ds q args data st = (Ok data', st') ->
    dom data' = dom data ∪ list_to_set ds /\
    self st' = self st /\
    exists l, sent st' = sent st ++ l /\
      requested l =
      (fun d => get_request_of (_format_header_token (_token (self st)) ∅)
                  (_server (self st) +:+ SyconApiV1Route.DATA d (field_value (field q)))
                  (Some args)) <$> ds.
Proof.
  induction ds as [|d ds IH]; intros data st data' st'.
  - simpl. unfold ret. intros [= <- <-]. split; [set_solver|]. split; [done|].
    exists []. by rewrite app_nil_r.
  - simpl. unfold bind, get_self. rewrite _get_request_closed.
    destruct (transport_closed _ st) as [[rep|e] st1] eqn:Ht; [|done].
    apply transport_closed_Ok in Ht as (k & Hk & ->).
    intros Hl. apply IH in Hl as (Hdom & Hself & l & Hsent & Hreq).
    split; [rewrite Hdom, dom_insert_L; set_solver|]. split; [done|].
    exists (attempts_of k (get_request_of (_format_header_token (_token (self st)) ∅)
                 (_server (self st) +:+ SyconApiV1Route.DATA d (field_value (field q)))
                 (Some args)) ++ l).
    split; [by rewrite Hsent, sent_logged, app_assoc|].
    rewrite requested_app, requested_attempts_of by lia. simpl. f_equal. apply Hreq.
Qed.

Lemma devices_loop_returns (q : query) (args : gmap string param) (ds : list string) :
  forall data st, answers_without_error st ->
    exists data' st', devices_loop ds q args data st = (Ok data', st').
Proof.
  induction ds as [|d ds IH]; intros data st Hs; [by eexists _, _|].
  simpl. unfold bind, get_self. rewrite _get_request_closed.
  destruct (transport_closed_healthy
              (get_request_of (_format_header_token (_token (self st)) ∅)
                 (_server (self st) +:+ SyconApiV1Route.DATA d (field_value (field q)))
                 (Some args)) st Hs) as (rep & ->).
  by apply IH.
Qed.

Lemma get_data_from_devices_wrapped_eq (ds : list string) (q : query) (st : state) :
  get_data_from_devices_wrapped ds q st =
  match check_query q with
  | Raise e => (Raise e, st)
  | Ok _ =>
      match _manage_token st with
      | (Ok _, st1) => devices_loop ds q (query_args q) ∅ st1
      | (Raise e, st1) => (Raise e, st1)
      end
  end.
Proof.
  unfold get_data_from_devices_wrapped, bind. rewrite validate_query_eq.
  destruct (check_query q) as [[]|e]; [|done].
  by destruct (_manage_token st) as [[[]|e] st1].
Qed.

(** X7. A call of [get_data_from_devices] that runs the method, with
    valid parameters and token management passed: if it returns, the
    keys of the mapping are exactly the devices given and the requests
    asked for are one data request per device, in the order given (a
    device named twice is asked twice); it does return when the service
    answers every call without error status; and for an empty tuple it
    returns the empty mapping with no data request at all. *)
Theorem devices_one_request_per_device
    (ds : list string) (q : query) (st st1 : state) :
  lru_find (obj_id (self st), ds, q) (devices_cache st) = None ->
  validate_query q st = (Ok tt, st) ->
  _manage_token st = (Ok tt, st1) ->
  (forall data st2,
     get_data_from_devices ds q st = (Ok data, st2) ->
     dom data = list_to_set ds /\
     exists l, sent st2 = sent st1 ++ l /\
       requested l = (fun d => data_request (self st1) d q) <$> ds) /\
  (answers_without_error st ->
   exists data st2, get_data_from_devices ds q st = (Ok data, st2)) /\
  (ds = [] ->
   fst (get_data_from_devices ds q st) = Ok ∅ /\
   sent (snd (get_data_from_devices ds q st)) = sent st1).
Proof.
  intros Hmiss Hq Hm. rewrite validate_query_eq in Hq. injection Hq as Hq.
  unfold get_data_from_devices, bind, get_self, lru_cache. rewrite Hmiss.
  rewrite get_data_from_devices_wrapped_eq, Hq, Hm. split; [|split].
  - intros data st2.
    destruct (devices_loop ds q (query_args q) ∅ st1) as [[data0|e] st0] eqn:Hl; [|done].
    intros [= <- <-]. apply devices_loop_Ok in Hl as (Hdom & _ & l & Hsent & Hreq).
    split; [rewrite Hdom; set_solver|]. by exists l.
  - intros Hs.
    assert (answers_without_error st1) as Hs1.
    { pose proof (session_only__manage_token st) as Hstep. rewrite Hm in Hstep.
      simpl in Hstep. intros n req. rewrite (step_cloud _ _ Hstep). apply Hs. }
    destruct (devices_loop_returns q (query_args q) ds ∅ st1 Hs1) as (data & st2 & ->).
    by eexists _, _.
  - intros ->. done.
Qed.

(** ** The caches of the three data methods *)

Section LruReturned.
Context {K V : Type} `{EqDecision K}.
Variables (get : state -> lru K V) (set : lru K V -> state -> state).
Hypothesis get_set : forall c st, get (set c st) = c.
Variable user_function : M V.
Hypothesis user_function_get : forall st, get (snd (user_function st)) = get st.

(** After a call that returned, the entry is in front of the store. *)
Lemma lru_cache_returned maxsize (key : K) (v : V) (st st1 : state) :
  lru_cache maxsize get set key user_function st = (Ok v, st1) ->
  lru_find key (get st1) = Some v /\ lru_touch key v (get st1) = get st1.
Proof.
  unfold lru_cache. destruct (lru_find key (get st)) as [v0|] eqn:Hf.
  - intros [= -> <-]. rewrite get_set. split; [apply lru_find_front|].
    apply lru_touch_touch.
  - pose proof (user_function_get st) as Hg.
    destruct (user_function st) as [[v'|e] st'] eqn:Hb; [|done]. simpl in Hg.
    intros [= -> <-]. rewrite get_set. rewrite <- Hg in Hf.
    destruct (lru_store_miss maxsize key v (get st') Hf) as (c' & -> & Hc' & _).
    split; [apply lru_find_front|]. by apply lru_touch_front.
Qed.

(** The state the wrapper leaves has the identity the wrapped function
    leaves. *)
Lemma lru_cache_obj_id maxsize (key : K) (st : state) :
  (forall c s, self (set c s) = self s) ->
  (forall s, obj_id (self (snd (user_function s))) = obj_id (self s)) ->
  obj_id (self (snd (lru_cache maxsize get set key user_function st))) = obj_id (self st).
Proof.
  intros Hset Hb. unfold lru_cache. destruct (lru_find key (get st)); simpl.
  - by rewrite Hset.
  - specialize (Hb st). destruct (user_function st) as [[v|e] st']; simpl in *;
      by rewrite ?Hset.
Qed.
End LruReturned.

Lemma devices_cache_wrapped (ds : list string) (q : query) (st : state) :
  devices_cache (snd (get_data_from_devices_wrapped ds q st)) = devices_cache st.
Proof.
  apply (step_devices_cache _ _ (session_only_get_data_from_devices_wrapped ds q st)).
Qed.

Lemma all_devices_cache_wrapped py_str (q : query) (st : state) :
  all_devices_cache (snd (get_data_from_all_devices_wrapped py_str q st))
  = all_devices_cache st.
Proof.
  apply (step_all_devices_cache _ _
           (session_only_get_data_from_all_devices_wrapped py_str q st)).
Qed.

Lemma obj_id_get_data_from_devices (ds : list string) (q : query) (st : state) :
  obj_id (self (snd (get_data_from_devices ds q st))) = obj_id (self st).
Proof.
  apply (lru_cache_obj_id devices_cache set_devices_cache); [done|]. intros s.
  apply (step_obj_id _ _ (session_only_get_data_from_devices_wrapped ds q s)).
Qed.

Lemma obj_id_get_data_from_all_devices py_str (q : query) (st : state) :
  obj_id (self (snd (get_data_from_all_devices py_str q st))) = obj_id (self st).
Proof.
  apply (lru_cache_obj_id all_devices_cache set_all_devices_cache); [done|]. intros s.
  apply (step_obj_id _ _ (session_only_get_data_from_all_devices_wrapped py_str q s)).
Qed.

Lemma lru_cache_hit {K V} `{EqDecision K} (get : state -> lru K V)
    (set : lru K V -> state -> state) (body : M V) (key : K) (v : V) (st : state) :
  set (get st) st = st ->
  lru_find key (get st) = Some v -> lru_touch key v (get st) = get st ->
  lru_cache 10 get set key body st = (Ok v, st).
Proof. intros Hs Hf Ht. unfold lru_cache. by rewrite Hf, Ht, Hs. Qed.

(** X8. An answer of a data method, once returned, is what the same call
    returns from then on whatever the service would answer now: in the
    state the call left, put in front of any service, the call returns
    the same value and changes nothing, so it sends nothing. For
    [get_data_from_all_devices] this includes the devices: the device
    list is not asked again. *)
Theorem cached_answers_ignore_the_service
    (py_str : value -> string) (d : string) (ds : list string) (q : query)
    (st : state) (srv : nat -> request -> reply) :
  (forall v st1,
     get_data_from_device d q st = (Ok v, st1) ->
     get_data_from_device d q (with_cloud srv st1) = (Ok v, with_cloud srv st1)) /\
  (forall v st1,
     get_data_from_devices ds q st = (Ok v, st1) ->
     get_data_from_devices ds q (with_cloud srv st1) = (Ok v, with_cloud srv st1)) /\
  (forall v st1,
     get_data_from_all_devices py_str q st = (Ok v, st1) ->
     get_data_from_all_devices py_str q (with_cloud srv st1)
     = (Ok v, with_cloud srv st1)).
Proof.
  split; [|split]; intros v st1 H1.
  - pose proof (obj_id_get_data_from_device d q st) as Hid. rewrite H1 in Hid.
    simpl in Hid. rewrite get_data_from_device_unfold in H1.
    apply (lru_cache_returned device_cache set_device_cache) in H1 as [Hf Ht];
      [|done|apply device_cache_wrapped].
    rewrite get_data_from_device_unfold. simpl. rewrite Hid.
    by apply (lru_cache_hit device_cache set_device_cache).
  - pose proof (obj_id_get_data_from_devices ds q st) as Hid. rewrite H1 in Hid.
    simpl in Hid. unfold get_data_from_devices, bind, get_self in *.
    apply (lru_cache_returned devices_cache set_devices_cache) in H1 as [Hf Ht];
      [|done|apply devices_cache_wrapped].
    simpl. rewrite Hid. by apply (lru_cache_hit devices_cache set_devices_cache).
  - pose proof (obj_id_get_data_from_all_devices py_str q st) as Hid. rewrite H1 in Hid.
    simpl in Hid. unfold get_data_from_all_devices, bind, get_self in *.
    apply (lru_cache_returned all_devices_cache set_all_devices_cache) in H1 as [Hf Ht];
      [|done|apply all_devices_cache_wrapped].
    simpl. rewrite Hid.
    by apply (lru_cache_hit all_devices_cache set_all_devices_cache).
Qed.

(** X9. The stores of the two multi-device methods: a call that raises
    has run the method and stored nothing, so the same call runs it
    again; the entry of one call does not serve a call with other
    devices, the same devices in another order, or another parameter; and
    a store of at most 10 entries has at most 10 after the call. *)
Theorem multi_device_caches
    (py_str : value -> string) (ds : list string) (q : query) (st : state) :
  (forall e st1,
     get_data_from_devices ds q st = (Raise e, st1) ->
     get_data_from_devices_wrapped ds q st = (Raise e, st1) /\
     lru_find (obj_id (self st1), ds, q) (devices_cache st1) = None) /\
  (forall e st1,
     get_data_from_all_devices py_str q st = (Raise e, st1) ->
     get_data_from_all_devices_wrapped py_str q st = (Raise e, st1) /\
     lru_find (obj_id (self st1), q) (all_devices_cache st1) = None) /\
  (forall ds' q',
     (ds', q') <> (ds, q) ->
     lru_find (obj_id (self st), ds', q') (devices_cache st) = None ->
     lru_find (obj_id (self st), ds', q')
       (devices_cache (snd (get_data_from_devices ds q st))) = None) /\
  (forall q',
     q' <> q ->
     lru_find (obj_id (self st), q') (all_devices_cache st) = None ->
     lru_find (obj_id (self st), q')
       (all_devices_cache (snd (get_data_from_all_devices py_str q st))) = None) /\
  ((length (devices_cache st) <= 10)%nat ->
   (length (devices_cache (snd (get_data_from_devices ds q st))) <= 10)%nat) /\
  ((length (all_devices_cache st) <= 10)%nat ->
   (length (all_devices_cache (snd (get_data_from_all_devices py_str q st))) <= 10)%nat).
Proof.
  split; [|split; [|split; [|split; [|split]]]].
  - intros e st1 H1.
    pose proof (obj_id_get_data_from_devices ds q st) as Hid. rewrite H1 in Hid.
    simpl in Hid. unfold get_data_from_devices, bind, get_self in H1.
    apply lru_cache_raise in H1 as (Hf & Hw & Hc); [|apply devices_cache_wrapped].
    split; [done|]. by rewrite Hid, Hc.
  - intros e st1 H1.
    pose proof (obj_id_get_data_from_all_devices py_str q st) as Hid. rewrite H1 in Hid.
    simpl in Hid. unfold get_data_from_all_devices, bind, get_self in H1.
    apply lru_cache_raise in H1 as (Hf & Hw & Hc); [|apply all_devices_cache_wrapped].
    split; [done|]. by rewrite Hid, Hc.
  - intros ds' q' Hne Hf. unfold get_data_from_devices, bind, get_self.
    apply lru_cache_other; try done; [apply devices_cache_wrapped|congruence].
  - intros q' Hne Hf. unfold get_data_from_all_devices, bind, get_self.
    apply lru_cache_other; try done; [apply all_devices_cache_wrapped|congruence].
  - intros Hl. unfold get_data_from_devices, bind, get_self.
    apply lru_cache_length; try done. apply devices_cache_wrapped.
  - intros Hl. unfold get_data_from_all_devices, bind, get_self.
    apply lru_cache_length; try done. apply all_devices_cache_wrapped.
Qed.

(** ** What the data methods return and send *)

(** X10. The undecorated single-device method does what the undecorated
    multi-device method does for the one device: same calls, same final
    state, same exception; its value is the entry recorded for the
    device, except that a body that is no dict (a JSON list, a number, the
    raw text) becomes None. *)
Theorem single_device_is_multi_device_of_one (d : string) (q : query) (st : state) :
  get_data_from_device_wrapped d q st =
  match get_data_from_devices_wrapped [d] q st with
  | (Ok data, st') =>
      (Ok (match default PyNone (data !! d) with
           | PyDict members => PyDict members
           | _ => PyNone
           end), st')
  | (Raise e, st') => (Raise e, st')
  end.
Proof.
  rewrite get_data_from_device_wrapped_eq, get_data_from_devices_wrapped_eq.
  destruct (check_query q) as [[]|e]; [|done].
  destruct (_manage_token st) as [[[]|e] st1]; [|done].
  simpl. unfold bind, get_self, ret. rewrite _get_request_closed.
  fold (data_request (self st1) d q).
  destruct (transport_closed (data_request (self st1) d q) st1) as [[rep|e] st2];
    [|done].
  rewrite lookup_insert_eq. simpl. by destruct (body_of rep).
Qed.

Lemma Forall_lru_touch {K V} `{EqDecision K} (P : K * V -> Prop) (key : K) (v : V)
    (c : lru K V) :
  lru_find key c = Some v -> Forall P c -> Forall P (lru_touch key v c).
Proof.
  intros Hf Hc. unfold lru_touch. rewrite Forall_forall in Hc.
  apply Forall_cons. split.
  - apply Hc. by apply lru_find_Some_in.
  - apply Forall_forall. intros kv Hin. apply Hc.
    apply list_elem_of_In, filter_In in Hin as [Hin _]. by apply list_elem_of_In.
Qed.

Lemma Forall_lru_store {K V} `{EqDecision K} (P : K * V -> Prop) (maxsize : nat)
    (key : K) (v : V) (c : lru K V) :
  P (key, v) -> Forall P c -> Forall P (lru_store maxsize key v c).
Proof.
  intros Hk Hc. unfold lru_store. destruct (lru_find key c); [done|].
  destruct (maxsize <=? length c)%nat; apply Forall_cons; split; try done.
  by apply Forall_removelast.
Qed.

Lemma dict_or_none_idem (v : value) : dict_or_none (dict_or_none v) = dict_or_none v.
Proof. by destruct v. Qed.

(** X11. [get_data_from_device] returns a dict or None, never the raw
    text or another JSON value, also when the answer comes from the
    store: the store holds only dicts and None, which is true of a new
    client and is kept by the method. *)
Theorem single_device_returns_dict_or_none
    (d : string) (q : query) (st : state) (me : SyconApi)
    (srv : nat -> request -> reply) :
  device_values_shaped (fresh me srv) /\
  (device_values_shaped st ->
   device_values_shaped (snd (get_data_from_device d q st)) /\
   forall v, fst (get_data_from_device d q st) = Ok v ->
             v = PyNone \/ exists members, v = PyDict members).
Proof.
  split; [apply Forall_nil_2|]. intros Hc.
  assert (forall v, dict_or_none v = v -> v = PyNone \/ exists members, v = PyDict members)
    as Hshape.
  { intros v Hv. destruct v; try done; eauto. }
  rewrite get_data_from_device_unfold. unfold lru_cache.
  destruct (lru_find _ (device_cache st)) as [v0|] eqn:Hf; simpl.
  - split; [by apply Forall_lru_touch|].
    intros v [= <-]. apply Hshape.
    apply lru_find_Some_in in Hf. unfold device_values_shaped in Hc.
    rewrite Forall_forall in Hc. apply (Hc _ Hf).
  - pose proof (device_cache_wrapped d q st) as Hg.
    rewrite get_data_from_device_wrapped_eq in *.
    unfold device_values_shaped in *.
    destruct (check_query q) as [[]|e]; [|done].
    destruct (_manage_token st) as [[[]|e] st1]; simpl in *; [|by rewrite Hg].
    destruct (transport_closed (data_request (self st1) d q) st1) as [[rep|e] st2];
      simpl in *; [|by rewrite Hg].
    split.
    + apply Forall_lru_store; [apply dict_or_none_idem|by rewrite Hg].
    + intros v [= <-]. apply Hshape, dict_or_none_idem.
Qed.

(** X12. The query parameters [_fill_get_data_args] leaves in the dict:
    [start] and [end] are the two instants as given; [headLimit] and
    [tailLimit] are each set, capped to 10000, when the limit is given and
    left as they were otherwise (both are set when both are given);
    [externalSensorId] likewise; no other key is touched. The dict a data
    method sends has no key but these five. *)
Theorem fill_get_data_args_contents
    (args : gmap string param) (s e : string) (head tail : option Z)
    (ext : option string) (q : query) :
  let filled := _fill_get_data_args args s e head tail ext in
  filled !! "start" = Some (PStr s) /\
  filled !! "end" = Some (PStr e) /\
  filled !! "headLimit"
    = match head with
      | Some h => Some (PInt (Z.min h 10000))
      | None => args !! "headLimit"
      end /\
  filled !! "tailLimit"
    = match tail with
      | Some t => Some (PInt (Z.min t 10000))
      | None => args !! "tailLimit"
      end /\
  filled !! "externalSensorId"
    = match ext with
      | Some x => Some (PStr x)
      | None => args !! "externalSensorId"
      end /\
  (forall k, k ∉ ["start"; "end"; "headLimit"; "tailLimit"; "externalSensorId"] ->
             filled !! k = args !! k) /\
  dom (query_args q) ⊆ {["start"; "end"; "headLimit"; "tailLimit"; "externalSensorId"]}.
Proof.
  assert (forall h, (if k_size_batch_limit <? h then k_size_batch_limit else h)
                    = Z.min h 10000) as Hcap.
  { intros h. unfold k_size_batch_limit. destruct (Z.ltb_spec 10000 h); lia. }
  assert (forall a s0 e0 hd tl ex k,
            k ∉ ["start"; "end"; "headLimit"; "tailLimit"; "externalSensorId"] ->
            _fill_get_data_args a s0 e0 hd tl ex !! k = a !! k) as Hother.
  { intros a s0 e0 hd tl ex k Hk. unfold _fill_get_data_args.
    assert (k <> "start" /\ k <> "end" /\ k <> "headLimit" /\ k <> "tailLimit" /\
            k <> "externalSensorId") as (? & ? & ? & ? & ?) by set_solver.
    destruct hd, tl, ex; by simplify_map_eq. }
  simpl. unfold _fill_get_data_args.
  split; [destruct head, tail, ext; by simplify_map_eq|].
  split; [destruct head, tail, ext; by simplify_map_eq|].
  split; [destruct head, tail, ext; simplify_map_eq; by rewrite ?Hcap|].
  split; [destruct head, tail, ext; simplify_map_eq; by rewrite ?Hcap|].
  split; [destruct head, tail, ext; by simplify_map_eq|].
  split; [apply Hother|].
  intros k Hk. apply elem_of_dom in Hk as [x Hx].
  destruct (decide (k ∈ ["start"; "end"; "headLimit"; "tailLimit"; "externalSensorId"]))
    as [Hin|Hout]; [set_solver|].
  unfold query_args in Hx. rewrite (Hother _ _ _ _ _ _ _ Hout) in Hx. done.
Qed.

(** ** What goes on the wire *)

Lemma same_owner_step (me0 : SyconApi) (st st' : state) :
  session_step st st' -> same_owner me0 (self st) -> same_owner me0 (self st').
Proof. intros [] (H1 & H2 & H3). unfold same_owner. repeat split; congruence. Qed.

Lemma ruled_pure (me0 : SyconApi) {A} (m : M A) :
  (forall st, sent (snd (m st)) = sent st) -> ruled me0 m.
Proof. intros H st _. exists []. rewrite H, app_nil_r. split; [done|apply Forall_nil_2]. Qed.

Lemma ruled_bind (me0 : SyconApi) {A B} (m : M A) (k : A -> M B) :
  session_only m -> ruled me0 m -> (forall a, ruled me0 (k a)) -> ruled me0 (bind m k).
Proof.
  intros Hs Hm Hk st Ho. unfold bind. specialize (Hs st).
  destruct (Hm st Ho) as (l1 & Hl1 & Hw1).
  destruct (m st) as [[a|e] st1]; simpl in *; [|by exists l1].
  destruct (Hk a st1 (same_owner_step _ _ _ Hs Ho)) as (l2 & Hl2 & Hw2).
  exists (l1 ++ l2). split; [by rewrite Hl2, Hl1, app_assoc|by apply Forall_app].
Qed.

Lemma ruled_bind_self (me0 : SyconApi) {B} (k : SyconApi -> M B) :
  (forall me, same_owner me0 me -> ruled me0 (k me)) -> ruled me0 (bind get_self k).
Proof. intros Hk st Ho. unfold bind, get_self. by apply Hk. Qed.

Lemma wire_ok_attempts_of (me0 : SyconApi) (k : nat) (req : request) :
  (k <= 3)%nat -> req_timeout req = 30 ->
  (req = login_request me0 \/
   (req_method req = GET /\ req_data req = None /\
    (exists t, req_headers req = _format_header_token t ∅) /\
    is_route (_server me0) (req_url req))) ->
  Forall (wire_ok me0) (attempts_of k req).
Proof.
  intros Hk Ht Hreq. unfold attempts_of. apply Forall_forall. intros a Hin.
  apply list_elem_of_In, in_map_iff in Hin as (i & <- & Hi).
  apply in_seq in Hi. unfold wire_ok. simpl. split; [lia|]. by split.
Qed.

Lemma ruled_transport_closed (me0 : SyconApi) (req : request) :
  req_timeout req = 30 ->
  (req = login_request me0 \/
   (req_method req = GET /\ req_data req = None /\
    (exists t, req_headers req = _format_header_token t ∅) /\
    is_route (_server me0) (req_url req))) ->
  ruled me0 (transport_closed req).
Proof.
  intros Ht Hreq st _. destruct (transport_closed_bounded req st) as (k & Hk & ->).
  exists (attempts_of k req). split; [done|]. apply wire_ok_attempts_of; (lia || done).
Qed.

Lemma ruled__get_request (me0 : SyconApi) (t : option string) (url : string)
    (args : option (gmap string param)) :
  is_route (_server me0) url ->
  ruled me0 (_get_request (_format_header_token t ∅) url args).
Proof.
  intros Hr st Ho. rewrite _get_request_closed.
  apply ruled_transport_closed; [done| |done]. right. simpl. eauto 10.
Qed.

Lemma ruled_authenticate (me0 : SyconApi) : ruled me0 authenticate.
Proof.
  unfold authenticate. apply ruled_bind_self. intros me (Hs & Hu & Hp).
  apply ruled_bind; [eauto with session| |].
  - intros st Ho. rewrite _post_request_closed.
    apply ruled_transport_closed; [done| |done]. left.
    unfold login_request. by rewrite Hs, Hu, Hp.
  - intros rep. destruct (status_code rep =? 200); by apply ruled_pure.
Qed.

Lemma ruled_renew_token (me0 : SyconApi) : ruled me0 renew_token.
Proof.
  unfold renew_token. apply ruled_bind_self. intros me (Hs & Hu & Hp).
  apply ruled_bind; [eauto with session| |].
  - apply ruled__get_request. rewrite Hs. unfold is_route. auto.
  - intros rep. destruct (status_code rep =? 200); [|by apply ruled_pure].
    destruct (headers rep !! "Authorization"); by apply ruled_pure.
Qed.

Lemma ruled_check_token (me0 : SyconApi) : ruled me0 check_token.
Proof.
  unfold check_token. apply ruled_bind_self. intros me (Hs & Hu & Hp).
  apply ruled_bind; [eauto with session| |].
  - apply ruled__get_request. rewrite Hs. unfold is_route. auto.
  - intros rep. by apply ruled_pure.
Qed.

Lemma ruled__manage_token (me0 : SyconApi) : ruled me0 _manage_token.
Proof.
  unfold _manage_token. apply ruled_bind_self. intros me _.
  destruct (_token me); [|apply ruled_authenticate].
  apply ruled_bind; [eauto with session|apply ruled_check_token|].
  intros valid. destruct (negb valid); [apply ruled_renew_token|by apply ruled_pure].
Qed.

Lemma ruled_get_devices_list (me0 : SyconApi) : ruled me0 get_devices_list.
Proof.
  unfold get_devices_list. apply ruled_bind_self. intros me (Hs & Hu & Hp).
  apply ruled_bind; [eauto with session|apply ruled__manage_token|]. intros _.
  apply ruled_bind_self. intros me' _.
  apply ruled_bind; [eauto with session| |].
  - apply ruled__get_request. rewrite Hs. unfold is_route. auto.
  - intros rep. destruct (status_code rep =? 200); [|by apply ruled_pure].
    destruct (json rep); by apply ruled_pure.
Qed.

Lemma ruled_validate_query (me0 : SyconApi) (q : query) : ruled me0 (validate_query q).
Proof. apply ruled_pure. intros st. by rewrite validate_query_eq. Qed.

Lemma ruled_get_data_from_device_wrapped (me0 : SyconApi) (d : string) (q : query) :
  ruled me0 (get_data_from_device_wrapped d q).
Proof.
  unfold get_data_from_device_wrapped.
  apply ruled_bind; [eauto with session|apply ruled_validate_query|]. intros _.
  apply ruled_bind; [eauto with session|apply ruled__manage_token|]. intros _.
  apply ruled_bind_self. intros me (Hs & Hu & Hp).
  apply ruled_bind; [eauto with session| |].
  - apply ruled__get_request. rewrite Hs. unfold is_route. eauto 10.
  - intros rep. by apply ruled_pure.
Qed.

Lemma ruled_devices_loop (me0 : SyconApi) (q : query) args (ds : list string) :
  forall data, ruled me0 (devices_loop ds q args data).
Proof.
  induction ds as [|d ds IH]; intros data; simpl; [by apply ruled_pure|].
  apply ruled_bind_self. intros me (Hs & Hu & Hp).
  apply ruled_bind; [eauto with session| |intros rep; apply IH].
  apply ruled__get_request. rewrite Hs. unfold is_route. eauto 10.
Qed.

Lemma ruled_all_devices_loop (me0 : SyconApi) py_str (q : query) args
    (devices : list value) :
  forall data, ruled me0 (all_devices_loop py_str devices q args data).
Proof.
  induction devices as [|v devices IH]; intros data; simpl; [by apply ruled_pure|].
  apply ruled_bind; [eauto with session|by apply ruled_pure|]. intros has_id.
  destruct (negb has_id); [apply IH|].
  apply ruled_bind; [eauto with session|by apply ruled_pure|]. intros id.
  apply ruled_bind_self. intros me (Hs & Hu & Hp).
  apply ruled_bind; [eauto with session| |intros rep; apply IH].
  apply ruled__get_request. rewrite Hs. unfold is_route. eauto 10.
Qed.

Lemma ruled_lru_cache (me0 : SyconApi) {K V} `{EqDecision K} (get : state -> lru K V)
    (set : lru K V -> state -> state) (key : state -> K) (body : M V) :
  (forall c st, sent (set c st) = sent st) ->
  ruled me0 body ->
  ruled me0 (fun st => lru_cache 10 get set (key st) body st).
Proof.
  intros Hset Hb st Ho. unfold lru_cache. destruct (lru_find _ _); simpl.
  - exists []. rewrite Hset, app_nil_r. split; [done|apply Forall_nil_2].
  - destruct (Hb st Ho) as (l & Hl & Hw).
    destruct (body st) as [[v|e] st1]; simpl in *; exists l; by rewrite ?Hset.
Qed.

Lemma same_owner_refl (me : SyconApi) : same_owner me me.
Proof. done. Qed.

(** X13. Whatever the service answers, every call a method puts on the
    wire is an attempt numbered 1 to 3 with a time-out of 30 and is
    either the login POST of the client or a body-less GET, with
    [Authorization: Bearer ...] as its only header, to the renew, check,
    devices or data route of the client's server. So the user name and
    the password travel in the login request only, and no method calls
    another host or another route. *)
Theorem wire_discipline
    (py_str : value -> string) (d : string) (ds : list string) (q : query) (st : state) :
  on_the_rules authenticate st /\
  on_the_rules renew_token st /\
  on_the_rules check_token st /\
  on_the_rules _manage_token st /\
  on_the_rules get_devices_list st /\
  on_the_rules (get_data_from_device d q) st /\
  on_the_rules (get_data_from_devices ds q) st /\
  on_the_rules (get_data_from_all_devices py_str q) st.
Proof.
  pose proof (same_owner_refl (self st)) as Ho.
  split; [by apply ruled_authenticate|].
  split; [by apply ruled_renew_token|].
  split; [by apply ruled_check_token|].
  split; [by apply ruled__manage_token|].
  split; [by apply ruled_get_devices_list|].
  split; [|split].
  - apply (ruled_lru_cache (self st) device_cache set_device_cache
             (fun st => (obj_id (self st), d, q))); [done| |done].
    apply ruled_get_data_from_device_wrapped.
  - apply (ruled_lru_cache (self st) devices_cache set_devices_cache
             (fun st => (obj_id (self st), ds, q))); [done| |done].
    unfold get_data_from_devices_wrapped.
    apply ruled_bind; [eauto with session|apply ruled_validate_query|]. intros _.
    apply ruled_bind; [eauto with session|apply ruled__manage_token|]. intros _.
    apply ruled_devices_loop.
  - apply (ruled_lru_cache (self st) all_devices_cache set_all_devices_cache
             (fun st => (obj_id (self st), q))); [done| |done].
    unfold get_data_from_all_devices_wrapped, list_for_all_devices.
    apply ruled_bind; [|apply ruled_bind|intros devices].
    + unfold list_for_all_devices. session_steps.
    + eauto with session.
    + apply ruled_validate_query.
    + intros _. apply ruled_bind; [eauto with session|apply ruled__manage_token|].
      intros _. apply ruled_get_devices_list.
    + apply ruled_bind; [eauto with session|by apply ruled_pure|]. intros items.
      apply ruled_all_devices_loop.
Qed.

(** ** The stores as least-recently-used lists *)

Section LruOrder.
Context {K V : Type} `{EqDecision K}.
Implicit Types (c : lru K V) (key : K) (v : V).

Lemma lru_find_None_keys key c : lru_find key c = None <-> key ∉ fst <$> c.
Proof.
  rewrite lru_find_None. induction c as [|[k v] c IH]; simpl.
  - split; [intros _; apply not_elem_of_nil|intros _; apply Forall_nil_2].
  - rewrite Forall_cons, not_elem_of_cons, IH. simpl.
    split; intros [Hk Hc]; (split; [|done]); intros E; by apply Hk.
Qed.

Lemma keys_filter_subset (f : K * V -> bool) c k :
  k ∈ fst <$> List.filter f c -> k ∈ fst <$> c.
Proof.
  intros Hin. apply list_elem_of_fmap in Hin as (kv & -> & Hin).
  apply list_elem_of_fmap. exists kv. split; [done|].
  apply list_elem_of_In. apply list_elem_of_In, filter_In in Hin. tauto.
Qed.

Lemma keys_distinct_filter (f : K * V -> bool) c :
  keys_distinct c -> keys_distinct (List.filter f c).
Proof.
  unfold keys_distinct. induction c as [|kv c IH]; simpl; [done|].
  intros Hnd. apply NoDup_cons in Hnd as [Hk Hnd]. destruct (f kv); simpl; [|by apply IH].
  apply NoDup_cons. split; [|by apply IH]. intros Hin. apply Hk.
  by apply keys_filter_subset in Hin.
Qed.

Lemma keys_distinct_touch key v c : keys_distinct c -> keys_distinct (lru_touch key v c).
Proof.
  intros Hc. unfold lru_touch, keys_distinct. simpl. apply NoDup_cons. split.
  - apply lru_find_None_keys, filter_other_None.
  - by apply keys_distinct_filter.
Qed.

Lemma keys_removelast_subset c k : k ∈ fst <$> removelast c -> k ∈ fst <$> c.
Proof.
  induction c as [|x [|y c] IH]; simpl in *; [done| |].
  - intros Hin. by apply elem_of_nil in Hin.
  - intros Hin. apply elem_of_cons in Hin as [->|Hin]; [left|right; by apply IH].
Qed.

Lemma keys_distinct_removelast c : keys_distinct c -> keys_distinct (removelast c).
Proof.
  unfold keys_distinct. induction c as [|x [|y c] IH]; simpl in *;
    [done|intros _; apply NoDup_nil_2|].
  intros Hnd. apply NoDup_cons in Hnd as [Hk Hnd]. apply NoDup_cons. split; [|by apply IH].
  intros Hin. apply Hk. by apply (keys_removelast_subset (y :: c)).
Qed.

Lemma keys_distinct_store maxsize key v c :
  keys_distinct c -> keys_distinct (lru_store maxsize key v c).
Proof.
  intros Hc. unfold lru_store. destruct (lru_find key c) eqn:Hf; [done|].
  destruct (maxsize <=? length c)%nat; unfold keys_distinct; simpl; apply NoDup_cons.
  - split; [|by apply keys_distinct_removelast].
    apply lru_find_None_keys. by apply lru_find_removelast.
  - split; [|done]. by apply lru_find_None_keys.
Qed.

Lemma lru_find_app_other key k v c :
  key <> k -> lru_find key (c ++ [(k, v)]) = lru_find key c.
Proof.
  intros Hne. induction c as [|[k' v'] c IH]; simpl.
  - rewrite lru_find_cons. by rewrite bool_decide_eq_false_2.
  - rewrite !lru_find_cons. by rewrite IH.
Qed.

Lemma lru_find_touch_same key v c key' :
  lru_find key c = Some v -> lru_find key' (lru_touch key v c) = lru_find key' c.
Proof.
  intros Hf. unfold lru_touch. rewrite lru_find_cons.
  destruct (bool_decide_reflect (key = key')) as [<-|Hne]; [done|].
  by apply lru_find_filter_other.
Qed.

Variables (get : state -> lru K V) (set : lru K V -> state -> state).
Hypothesis get_set : forall c st, get (set c st) = c.
Variable user_function : M V.
Hypothesis user_function_get : forall st, get (snd (user_function st)) = get st.

Lemma lru_cache_distinct maxsize key (st : state) :
  keys_distinct (get st) ->
  keys_distinct (get (snd (lru_cache maxsize get set key user_function st))).
Proof.
  intros Hc. unfold lru_cache. destruct (lru_find key (get st)) as [v0|]; simpl.
  - rewrite get_set. by apply keys_distinct_touch.
  - pose proof (user_function_get st) as Hg.
    destruct (user_function st) as [[v'|e] st']; simpl in *; [|by rewrite Hg].
    rewrite get_set. apply keys_distinct_store. by rewrite Hg.
Qed.

(** The store after a call that returned. *)
Lemma lru_cache_store_after maxsize key v (st st1 : state) :
  lru_cache maxsize get set key user_function st = (Ok v, st1) ->
  get st1 =
  match lru_find key (get st) with
  | Some _ => lru_touch key v (get st)
  | None =>
      if (maxsize <=? length (get st))%nat then (key, v) :: removelast (get st)
      else (key, v) :: get st
  end.
Proof.
  unfold lru_cache. destruct (lru_find key (get st)) as [v0|] eqn:Hf.
  - intros [= -> <-]. by rewrite get_set.
  - pose proof (user_function_get st) as Hg.
    destruct (user_function st) as [[v'|e] st']; [|done]. simpl in Hg.
    intros [= -> <-]. rewrite get_set, Hg. unfold lru_store. by rewrite Hf.
Qed.
End LruOrder.

Lemma caches_wf_session_step (st st' : state) :
  session_step st st' -> caches_wf st -> caches_wf st'.
Proof.
  intros [] H. unfold caches_wf.
  by rewrite step_device_cache0, step_devices_cache0, step_all_devices_cache0.
Qed.

Lemma other_caches_get_data_from_device (d : string) (q : query) (st : state) :
  devices_cache (snd (get_data_from_device d q st)) = devices_cache st /\
  all_devices_cache (snd (get_data_from_device d q st)) = all_devices_cache st.
Proof.
  rewrite get_data_from_device_unfold. unfold lru_cache. destruct (lru_find _ _); [done|].
  pose proof (session_only_get_data_from_device_wrapped d q st) as Hs.
  destruct (get_data_from_device_wrapped d q st) as [[v|e] st']; simpl in *;
    by rewrite (step_devices_cache _ _ Hs), (step_all_devices_cache _ _ Hs).
Qed.

Lemma other_caches_get_data_from_devices (ds : list string) (q : query) (st : state) :
  device_cache (snd (get_data_from_devices ds q st)) = device_cache st /\
  all_devices_cache (snd (get_data_from_devices ds q st)) = all_devices_cache st.
Proof.
  unfold get_data_from_devices, bind, get_self, lru_cache. destruct (lru_find _ _); [done|].
  pose proof (session_only_get_data_from_devices_wrapped ds q st) as Hs.
  destruct (get_data_from_devices_wrapped ds q st) as [[v|e] st']; simpl in *;
    by rewrite (step_device_cache _ _ Hs), (step_all_devices_cache _ _ Hs).
Qed.

Lemma other_caches_get_data_from_all_devices py_str (q : query) (st : state) :
  device_cache (snd (get_data_from_all_devices py_str q st)) = device_cache st /\
  devices_cache (snd (get_data_from_all_devices py_str q st)) = devices_cache st.
Proof.
  unfold get_data_from_all_devices, bind, get_self, lru_cache.
  destruct (lru_find _ _); [done|].
  pose proof (session_only_get_data_from_all_devices_wrapped py_str q st) as Hs.
  destruct (get_data_from_all_devices_wrapped py_str q st) as [[v|e] st']; simpl in *;
    by rewrite (step_device_cache _ _ Hs), (step_devices_cache _ _ Hs).
Qed.

(** X14. Each of the three stores holds at most 10 entries and no key
    twice: this is true of a new client and every method keeps it,
    whatever the service answers and whether the call returns or raises.
    The session methods and the device listing do not touch the stores,
    and a data method touches only its own. *)
Theorem caches_stay_well_formed
    (py_str : value -> string) (d : string) (ds : list string) (q : query)
    (st : state) (me : SyconApi) (srv : nat -> request -> reply) :
  caches_wf (fresh me srv) /\
  (caches_wf st ->
   caches_wf (snd (authenticate st)) /\
   caches_wf (snd (renew_token st)) /\
   caches_wf (snd (check_token st)) /\
   caches_wf (snd (_manage_token st)) /\
   caches_wf (snd (get_devices_list st)) /\
   caches_wf (snd (get_data_from_device d q st)) /\
   caches_wf (snd (get_data_from_devices ds q st)) /\
   caches_wf (snd (get_data_from_all_devices py_str q st))).
Proof.
  split.
  { unfold caches_wf, keys_distinct. simpl. repeat split; (lia || apply NoDup_nil_2). }
  intros Hwf.
  split; [by apply (caches_wf_session_step _ _ (session_only_authenticate st))|].
  split; [by apply (caches_wf_session_step _ _ (session_only_renew_token st))|].
  split; [by apply (caches_wf_session_step _ _ (session_only_check_token st))|].
  split; [by apply (caches_wf_session_step _ _ (session_only__manage_token st))|].
  split; [by apply (caches_wf_session_step _ _ (session_only_get_devices_list st))|].
  destruct Hwf as ((Hl1 & Hd1) & (Hl2 & Hd2) & (Hl3 & Hd3)).
  split; [|split].
  - destruct (other_caches_get_data_from_device d q st) as [E2 E3].
    unfold caches_wf. rewrite E2, E3. split; [|done].
    rewrite get_data_from_device_unfold. split.
    + apply lru_cache_length; try done. apply device_cache_wrapped.
    + apply lru_cache_distinct; try done. apply device_cache_wrapped.
  - destruct (other_caches_get_data_from_devices ds q st) as [E1 E3].
    unfold caches_wf. rewrite E1, E3. split; [done|]. split; [|done].
    unfold get_data_from_devices, bind, get_self. split.
    + apply lru_cache_length; try done. apply devices_cache_wrapped.
    + apply lru_cache_distinct; try done. apply devices_cache_wrapped.
  - destruct (other_caches_get_data_from_all_devices py_str q st) as [E1 E2].
    unfold caches_wf. rewrite E1, E2. split; [done|]. split; [done|].
    unfold get_data_from_all_devices, bind, get_self. split.
    + apply lru_cache_length; try done. apply all_devices_cache_wrapped.
    + apply lru_cache_distinct; try done. apply all_devices_cache_wrapped.
Qed.

(** X15. The order of the single-device store is the order of use. A
    call answered from the store moves its entry to the front and
    changes no lookup. A call that runs the method and returns puts its
    entry in front; when the store already holds 10 entries the last
    one, the least recently used, is dropped: its key is no longer found,
    and every other key is found as before. *)
Theorem store_drops_least_recently_used
    (d : string) (q : query) (st st1 : state) (v : value) :
  get_data_from_device d q st = (Ok v, st1) ->
  (forall v0 key',
     lru_find (obj_id (self st), d, q) (device_cache st) = Some v0 ->
     v = v0 /\
     device_cache st1 = lru_touch (obj_id (self st), d, q) v (device_cache st) /\
     lru_find key' (device_cache st1) = lru_find key' (device_cache st)) /\
  (lru_find (obj_id (self st), d, q) (device_cache st) = None ->
   (length (device_cache st) < 10)%nat ->
   device_cache st1 = ((obj_id (self st), d, q), v) :: device_cache st) /\
  (forall older k_old v_old key',
     lru_find (obj_id (self st), d, q) (device_cache st) = None ->
     device_cache st = older ++ [(k_old, v_old)] ->
     length (device_cache st) = 10%nat ->
     keys_distinct (device_cache st) ->
     device_cache st1 = ((obj_id (self st), d, q), v) :: older /\
     lru_find k_old (device_cache st1) = None /\
     (key' <> k_old -> key' <> (obj_id (self st), d, q) ->
      lru_find key' (device_cache st1) = lru_find key' (device_cache st))).
Proof.
  intros H1. pose proof H1 as H2. rewrite get_data_from_device_unfold in H1, H2.
  apply (lru_cache_store_after device_cache set_device_cache) in H1;
    [|done|apply device_cache_wrapped].
  split; [|split].
  - intros v0 key' Hf. rewrite Hf in H1.
    assert (v = v0) as ->.
    { unfold lru_cache in H2. rewrite Hf in H2. by injection H2 as <- _. }
    split; [done|]. split; [done|]. rewrite H1. by apply lru_find_touch_same.
  - intros Hf Hl. rewrite Hf in H1.
    destruct (Nat.leb_spec 10 (length (device_cache st))); [lia|done].
  - intros older k_old v_old key' Hf Hc Hl Hd. rewrite Hf, Hl in H1. simpl in H1.
    rewrite Hc, removelast_last in H1.
    assert (k_old <> (obj_id (self st), d, q)) as Hne.
    { intros ->. rewrite Hc in Hf. apply lru_find_None_keys in Hf. apply Hf.
      rewrite fmap_app. apply elem_of_app. right. simpl. left. }
    assert (lru_find k_old older = None) as Hold.
    { apply lru_find_None_keys. rewrite Hc in Hd. unfold keys_distinct in Hd.
      rewrite fmap_app in Hd. apply NoDup_app in Hd as (_ & Hd & _).
      intros Hin. apply (Hd _ Hin). simpl. left. }
    split; [done|]. split.
    + rewrite H1, lru_find_cons. by rewrite bool_decide_eq_false_2.
    + intros Hk1 Hk2. rewrite H1, Hc, lru_find_cons.
      rewrite bool_decide_eq_false_2 by done. by rewrite lru_find_app_other.
Qed.

(** ** URLs, listings that are no list, and the cost of a listing *)

Lemma append_cancel_r (u v w : string) : u +:+ w = v +:+ w -> u = v.
Proof.
  revert v. induction u as [|c u IH]; intros [|c' v] H; simpl in *.
  - done.
  - apply (f_equal String.length) in H. simpl in H. rewrite append_length in H. lia.
  - apply (f_equal String.length) in H. simpl in H. rewrite append_length in H. lia.
  - injection H as -> H. f_equal. by apply IH.
Qed.

Lemma field_value_no_slash (f : SyconApiDataFields) : has_char "/" (field_value f) = false.
Proof. by destruct f. Qed.

Lemma field_value_inj (f f' : SyconApiDataFields) : field_value f = field_value f' -> f = f'.
Proof. destruct f, f'; simpl; intros H; (reflexivity || discriminate H). Qed.

Lemma slash_split (d d' f f' : string) :
  has_char "/" f = false -> has_char "/" f' = false ->
  d +:+ "/" +:+ f = d' +:+ "/" +:+ f' -> d = d' /\ f = f'.
Proof.
  intros Hf Hf'. revert d'. induction d as [|c d IH]; intros [|c' d'] H; simpl in *.
  - by injection H as ->.
  - injection H as <- H. rewrite H, has_char_append in Hf. simpl in Hf.
    by rewrite orb_true_r in Hf.
  - injection H as -> H. rewrite <- H, has_char_append in Hf'. simpl in Hf'.
    by rewrite orb_true_r in Hf'.
  - injection H as -> H. destruct (IH d' H) as [-> ->]. done.
Qed.

(** X16. The URL of a data request determines the device and the field:
    two data requests of a client go to the same URL only when they name
    the same device identifier and the same field. The identifier is put
    into the path as it is, slashes included. *)
Theorem data_url_determines_device_and_field
    (me : SyconApi) (d d' : string) (q q' : query) :
  req_url (data_request me d q)
  = _server me +:+ "/api/devices/" +:+ d +:+ "/" +:+ field_value (field q)
    +:+ "/data/raw" /\
  (req_url (data_request me d q) = req_url (data_request me d' q') ->
   d = d' /\ field q = field q').
Proof.
  split; [done|]. unfold data_request, SyconApiV1Route.DATA. simpl. intros H.
  apply (inj (String.append (_server me))) in H.
  apply (inj (String.append "/api/devices/")) in H.
  change (d +:+ "/" +:+ field_value (field q) +:+ "/data/raw"
          = d' +:+ "/" +:+ field_value (field q') +:+ "/data/raw") in H.
  rewrite <- !(append_assoc _ (field_value _)), <- !append_assoc in H.
  apply append_cancel_r in H.
  rewrite !append_assoc in H.
  apply slash_split in H as [-> H]; [|apply field_value_no_slash..].
  split; [done|]. by apply field_value_inj.
Qed.

Lemma all_devices_loop_keys_without_id py_str (q : query) args
    (members : list (string * value)) :
  Forall (fun kv => str_contains "id" (fst kv) = false) members ->
  forall data st,
    all_devices_loop py_str (List.map (fun kv => PyStr (fst kv)) members) q args data st
    = (Ok data, st).
Proof.
  induction 1 as [|kv members Hkv _ IH]; intros data st; [done|].
  simpl. unfold bind, lift. simpl. rewrite Hkv. simpl. apply IH.
Qed.

Lemma all_devices_loop_key_with_id py_str (q : query) args
    (pre post : list (string * value)) (k : string) (v : value) :
  Forall (fun kv => str_contains "id" (fst kv) = false) pre ->
  str_contains "id" k = true ->
  forall data st,
    all_devices_loop py_str
      (List.map (fun kv => PyStr (fst kv)) (pre ++ (k, v) :: post)) q args data st
    = (Raise AttributeError, st).
Proof.
  intros Hpre Hk. induction Hpre as [|kv pre Hkv _ IH]; intros data st.
  - simpl. unfold bind, lift. simpl. by rewrite Hk.
  - simpl. unfold bind, lift. simpl. rewrite Hkv. simpl. apply IH.
Qed.

Lemma get_data_from_all_devices_miss py_str (q : query) (st : state) :
  lru_find (obj_id (self st), q) (all_devices_cache st) = None ->
  get_data_from_all_devices py_str q st =
  match get_data_from_all_devices_wrapped py_str q st with
  | (Ok v, st') =>
      (Ok v, set_all_devices_cache
               (lru_store 10 (obj_id (self st), q) v (all_devices_cache st')) st')
  | (Raise e, st') => (Raise e, st')
  end.
Proof.
  intros H. unfold get_data_from_all_devices, bind, get_self, lru_cache. simpl.
  by rewrite H.
Qed.

Lemma get_data_from_all_devices_wrapped_listed py_str (q : query) (st st1 : state)
    (v : value) :
  list_for_all_devices q st = (Ok v, st1) ->
  get_data_from_all_devices_wrapped py_str q st =
  match py_iter v with
  | Ok items => all_devices_loop py_str items q (query_args q) ∅ st1
  | Raise e => (Raise e, st1)
  end.
Proof.
  intros H. unfold get_data_from_all_devices_wrapped, bind at 1. rewrite H.
  unfold bind, lift. by destruct (py_iter v).
Qed.

(** X17. [get_data_from_all_devices] when the device listing is no list.
    The method does not look at what [get_devices_list] returned before
    looping over it. When the listing is None (a status other than 200,
    or a JSON null) the call raises TypeError. When it is a JSON object
    the loop runs over its keys: if no key contains the text [id] the
    call returns the empty mapping without any data request and stores
    it; at the first key that contains [id] it raises AttributeError. In
    each case nothing goes on the wire after the listing. *)
Theorem all_devices_listing_that_is_no_list
    (py_str : value -> string) (q : query) (st st1 : state) :
  lru_find (obj_id (self st), q) (all_devices_cache st) = None ->
  (list_for_all_devices q st = (Ok PyNone, st1) ->
   get_data_from_all_devices py_str q st = (Raise TypeError, st1)) /\
  (forall members,
     list_for_all_devices q st = (Ok (PyDict members), st1) ->
     Forall (fun kv => str_contains "id" (fst kv) = false) members ->
     fst (get_data_from_all_devices py_str q st) = Ok ∅ /\
     sent (snd (get_data_from_all_devices py_str q st)) = sent st1 /\
     lru_find (obj_id (self st), q)
       (all_devices_cache (snd (get_data_from_all_devices py_str q st))) = Some ∅) /\
  (forall pre k v post,
     list_for_all_devices q st = (Ok (PyDict (pre ++ (k, v) :: post)), st1) ->
     Forall (fun kv => str_contains "id" (fst kv) = false) pre ->
     str_contains "id" k = true ->
     get_data_from_all_devices py_str q st = (Raise AttributeError, st1)).
Proof.
  intros Hmiss. rewrite (get_data_from_all_devices_miss py_str q st Hmiss).
  pose proof (all_devices_cache_wrapped py_str q st) as Hg.
  split; [|split].
  - intros Hl. by rewrite (get_data_from_all_devices_wrapped_listed _ _ _ _ _ Hl).
  - intros members Hl Hm.
    rewrite (get_data_from_all_devices_wrapped_listed _ _ _ _ _ Hl) in *.
    simpl in *.
    rewrite (all_devices_loop_keys_without_id py_str q _ members Hm) in *.
    simpl in *. split; [done|]. split; [done|].
    unfold lru_store. rewrite Hg, Hmiss.
    destruct (10 <=? length (all_devices_cache st))%nat; apply lru_find_front.
  - intros pre k v post Hl Hpre Hk.
    rewrite (get_data_from_all_devices_wrapped_listed _ _ _ _ _ Hl). simpl.
    by rewrite (all_devices_loop_key_with_id py_str q _ pre post k v Hpre Hk).
Qed.

Lemma _manage_token_valid (st : state) (t : string) (rep : Response) :
  _token (self st) = Some t ->
  cloud st (length (sent st)) (check_request (self st)) = Reply rep ->
  status_code rep = 200 ->
  _manage_token st = (Ok tt, logged (attempts_of 1 (check_request (self st))) st).
Proof.
  intros Ht Hc H200. destruct (status_200_no_error rep H200) as [H5 H4].
  rewrite _manage_token_eq, Ht, check_token_eq.
  rewrite transport_closed_first; rewrite Hc; unfold settle; rewrite H5, H4; [|done].
  by rewrite H200.
Qed.

(** X18. What a listing for [get_data_from_all_devices] costs a client
    that holds a valid token. The method calls [_manage_token] and then
    [get_devices_list], which calls [_manage_token] again: with valid
    parameters and a service that answers every token check with 200,
    the token is checked twice, each time in one attempt, before the one
    request for the devices (at most three attempts); nothing else is
    sent, and the token is the one held before. *)
Theorem all_devices_listing_checks_token_twice (q : query) (st : state) (t : string) :
  _token (self st) = Some t ->
  check_query q = Ok tt ->
  (forall n, exists rep,
     cloud st n (check_request (self st)) = Reply rep /\ status_code rep = 200) ->
  exists k, (1 <= k <= 3)%nat /\
    sent (snd (list_for_all_devices q st)) =
    sent st ++ attempts_of 1 (check_request (self st))
            ++ attempts_of 1 (check_request (self st))
            ++ attempts_of k (devices_request (self st)) /\
    _token (self (snd (list_for_all_devices q st))) = Some t.
Proof.
  intros Ht Hq Hc.
  unfold list_for_all_devices, bind. rewrite validate_query_eq, Hq.
  destruct (Hc (length (sent st))) as (rep1 & Hr1 & H1).
  rewrite (_manage_token_valid st t rep1 Ht Hr1 H1).
  set (st1 := logged (attempts_of 1 (check_request (self st))) st).
  destruct (Hc (length (sent st1))) as (rep2 & Hr2 & H2).
  rewrite get_devices_list_eq.
  rewrite (_manage_token_valid st1 t rep2 Ht Hr2 H2).
  set (st2 := logged (attempts_of 1 (check_request (self st1))) st1).
  destruct (sent_transport_closed (devices_request (self st2)) st2) as (k & Hk & Hs).
  pose proof (self_transport_closed (devices_request (self st2)) st2) as Hme.
  exists k. split; [done|].
  destruct (transport_closed (devices_request (self st2)) st2) as [[rep|e] st3];
    simpl in *.
  - assert (sent st3 = sent st ++ attempts_of 1 (check_request (self st))
                       ++ attempts_of 1 (check_request (self st))
                       ++ attempts_of k (devices_request (self st))) as Hsent.
    { rewrite Hs. simpl. by rewrite <- !app_assoc. }
    assert (_token (self st3) = Some t) as Htok by (by rewrite Hme).
    destruct (status_code rep =? 200); [|done]. by destruct (json rep).
  - split; [|by rewrite Hme]. rewrite Hs. simpl. by rewrite <- !app_assoc.
Qed.

(** ** The quickstart script *)

Lemma prefix_append (p s : string) :
  String.prefix p s = true <-> exists r, s = p +:+ r.
Proof.
  revert s. induction p as [|a p IH]; intros s.
  - split; [by exists s|by destruct s].
  - destruct s as [|b s]; simpl; [split; [done|by intros [r Hr]]|].
    destruct (ascii_dec a b) as [->|Hne].
    + rewrite IH. split; intros [r Hr]; exists r; [by rewrite Hr|by injection Hr].
    + split; [done|]. intros [r Hr]. by injection Hr as <- _.
Qed.

(** X19. The token the quickstart script keeps from an [Authorization]
    header. The expression never fails: [split(" ", 1)[1]] is only
    evaluated on a text that starts with [Bearer ], which holds a space.
    A header that starts with [Bearer ] loses that prefix and nothing
    else, so the header the script sends afterwards is the one it got;
    any other header is kept whole, and is sent with [Bearer ] in front. *)
Theorem quickstart_token_round_trip (auth : string) :
  exists jwt, jwt_of auth = Some jwt /\
    (forall payload, auth = "Bearer " +:+ payload ->
       jwt = payload /\ quickstart_authorization jwt = auth) /\
    (String.prefix "Bearer " auth = false ->
       jwt = auth /\ quickstart_authorization jwt = "Bearer " +:+ auth).
Proof.
  unfold jwt_of. destruct (String.prefix "Bearer " auth) eqn:Hp.
  - apply prefix_append in Hp as [r ->]. exists r. split; [done|].
    split; [|done]. intros payload H.
    apply (inj (String.append "Bearer ")) in H as <-. done.
  - exists auth. split; [done|]. split; [|done]. intros payload ->.
    assert (String.prefix "Bearer " ("Bearer " +:+ payload) = true) as H
      by (apply prefix_append; by exists payload).
    congruence.
Qed.

(** ** The limits on the wire *)

(** The arguments of a data request hold each limit that is set, capped,
    and no limit that is not set. *)
Lemma query_args_limits (q : query) :
  query_args q !! "headLimit" = capped (head_limit q) /\
  query_args q !! "tailLimit" = capped (tail_limit q).
Proof.
  unfold query_args, _fill_get_data_args, capped, k_size_batch_limit.
  destruct (head_limit q) as [h|], (tail_limit q) as [t|], (external_sensor_id q);
    simplify_map_eq; split; try done;
    repeat match goal with
           | |- context [(10000 <? ?x)] => destruct (Z.ltb_spec 10000 x)
           end; do 2 f_equal; lia.
Qed.

Lemma data_request_carries_limits (me : SyconApi) (d : string) (q : query) :
  carries_limits q (data_request me d q).
Proof. apply query_args_limits. Qed.

Section LimitsOnTheWire.
Variable q : query.

Lemma limits_pure {A} (m : M A) :
  (forall st, sent (snd (m st)) = sent st) -> limits_on_the_wire q m.
Proof. intros H st. exists []. rewrite H, app_nil_r. split; [done|apply Forall_nil_2]. Qed.

Lemma limits_bind {A B} (m : M A) (k : A -> M B) :
  limits_on_the_wire q m -> (forall a, limits_on_the_wire q (k a)) ->
  limits_on_the_wire q (bind m k).
Proof.
  intros Hm Hk st. unfold bind. destruct (Hm st) as (l1 & Hl1 & Hw1).
  destruct (m st) as [[a|e] st1]; simpl in *; [|by exists l1].
  destruct (Hk a st1) as (l2 & Hl2 & Hw2).
  exists (l1 ++ l2). split; [by rewrite Hl2, Hl1, app_assoc|by apply Forall_app].
Qed.

Lemma limits_transport_closed (req : request) :
  (is_Some (req_params req) -> carries_limits q req) ->
  limits_on_the_wire q (transport_closed req).
Proof.
  intros Hreq st. destruct (transport_closed_bounded req st) as (k & Hk & ->).
  exists (attempts_of k req). split; [done|]. unfold attempts_of.
  apply Forall_forall. intros a Hin.
  by apply list_elem_of_In, in_map_iff in Hin as (i & <- & Hi).
Qed.

Lemma limits__get_request hdrs url (args : option (gmap string param)) :
  (forall a, args = Some a ->
             a !! "headLimit" = capped (head_limit q) /\
             a !! "tailLimit" = capped (tail_limit q)) ->
  limits_on_the_wire q (_get_request hdrs url args).
Proof.
  intros Ha st. rewrite _get_request_closed. apply limits_transport_closed.
  simpl. intros [a ->]. by apply Ha.
Qed.

Lemma limits__post_request hdrs url data :
  limits_on_the_wire q (_post_request hdrs url data).
Proof.
  intros st. rewrite _post_request_closed. apply limits_transport_closed.
  simpl. by intros [a ?].
Qed.

Lemma limits_authenticate : limits_on_the_wire q authenticate.
Proof.
  unfold authenticate. apply limits_bind; [by apply limits_pure|]. intros me.
  apply limits_bind; [apply limits__post_request|]. intros rep.
  destruct (status_code rep =? 200); by apply limits_pure.
Qed.

Lemma limits_renew_token : limits_on_the_wire q renew_token.
Proof.
  unfold renew_token. apply limits_bind; [by apply limits_pure|]. intros me.
  apply limits_bind; [by apply limits__get_request|]. intros rep.
  destruct (status_code rep =? 200); [|by apply limits_pure].
  destruct (headers rep !! "Authorization"); by apply limits_pure.
Qed.

Lemma limits_check_token : limits_on_the_wire q check_token.
Proof.
  unfold check_token. apply limits_bind; [by apply limits_pure|]. intros me.
  apply limits_bind; [by apply limits__get_request|]. intros rep. by apply limits_pure.
Qed.

Lemma limits__manage_token : limits_on_the_wire q _manage_token.
Proof.
  unfold _manage_token. apply limits_bind; [by apply limits_pure|]. intros me.
  destruct (_token me); [|apply limits_authenticate].
  apply limits_bind; [apply limits_check_token|]. intros valid.
  destruct (negb valid); [apply limits_renew_token|by apply limits_pure].
Qed.

Lemma limits_get_devices_list : limits_on_the_wire q get_devices_list.
Proof.
  unfold get_devices_list. apply limits_bind; [by apply limits_pure|]. intros me.
  apply limits_bind; [apply limits__manage_token|]. intros _.
  apply limits_bind; [by apply limits_pure|]. intros me'.
  apply limits_bind; [by apply limits__get_request|]. intros rep.
  destruct (status_code rep =? 200); [|by apply limits_pure].
  destruct (json rep); by apply limits_pure.
Qed.

Lemma limits_validate_query : limits_on_the_wire q (validate_query q).
Proof. apply limits_pure. intros st. by rewrite validate_query_eq. Qed.

Lemma limits_data_request hdrs url :
  limits_on_the_wire q (_get_request hdrs url (Some (query_args q))).
Proof. apply limits__get_request. intros a [= <-]. apply query_args_limits. Qed.

Lemma limits_get_data_from_device_wrapped (d : string) :
  limits_on_the_wire q (get_data_from_device_wrapped d q).
Proof.
  unfold get_data_from_device_wrapped.
  apply limits_bind; [apply limits_validate_query|]. intros _.
  apply limits_bind; [apply limits__manage_token|]. intros _.
  apply limits_bind; [by apply limits_pure|]. intros me.
  apply limits_bind; [apply limits_data_request|]. intros rep. by apply limits_pure.
Qed.

Lemma limits_devices_loop (ds : list string) :
  forall data, limits_on_the_wire q (devices_loop ds q (query_args q) data).
Proof.
  induction ds as [|d ds IH]; intros data; simpl; [by apply limits_pure|].
  apply limits_bind; [by apply limits_pure|]. intros me.
  apply limits_bind; [apply limits_data_request|]. intros rep. apply IH.
Qed.

Lemma limits_all_devices_loop py_str (devices : list value) :
  forall data,
    limits_on_the_wire q (all_devices_loop py_str devices q (query_args q) data).
Proof.
  induction devices as [|v devices IH]; intros data; simpl; [by apply limits_pure|].
  apply limits_bind; [by apply limits_pure|]. intros has_id.
  destruct (negb has_id); [apply IH|].
  apply limits_bind; [by apply limits_pure|]. intros id.
  apply limits_bind; [by apply limits_pure|]. intros me.
  apply limits_bind; [apply limits_data_request|]. intros rep. apply IH.
Qed.

Lemma limits_lru_cache {K V} `{EqDecision K} (get : state -> lru K V)
    (set : lru K V -> state -> state) (key : state -> K) (body : M V) :
  (forall c st, sent (set c st) = sent st) ->
  limits_on_the_wire q body ->
  limits_on_the_wire q (fun st => lru_cache 10 get set (key st) body st).
Proof.
  intros Hset Hb st. unfold lru_cache. destruct (lru_find _ _); simpl.
  - exists []. rewrite Hset, app_nil_r. split; [done|apply Forall_nil_2].
  - destruct (Hb st) as (l & Hl & Hw).
    destruct (body st) as [[v|e] st1]; simpl in *; exists l; by rewrite ?Hset.
Qed.

Lemma limits_get_data_from_device (d : string) :
  limits_on_the_wire q (get_data_from_device d q).
Proof.
  apply (limits_lru_cache device_cache set_device_cache
           (fun st => (obj_id (self st), d, q))); [done|].
  apply limits_get_data_from_device_wrapped.
Qed.

Lemma limits_get_data_from_devices (ds : list string) :
  limits_on_the_wire q (get_data_from_devices ds q).
Proof.
  apply (limits_lru_cache devices_cache set_devices_cache
           (fun st => (obj_id (self st), ds, q))); [done|].
  unfold get_data_from_devices_wrapped.
  apply limits_bind; [apply limits_validate_query|]. intros _.
  apply limits_bind; [apply limits__manage_token|]. intros _.
  apply limits_devices_loop.
Qed.

Lemma limits_get_data_from_all_devices py_str :
  limits_on_the_wire q (get_data_from_all_devices py_str q).
Proof.
  apply (limits_lru_cache all_devices_cache set_all_devices_cache
           (fun st => (obj_id (self st), q))); [done|].
  unfold get_data_from_all_devices_wrapped, list_for_all_devices.
  apply limits_bind.
  - apply limits_bind; [apply limits_validate_query|]. intros _.
    apply limits_bind; [apply limits__manage_token|]. intros _.
    apply limits_get_devices_list.
  - intros devices. apply limits_bind; [by apply limits_pure|]. intros items.
    apply limits_all_devices_loop.
Qed.
End LimitsOnTheWire.

(** C6. With both limits absent the limit validator raises
    MissingParameters, with both present InvalidParameters; otherwise it
    passes, whatever the value, and the one limit that is set is sent
    capped to 10000: a value above 10000 as 10000, a value up to 10000
    unchanged. This is what [_fill_get_data_args] puts in the arguments,
    and what every data request of the three data methods carries: the
    request of a single-device call that runs, and each request of a
    multi-device or all-devices call that returns, holds the capped limit
    under its name and nothing under the name of the limit not set; and
    whatever the outcome, no call of the three methods sends query
    parameters that do not. *)
Theorem limits_validated_and_capped
    (args : gmap string param) (s e : string) (head tail : option Z)
    (ext : option string)
    (py_str : value -> string) (d : string) (ds : list string) (recs : list value)
    (q : query) (st st1 : state) :
  match head, tail with
  | None, None =>
      exists d, _raise_on_threshold_presence head tail
                = Raise (SyconApiMissingParametersException d)
  | Some _, Some _ =>
      exists d, _raise_on_threshold_presence head tail
                = Raise (SyconApiInvalidParametersException d)
  | Some h, None =>
      _raise_on_threshold_presence head tail = Ok tt /\
      _fill_get_data_args args s e head tail ext !! "headLimit"
        = Some (PInt (Z.min h 10000)) /\
      _fill_get_data_args args s e head tail ext !! "tailLimit"
        = args !! "tailLimit"
  | None, Some t =>
      _raise_on_threshold_presence head tail = Ok tt /\
      _fill_get_data_args args s e head tail ext !! "tailLimit"
        = Some (PInt (Z.min t 10000)) /\
      _fill_get_data_args args s e head tail ext !! "headLimit"
        = args !! "headLimit"
  end /\
  (lru_find (obj_id (self st), d, q) (device_cache st) = None ->
   check_query q = Ok tt ->
   _manage_token st = (Ok tt, st1) ->
   exists k r, (1 <= k <= 3)%nat /\
     sent (snd (get_data_from_device d q st)) = sent st1 ++ attempts_of k r /\
     req_url r
     = _server (self st1) +:+ SyconApiV1Route.DATA d (field_value (field q)) /\
     carries_limits q r) /\
  (lru_find (obj_id (self st), ds, q) (devices_cache st) = None ->
   check_query q = Ok tt ->
   _manage_token st = (Ok tt, st1) ->
   forall data st2,
     get_data_from_devices ds q st = (Ok data, st2) ->
     exists l, sent st2 = sent st1 ++ l /\
       length (requested l) = length ds /\
       Forall (carries_limits q) (requested l)) /\
  (lru_find (obj_id (self st), q) (all_devices_cache st) = None ->
   list_for_all_devices q st = (Ok (PyList recs), st1) ->
   Forall is_record recs ->
   forall data st2,
     get_data_from_all_devices py_str q st = (Ok data, st2) ->
     exists l, sent st2 = sent st1 ++ l /\
       length (requested l) = length (present_ids recs) /\
       Forall (carries_limits q) (requested l)) /\
  limits_on_the_wire q (get_data_from_device d q) /\
  limits_on_the_wire q (get_data_from_devices ds q) /\
  limits_on_the_wire q (get_data_from_all_devices py_str q).
Proof.
  split; [|split; [|split; [|split; [|split; [|split]]]]];
    [| | | |apply limits_get_data_from_device|apply limits_get_data_from_devices
     |apply limits_get_data_from_all_devices].
  - destruct head as [h|], tail as [t|]; simpl; eauto.
    + split; [done|]. unfold _fill_get_data_args, k_size_batch_limit.
      destruct ext; simplify_map_eq; split; try done;
        destruct (Z.ltb_spec 10000 h); do 2 f_equal; lia.
    + split; [done|]. unfold _fill_get_data_args, k_size_batch_limit.
      destruct ext; simplify_map_eq; split; try done;
        destruct (Z.ltb_spec 10000 t); do 2 f_equal; lia.
  - intros Hmiss Hq Hm.
    destruct (get_data_from_device_wrapped_sent d q st st1 Hq Hm) as (k & Hk & Hs).
    exists k, (data_request (self st1) d q). split; [done|].
    split; [|split; [done|apply data_request_carries_limits]].
    rewrite get_data_from_device_unfold, lru_cache_miss by done.
    by destruct (get_data_from_device_wrapped d q st) as [[v|e0] st'].
  - intros Hmiss Hq Hm data st2.
    unfold get_data_from_devices, bind, get_self, lru_cache. rewrite Hmiss.
    rewrite get_data_from_devices_wrapped_eq, Hq, Hm.
    destruct (devices_loop ds q (query_args q) ∅ st1) as [[data0|e0] st0] eqn:Hl; [|done].
    intros [= <- <-]. apply devices_loop_Ok in Hl as (_ & _ & l & Hsent & Hreq).
    exists l. split; [done|]. rewrite Hreq, length_fmap. split; [done|].
    apply Forall_fmap, Forall_forall. intros d' _. apply query_args_limits.
  - intros Hmiss Hpre Hrecs data st2.
    unfold get_data_from_all_devices, bind, get_self, lru_cache. rewrite Hmiss.
    destruct (get_data_from_all_devices_wrapped py_str q st) as [[data0|e0] st0] eqn:Hw;
      [|done].
    intros [= <- <-].
    destruct (get_data_from_all_devices_wrapped_Ok py_str q st st1 st0 recs data0
                Hpre Hrecs Hw) as (_ & l & Hsent & Hreq).
    exists l. split; [done|]. rewrite Hreq, length_fmap. split; [done|].
    apply Forall_fmap, Forall_forall. intros id _. apply data_request_carries_limits.
Qed.

Lemma limits_validated_and_capped_witness :
  exists k r, (1 <= k <= 3)%nat /\
    sent (snd (get_data_from_device "d1" q0_big_limit healthy))
    = sent (snd (_manage_token healthy)) ++ attempts_of k r /\
    req_url r
    = "https://cloud.sycon.io" +:+ "/api/devices/d1/TEMPERATURE_CELSIUS/data/raw" /\
    limit_sent "headLimit" r = Some (PInt 10000) /\
    limit_sent "tailLimit" r = None.
Proof.
  exact (proj1 (proj2 (limits_validated_and_capped ∅ "" "" None None None
                         str_scalar "d1" [] [] q0_big_limit healthy
                         (snd (_manage_token healthy))))
           eq_refl
           ltac:(vm_compute; reflexivity)
           ltac:(vm_compute; reflexivity)).
Defined.

(** ** The extra properties at work *)

Lemma manage_token_renews_only_after_unrejected_check_witness :
  _manage_token renewing
  = (Ok tt, logged (attempts_of 1 (check_request (self renewing))) renewing) /\
  _manage_token stale
  = renew_token (logged (attempts_of 1 (check_request (self stale))) stale) /\
  _manage_token rejected
  = (Raise (SyconApiBadResponseException (StatusText 401 "unauthorized")),
     logged (attempts_of 1 (check_request (self rejected))) rejected).
Proof.
  split; [|split].
  - apply (proj1 (manage_token_renews_only_after_unrejected_check
                    renewing "oldtoken" eq_refl)
             (with_header "Authorization" "Bearer newtoken" (plain 200 "")));
      reflexivity.
  - apply (proj1 (proj2 (manage_token_renews_only_after_unrejected_check
                           stale "oldtoken" eq_refl))
             (plain 204 "")); (reflexivity || discriminate).
  - apply (proj1 (proj2 (proj2 (manage_token_renews_only_after_unrejected_check
                                  rejected "oldtoken" eq_refl)))
             (plain 401 "unauthorized")); reflexivity.
Defined.

Lemma check_token_reads_an_unrefused_answer_witness :
  exists rep k, (1 <= k <= 3)%nat /\
    snd (check_token stale) = logged (attempts_of k (check_request (self stale))) stale /\
    cloud stale (length (sent stale) + (k - 1))%nat (check_request (self stale))
    = Reply rep /\
    ~ (400 <= status_code rep < 600) /\
    false = (status_code rep =? 200) /\
    _token (self (snd (check_token stale))) = _token (self stale).
Proof.
  apply (check_token_reads_an_unrefused_answer stale (snd (check_token stale)) false).
  vm_compute. reflexivity.
Defined.

Lemma failed_session_call_keeps_token_witness :
  transport_failure
    (RetryError (SyconApiServerErrorResponseException (StatusText 503 "srv error"))) /\
  exists l, snd (authenticate down) = logged l down.
Proof.
  apply (failed_session_call_keeps_token down (snd (authenticate down))).
  left. vm_compute. reflexivity.
Defined.

Lemma token_changes_only_on_200_witness :
  exists rep k, (1 <= k <= 3)%nat /\
    cloud no_content (length (sent no_content) + (k - 1))%nat
      (login_request (self no_content)) = Reply rep /\
    ~ (400 <= status_code rep < 600) /\
    snd (authenticate no_content)
    = set_self
        (with_token (if status_code rep =? 200
                     then headers rep !! "Authorization"
                     else _token (self no_content)) (self no_content))
        (logged (attempts_of k (login_request (self no_content))) no_content).
Proof.
  apply (proj1 (token_changes_only_on_200 no_content (snd (authenticate no_content)))).
  vm_compute. reflexivity.
Defined.

Lemma held_token_is_kept_witness :
  is_Some (_token (self (snd (check_token stale)))) /\
  is_Some (_token (self (snd (renew_token stale)))) /\
  is_Some (_token (self (snd (_manage_token stale)))) /\
  is_Some (_token (self (snd (get_devices_list stale)))) /\
  is_Some (_token (self (snd (get_data_from_device "d1" q0 stale)))) /\
  is_Some (_token (self (snd (get_data_from_devices ["a"; "b"] q0 stale)))) /\
  is_Some (_token (self (snd (get_data_from_all_devices str_scalar q0 stale)))).
Proof.
  apply (held_token_is_kept str_scalar "d1" ["a"; "b"] q0 stale).
  exists "oldtoken". reflexivity.
Defined.

Lemma get_devices_list_outcomes_witness :
  (exists st1 rep k, _manage_token no_content = (Ok tt, st1) /\ (1 <= k <= 3)%nat /\
     cloud no_content (length (sent st1) + (k - 1))%nat (devices_request (self st1))
     = Reply rep /\
     ~ (400 <= status_code rep < 600) /\
     snd (get_devices_list no_content)
     = logged (attempts_of k (devices_request (self st1))) st1 /\
     ((status_code rep = 200 /\ json rep = Some PyNone) \/
      (status_code rep <> 200 /\ PyNone = PyNone))) /\
  transport_failure
    (SyconApiBadResponseException
       (Text "Invalid response received from server for request https://cloud.sycon.io/api/devices")).
Proof.
  split.
  - apply (proj1 (get_devices_list_outcomes no_content (snd (get_devices_list no_content)))).
    vm_compute. reflexivity.
  - apply (proj1 (proj2 (get_devices_list_outcomes listing_not_json
                           (snd (get_devices_list listing_not_json))))).
    vm_compute. reflexivity.
Defined.

Lemma devices_one_request_per_device_witness :
  dom ({[ "a" := PyDict [("v", PyInt 1)]; "b" := PyStr "raw-b" ]} : gmap string value)
  = list_to_set ["a"; "b"] /\
  exists l, sent two_devices_once = sent two_devices_logged_in ++ l /\
    requested l = (fun d => data_request (self two_devices_logged_in) d q0) <$> ["a"; "b"].
Proof.
  apply (proj1 (devices_one_request_per_device ["a"; "b"] q0 two_devices
                  two_devices_logged_in
                  eq_refl
                  ltac:(vm_compute; reflexivity)
                  ltac:(vm_compute; reflexivity))).
  vm_compute. reflexivity.
Defined.

Lemma cached_answers_ignore_the_service_witness :
  get_data_from_device "d1" q0 (with_cloud (always (plain 503 "srv error")) healthy_once)
  = (Ok (PyDict [("k", PyStr "v")]),
     with_cloud (always (plain 503 "srv error")) healthy_once).
Proof.
  apply (proj1 (cached_answers_ignore_the_service str_scalar "d1" ["a"; "b"] q0 healthy
                  (always (plain 503 "srv error")))).
  vm_compute. reflexivity.
Defined.

Lemma multi_device_caches_witness :
  get_data_from_all_devices_wrapped str_scalar q0 no_such_device
  = (Raise (SyconApiBadResponseException (StatusText 404 "not found")),
     snd (get_data_from_all_devices str_scalar q0 no_such_device)) /\
  lru_find (obj_id (self (snd (get_data_from_all_devices str_scalar q0 no_such_device))), q0)
    (all_devices_cache (snd (get_data_from_all_devices str_scalar q0 no_such_device)))
  = None.
Proof.
  apply (proj1 (proj2 (multi_device_caches str_scalar ["a"; "b"] q0 no_such_device))).
  vm_compute. reflexivity.
Defined.

Lemma single_device_returns_dict_or_none_witness :
  device_values_shaped (snd (get_data_from_device "d1" q0 healthy)) /\
  forall v, fst (get_data_from_device "d1" q0 healthy) = Ok v ->
            v = PyNone \/ exists members, v = PyDict members.
Proof.
  apply (proj2 (single_device_returns_dict_or_none "d1" q0 healthy client_u
                  (always (plain 200 "")))).
  constructor.
Defined.

Lemma caches_stay_well_formed_witness :
  caches_wf healthy /\ caches_wf healthy_once.
Proof.
  pose proof (caches_stay_well_formed str_scalar "d1" [] q0 healthy client_u
                (cloud healthy)) as [Hfresh Hkept].
  split; [exact Hfresh|].
  exact (proj1 (proj2 (proj2 (proj2 (proj2 (proj2 (Hkept Hfresh))))))).
Defined.

Lemma store_drops_least_recently_used_witness :
  device_cache (snd (get_data_from_device "d1" (q_head 11) healthy_full))
  = ((obj_id (self healthy_full), "d1", q_head 11), PyDict [("k", PyStr "v")])
      :: removelast (device_cache healthy_full) /\
  lru_find (obj_id (self healthy_full), "d1", q_head 1)
    (device_cache (snd (get_data_from_device "d1" (q_head 11) healthy_full))) = None.
Proof.
  pose proof (proj2 (proj2 (store_drops_least_recently_used "d1" (q_head 11) healthy_full
                              (snd (get_data_from_device "d1" (q_head 11) healthy_full))
                              (PyDict [("k", PyStr "v")])
                              ltac:(vm_compute; reflexivity)))
                (removelast (device_cache healthy_full))
                (obj_id (self healthy_full), "d1", q_head 1)
                (PyDict [("k", PyStr "v")])
                (obj_id (self healthy_full), "d1", q_head 2)
                ltac:(vm_compute; reflexivity)
                ltac:(vm_compute; reflexivity)
                ltac:(vm_compute; reflexivity)
                ltac:(apply (bool_decide_unpack _); vm_compute; reflexivity))
    as (Hstore & Hold & _).
  split; [exact Hstore|exact Hold].
Defined.

Lemma all_devices_listing_that_is_no_list_witness :
  get_data_from_all_devices str_scalar q0 no_content
  = (Raise TypeError, snd (list_for_all_devices q0 no_content)) /\
  fst (get_data_from_all_devices str_scalar q0 listing_as_object) = Ok ∅ /\
  sent (snd (get_data_from_all_devices str_scalar q0 listing_as_object))
  = sent (snd (list_for_all_devices q0 listing_as_object)) /\
  lru_find (obj_id (self listing_as_object), q0)
    (all_devices_cache (snd (get_data_from_all_devices str_scalar q0 listing_as_object)))
  = Some ∅.
Proof.
  split.
  - apply (proj1 (all_devices_listing_that_is_no_list str_scalar q0 no_content
                    (snd (list_for_all_devices q0 no_content)) eq_refl)).
    vm_compute. reflexivity.
  - apply (proj1 (proj2 (all_devices_listing_that_is_no_list str_scalar q0
                           listing_as_object
                           (snd (list_for_all_devices q0 listing_as_object)) eq_refl))
             [("devices", PyList [])]).
    + vm_compute. reflexivity.
    + repeat constructor.
Defined.

Lemma all_devices_listing_checks_token_twice_witness :
  exists k, (1 <= k <= 3)%nat /\
    sent (snd (list_for_all_devices q0 healthy_logged_in)) =
    sent healthy_logged_in
      ++ attempts_of 1 (check_request (self healthy_logged_in))
      ++ attempts_of 1 (check_request (self healthy_logged_in))
      ++ attempts_of k (devices_request (self healthy_logged_in)) /\
    _token (self (snd (list_for_all_devices q0 healthy_logged_in))) = Some "tok".
Proof.
  apply (all_devices_listing_checks_token_twice q0 healthy_logged_in "tok" eq_refl).
  - vm_compute. reflexivity.
  - intros n. exists (plain 200 ""). split; reflexivity.
Defined.
